(** * instigator: a static site generator

    A shallow embedding of [instigator.go] and of the parts of the Go
    standard library it calls ([strings], [path/filepath], [regexp],
    [time], [sort]), followed by the properties of the pipeline.

    Go strings are byte sequences; they are modelled by [string], whose
    characters are the 256 byte values.  Paths use the Unix separator. *)

From Stdlib Require Import ZArith String Ascii List Permutation Lia.
From stdpp Require Import base gmap strings list sorting.

Open Scope string_scope.
Open Scope list_scope.

(* Appending to a string whose first byte is known unfolds under [simpl]. *)
Arguments String.append _ _ : simpl nomatch.

(** ** Package [strings] *)

Module Strings.

(** Membership of a byte in a cutset ([strings.IndexByte(cutset, c) >= 0]). *)
Fixpoint ContainsByte (cutset : string) (c : ascii) : bool :=
  match cutset with
  | EmptyString => false
  | String x cutset' => Ascii.eqb x c || ContainsByte cutset' c
  end.

(** [strings.TrimLeft(s, cutset)] for a cutset of ASCII bytes: Go then
    compares byte by byte ([trimLeftByte], [trimLeftASCII]). *)
Fixpoint TrimLeft (s cutset : string) : string :=
  match s with
  | EmptyString => EmptyString
  | String c s' => if ContainsByte cutset c then TrimLeft s' cutset else s
  end.

(** [strings.TrimRight(s, cutset)] for a cutset of ASCII bytes
    ([trimRightByte], [trimRightASCII]): the longest suffix made of bytes
    of the cutset is dropped.  A cutset with a byte above 127 makes Go
    decode runes instead; that path is outside this model, and the
    statements about [TrimRight] assume an ASCII cutset. *)
Fixpoint TrimRight (s cutset : string) : string :=
  match s with
  | EmptyString => EmptyString
  | String c s' =>
      match TrimRight s' cutset with
      | EmptyString => if ContainsByte cutset c then EmptyString
                       else String c EmptyString
      | r => String c r
      end
  end.

Fixpoint HasPrefix (s prefix : string) {struct prefix} : bool :=
  match prefix, s with
  | EmptyString, _ => true
  | String p prefix', String c s' => Ascii.eqb p c && HasPrefix s' prefix'
  | String _ _, EmptyString => false
  end.

(** [strings.Split(s, sep)] for a separator of one byte: the pieces
    between the separators, [n+1] of them for [n] separators. *)
Fixpoint SplitByte (s : string) (sep : ascii) : list string :=
  match s with
  | EmptyString => [EmptyString]
  | String c s' =>
      if Ascii.eqb c sep then EmptyString :: SplitByte s' sep
      else match SplitByte s' sep with
           | [] => [String c EmptyString]
           | piece :: pieces => String c piece :: pieces
           end
  end.

(** [strings.Join(elems, sep)]. *)
Fixpoint Join (elems : list string) (sep : string) : string :=
  match elems with
  | [] => EmptyString
  | [e] => e
  | e :: elems' => e +:+ sep +:+ Join elems' sep
  end.

(** Every byte is below [utf8.RuneSelf]. *)
Fixpoint isASCII (s : string) : bool :=
  match s with
  | EmptyString => true
  | String c s' => (nat_of_ascii c <? 128)%nat && isASCII s'
  end.

(** Every byte of [s] belongs to the cutset. *)
Fixpoint allBytesIn (cutset s : string) : bool :=
  match s with
  | EmptyString => true
  | String c s' => ContainsByte cutset c && allBytesIn cutset s'
  end.

(** The last byte of a string, if any. *)
Fixpoint lastByte (s : string) : option ascii :=
  match s with
  | EmptyString => None
  | String c EmptyString => Some c
  | String _ s' => lastByte s'
  end.

End Strings.

(** ** Package [path/filepath] (Unix) *)

Module Filepath.

Definition Separator : ascii := "/"%char.

Definition IsPathSeparator (c : ascii) : bool := Ascii.eqb c Separator.

(** The part of [path] after its last separator, and whether there was
    a separator at all. *)
Fixpoint lastElement (path : string) : string * bool :=
  match path with
  | EmptyString => (EmptyString, false)
  | String c path' =>
      let '(e, sep) := lastElement path' in
      if sep then (e, true)
      else if IsPathSeparator c then (e, true)
      else (String c e, false)
  end.

(** [filepath.Base]: trailing separators are removed first; the empty
    path gives ["."], a path of separators only gives ["/"]. *)
Definition Base (path : string) : string :=
  match path with
  | EmptyString => "."
  | _ =>
      let path := Strings.TrimRight path "/" in
      let path := fst (lastElement path) in
      match path with
      | EmptyString => "/"
      | _ => path
      end
  end.

(** [filepath.Ext]: the suffix that starts at the last dot of the last
    element of [path]; empty when that element has no dot. *)
Fixpoint Ext (path : string) : string :=
  match path with
  | EmptyString => EmptyString
  | String c path' =>
      match Ext path' with
      | EmptyString =>
          if Ascii.eqb c "."%char
          then if existsb IsPathSeparator (list_ascii_of_string path')
               then EmptyString else path
          else EmptyString
      | e => e
      end
  end.

(** One step of [filepath.Clean] on the stack of elements kept so far
    (innermost first): empty elements and ["."] are skipped, [".."]
    removes the previous element unless there is none to remove. *)
Definition cleanStep (rooted : bool) (out : list string) (elem : string)
  : list string :=
  if String.eqb elem "" then out
  else if String.eqb elem "." then out
  else if String.eqb elem ".." then
    match out with
    | [] => if rooted then [] else [".."]
    | top :: out' => if String.eqb top ".." then ".." :: out else out'
    end
  else elem :: out.

Definition Clean (path : string) : string :=
  match path with
  | EmptyString => "."
  | String c _ =>
      let rooted := IsPathSeparator c in
      let out := fold_left (cleanStep rooted) (Strings.SplitByte path "/") [] in
      let body := Strings.Join (rev out) "/" in
      if rooted then "/" +:+ body
      else match body with EmptyString => "." | _ => body end
  end.

(** [filepath.Join] of two elements: empty leading elements are
    ignored, the rest is joined with the separator and cleaned. *)
Definition Join (a b : string) : string :=
  match a, b with
  | EmptyString, EmptyString => EmptyString
  | EmptyString, _ => Clean b
  | _, _ => Clean (a +:+ "/" +:+ b)
  end.

End Filepath.

(** ** Errors

    Go's [error] values, one constructor per origin. *)

Inductive error : Type :=
  | SyntaxError (code expr : string)      (* *syntax.Error of regexp.Compile *)
  | ParseError (elem msg : string)        (* *time.ParseError *)
  | Errorf (msg : string)                 (* fmt.Errorf *)
  | PathError (op path : string)          (* *fs.PathError of os *)
  | LinkError (op old new : string)       (* *os.LinkError of os.Rename *)
  | ErrBadPattern                         (* filepath.ErrBadPattern *)
  | JSONError (msg : string)              (* encoding/json *)
  | TemplateError (msg : string).         (* text/template *)

(** A Go result [(T, error)] in which exactly one side is meaningful. *)
Definition result (A : Type) : Type := A + error.

(** ** Package [regexp]

    The fragment of the RE2 syntax that the date pattern is written in:
    literal bytes, escaped punctuation, [\d], capturing groups and counted
    repetition [{n}], [{n,m}].  Any other operator is reported by [Parse]
    with the code [unsupported]; the other codes are those of
    [regexp/syntax]. *)

Module Regexp.

Inductive Regexp : Type :=
  | EmptyMatch
  | Literal (c : ascii)
  | Digit                                   (* \d, that is [0-9] *)
  | Capture (sub : Regexp)
  | Concat (r1 r2 : Regexp)
  | Repeat (sub : Regexp) (min max : nat).  (* greedy sub{min,max} *)

Definition isDigit (c : ascii) : bool :=
  let n := nat_of_ascii c in (48 <=? n)%nat && (n <=? 57)%nat.

Definition isAlnum (c : ascii) : bool :=
  let n := nat_of_ascii c in
  isDigit c || ((65 <=? n)%nat && (n <=? 90)%nat)
            || ((97 <=? n)%nat && (n <=? 122)%nat).

Definition digitValue (c : ascii) : nat := nat_of_ascii c - 48.

(** *** Parsing *)

(** The digits at the front of [s], read as a number, and what follows
    them. *)
Fixpoint leadingDigits (s : string) (acc : nat) : nat * string :=
  match s with
  | String c s' =>
      if isDigit c then leadingDigits s' (10 * acc + digitValue c) else (acc, s)
  | EmptyString => (acc, s)
  end.

(** [parser.parseInt]: at least one digit, no leading zero before
    another digit. *)
Definition parseInt (s : string) : option (nat * string) :=
  match s with
  | String c s' =>
      if negb (isDigit c) then None
      else match s' with
           | String c' _ =>
               if Ascii.eqb c "0"%char && isDigit c' then None
               else Some (leadingDigits s 0)
           | EmptyString => Some (leadingDigits s 0)
           end
  | EmptyString => None
  end.

(** [parser.parseRepeat] on the text that follows an opening brace:
    the bounds and the text after the closing brace.  [{n,}] has no upper
    bound and lies outside the fragment: its [max] is [None]. *)
Definition parseRepeat (s : string) : option (nat * option nat * string) :=
  match parseInt s with
  | None => None
  | Some (min, s1) =>
      match s1 with
      | String "}" rest => Some (min, Some min, rest)
      | String "," s2 =>
          match s2 with
          | String "}" rest => Some (min, None, rest)
          | _ =>
              match parseInt s2 with
              | Some (max, String "}" rest) => Some (min, Some max, rest)
              | _ => None
              end
          end
      | _ => None
      end
  end.

(** The concatenation of the items of one nesting level, which are kept
    last item first. *)
Definition concat (items : list Regexp) : Regexp :=
  match items with
  | [] => EmptyMatch
  | last :: before => fold_left (fun acc r => Concat r acc) before last
  end.

Definition isOperator (c : ascii) : bool :=
  Strings.ContainsByte "*+?|.[^$" c.

(** [syntax.Parse], one byte at a time.  [stack] holds the items of the
    enclosing groups, [cur] those of the innermost one, [escape] says
    that the previous byte was a backslash, [skip] counts the bytes of a
    repetition already read, and [rep] says that the last item is a
    repetition (a second repetition operator on it is an error). *)
Fixpoint parse (expr s : string) (stack : list (list Regexp))
    (cur : list Regexp) (escape : bool) (skip : nat) (rep : bool)
  : result Regexp :=
  match s with
  | EmptyString =>
      if escape then inr (SyntaxError "trailing backslash at end of expression" expr)
      else match stack with
           | [] => inl (concat cur)
           | _ :: _ => inr (SyntaxError "missing closing )" expr)
           end
  | String c s' =>
      match skip with
      | S skip' => parse expr s' stack cur escape skip' rep
      | O =>
          if escape then
            if Ascii.eqb c "d"%char then
              parse expr s' stack (Digit :: cur) false 0 false
            else if (nat_of_ascii c <? 128)%nat && negb (isAlnum c) then
              parse expr s' stack (Literal c :: cur) false 0 false
            else inr (SyntaxError "unsupported" expr)
          else if Ascii.eqb c "\"%char then
            parse expr s' stack cur true 0 rep
          else if Ascii.eqb c "("%char then
            match s' with
            | String "?" _ => inr (SyntaxError "unsupported" expr)
            | _ => parse expr s' (cur :: stack) [] false 0 false
            end
          else if Ascii.eqb c ")"%char then
            match stack with
            | [] => inr (SyntaxError "unexpected )" expr)
            | outer :: stack' =>
                parse expr s' stack' (Capture (concat cur) :: outer) false 0 false
            end
          else if Ascii.eqb c "{"%char then
            match parseRepeat s' with
            | None => parse expr s' stack (Literal c :: cur) false 0 false
            | Some (_, None, _) => inr (SyntaxError "unsupported" expr)
            | Some (min, Some max, rest) =>
                if (1000 <? min)%nat || (1000 <? max)%nat || (max <? min)%nat then
                  inr (SyntaxError "invalid repeat count" expr)
                else if rep then
                  inr (SyntaxError "invalid nested repetition operator" expr)
                else
                  match cur with
                  | [] =>
                      inr (SyntaxError "missing argument to repetition operator" expr)
                  | sub :: cur' =>
                      parse expr s' stack (Repeat sub min max :: cur') false
                        (String.length s' - String.length rest) true
                  end
            end
          else if isOperator c || negb (nat_of_ascii c <? 128)%nat then
            inr (SyntaxError "unsupported" expr)
          else parse expr s' stack (Literal c :: cur) false 0 false
      end
  end.

Definition Parse (expr : string) : result Regexp :=
  parse expr expr [] [] false 0 false.

(** [regexp.Compile]. *)
Definition Compile (expr : string) : result Regexp := Parse expr.

(** *** Matching

    Go's [regexp] returns the match a backtracking search finds first
    (leftmost, and among those the one preferred by the greedy
    operators).  [matchK r s k] matches [r] at the front of [s] and hands
    the rest to the continuation [k]; it returns what is left of [s]
    after the whole match. *)
Fixpoint matchK (r : Regexp) (s : string) (k : string -> option string)
  : option string :=
  match r with
  | EmptyMatch => k s
  | Literal c =>
      match s with
      | String c' s' => if Ascii.eqb c c' then k s' else None
      | EmptyString => None
      end
  | Digit =>
      match s with
      | String c' s' => if isDigit c' then k s' else None
      | EmptyString => None
      end
  | Capture sub => matchK sub s k
  | Concat r1 r2 => matchK r1 s (fun s' => matchK r2 s' k)
  | Repeat sub min max =>
      let optional :=
        fix optional (n : nat) (s : string) : option string :=
          match n with
          | O => k s
          | S n' =>
              match matchK sub s (optional n') with
              | Some rest => Some rest
              | None => k s
              end
          end in
      let required :=
        fix required (n : nat) (s : string) : option string :=
          match n with
          | O => optional (max - min) s
          | S n' => matchK sub s (required n')
          end in
      required min s
  end.

(** The match of [r] that starts at the front of [s]: what follows it. *)
Definition matchHere (r : Regexp) (s : string) : option string :=
  matchK r s Some.

Fixpoint takeBytes (n : nat) (s : string) : string :=
  match n, s with
  | S n', String c s' => String c (takeBytes n' s')
  | _, _ => EmptyString
  end.

(** The leftmost match of [r] in [s], if there is one. *)
Fixpoint find (r : Regexp) (s : string) : option string :=
  match matchHere r s with
  | Some rest => Some (takeBytes (String.length s - String.length rest) s)
  | None =>
      match s with
      | EmptyString => None
      | String _ s' => find r s'
      end
  end.

(** [Regexp.FindString]: the text of the leftmost match, the empty
    string when there is none. *)
Definition FindString (r : Regexp) (s : string) : string :=
  match find r s with
  | Some m => m
  | None => EmptyString
  end.

End Regexp.

(** ** Package [time]

    An instant is the number of nanoseconds since January 1 of year 1,
    00:00:00 UTC (the zero [Time] of Go), on the proleptic Gregorian
    calendar, together with the offset of its location.  The monotonic
    clock reading that [time.Now] also records is not modelled. *)

Module Time.

Record Time : Type := mkTime {
  abs : Z;       (* nanoseconds since 0001-01-01 00:00:00 UTC *)
  offset : Z     (* seconds east of UTC of the location *)
}.

(** The zero value [Time{}]. *)
Definition zero : Time := mkTime 0 0.

(** [t.After(u)]. *)
Definition After (t u : Time) : bool := (abs u <? abs t)%Z.

Definition isLeap (year : Z) : bool :=
  ((year mod 4 =? 0) && (negb (year mod 100 =? 0) || (year mod 400 =? 0)))%Z.

Definition daysIn (month year : Z) : Z :=
  if (month =? 2)%Z then (if isLeap year then 29 else 28)%Z
  else if ((month =? 4) || (month =? 6) || (month =? 9) || (month =? 11))%Z
  then 30%Z else 31%Z.

(** Days of a common year before the first of [month]. *)
Definition daysBefore (month : Z) : Z :=
  nth (Z.to_nat (month - 1))
      [0; 31; 59; 90; 120; 151; 181; 212; 243; 273; 304; 334]%Z 0%Z.

(** Days from 0001-01-01 to the given day. *)
Definition daysSinceEpoch (year month day : Z) : Z :=
  let y := (year - 1)%Z in
  (365 * y + y / 4 - y / 100 + y / 400
   + daysBefore month + (if isLeap year && (2 <? month)%Z then 1 else 0)
   + (day - 1))%Z.

Definition nanosPerDay : Z := (86400 * 1000000000)%Z.

(** [time.Date(year, month, day, 0, 0, 0, 0, time.UTC)] for a day that
    exists in the calendar. *)
Definition Date (year month day : Z) : Time :=
  mkTime (daysSinceEpoch year month day * nanosPerDay) 0.

(** The civil date of the day that is [days] days after 0001-01-01. *)
Definition civil (days : Z) : Z * Z * Z :=
  let z := (days + 306)%Z in
  let era := (z / 146097)%Z in
  let doe := (z - era * 146097)%Z in
  let yoe := ((doe - doe / 1460 + doe / 36524 - doe / 146096) / 365)%Z in
  let doy := (doe - (365 * yoe + yoe / 4 - yoe / 100))%Z in
  let mp := ((5 * doy + 2) / 153)%Z in
  let d := (doy - (153 * mp + 2) / 5 + 1)%Z in
  let m := (if mp <? 10 then mp + 3 else mp - 9)%Z in
  let y := (yoe + era * 400 + (if m <=? 2 then 1 else 0))%Z in
  (y, m, d).

(** [t.Date()]: year, month and day of [t] in its location. *)
Definition dateOf (t : Time) : Z * Z * Z :=
  civil ((abs t / 1000000000 + offset t) / 86400).

Definition digitChar (n : Z) : ascii := ascii_of_nat (48 + Z.to_nat n).

(** The decimal digits of [n], most significant first; [fuel] bounds
    their number. *)
Fixpoint digits (fuel : nat) (n : Z) (acc : string) : string :=
  match fuel with
  | O => acc
  | S fuel' =>
      let acc := String (digitChar (n mod 10)) acc in
      if (n <? 10)%Z then acc else digits fuel' (n / 10) acc
  end.

Fixpoint zeros (n : nat) : string :=
  match n with
  | O => EmptyString
  | S n' => String "0" (zeros n')
  end.

(** [appendInt(b, x, width)]: decimal, zero-padded to [width], with a
    leading minus sign for a negative [x]. *)
Definition appendInt (x : Z) (width : nat) : string :=
  let u := Z.abs x in
  let ds := digits (S (Z.to_nat (Z.log2 u))) u EmptyString in
  (if (x <? 0)%Z then "-" else "")
    +:+ zeros (width - String.length ds) +:+ ds.

(** [t.Format("2006-01-02")]. *)
Definition Format_2006_01_02 (t : Time) : string :=
  let '(y, m, d) := dateOf t in
  appendInt y 4 +:+ "-" +:+ appendInt m 2 +:+ "-" +:+ appendInt d 2.

Definition isDigit (c : ascii) : bool :=
  let n := nat_of_ascii c in (48 <=? n)%nat && (n <=? 57)%nat.

Definition digitValue (c : ascii) : Z := Z.of_nat (nat_of_ascii c) - 48.

(** [getnum(s, true)]: exactly two digits. *)
Definition getnum2 (s : string) : option (Z * string) :=
  match s with
  | String a (String b rest) =>
      if isDigit a && isDigit b
      then Some (digitValue a * 10 + digitValue b, rest)%Z
      else None
  | _ => None
  end.

(** The year of the layout element [2006]: four bytes, the first a
    digit, that [atoi] reads as a number. *)
Definition getyear (s : string) : option (Z * string) :=
  match s with
  | String a (String b (String c (String d rest))) =>
      if isDigit a && isDigit b && isDigit c && isDigit d
      then Some (digitValue a * 1000 + digitValue b * 100
                 + digitValue c * 10 + digitValue d, rest)%Z
      else None
  | _ => None
  end.

(** [skip(value, "-")]: the literal dash of the layout. *)
Definition skipDash (s : string) : option string :=
  match s with
  | String "-" rest => Some rest
  | _ => None
  end.

(** [time.Parse("2006-01-02", value)]. *)
Definition Parse_2006_01_02 (value : string) : result Time :=
  match getyear value with
  | None => inr (ParseError "2006" "")
  | Some (year, v1) =>
  match skipDash v1 with
  | None => inr (ParseError "-" "")
  | Some v2 =>
  match getnum2 v2 with
  | None => inr (ParseError "01" "")
  | Some (month, v3) =>
  if ((month <=? 0) || (12 <? month))%Z
  then inr (ParseError "01" ": month out of range")
  else
  match skipDash v3 with
  | None => inr (ParseError "-" "")
  | Some v4 =>
  match getnum2 v4 with
  | None => inr (ParseError "02" "")
  | Some (day, v5) =>
  match v5 with
  | String _ _ => inr (ParseError "" ("extra text: " +:+ v5))
  | EmptyString =>
      if ((day <? 1) || (daysIn month year <? day))%Z
      then inr (ParseError "" ": day out of range")
      else inl (Date year month day)
  end end end end end end.

End Time.

(** ** Data of [instigator.go] *)

Record Config : Type := mkConfig {
  SourceDir : string;
  TemplateDir : string;
  OutputDir : string
}.

Record Post : Type := mkPost {
  Name : string;
  Title : string;
  Content : string;
  Date : Time.Time
}.

(** [type Posts []Post]. *)
Abbreviation Posts := (list Post).

(** The zero value [Post{}], which also fills a slice made by [make]. *)
Definition zeroPost : Post := mkPost "" "" "" Time.zero.

Definition zeroConfig : Config := mkConfig "" "" "".

(** The values handed to [renderTemplate] as [interface{}]: a [*Post],
    the anonymous struct [{Title, Content}] of the index page, or the
    [Posts] collection. *)
Inductive tmplData : Type :=
  | DataPost (post : Post)
  | DataPage (title content : string)
  | DataPosts (posts : Posts).

(** ** Package [sort]

    [sort.Interface], and the insertion sort that [sort.Sort] runs on a
    slice of at most twelve elements.  An index out of range is a run-time
    panic in Go: the methods return [None] there. *)

Class Interface (T : Type) : Type := {
  Len : T -> nat;
  Less : T -> nat -> nat -> option bool;
  Swap : T -> nat -> nat -> option T
}.

(** [for j := i; j > a && data.Less(j, j-1); j-- { data.Swap(j, j-1) }] *)
Fixpoint insertionSort_inner {T} `{Interface T} (data : T) (a j : nat)
  : option T :=
  match j with
  | O => Some data
  | S j' =>
      if (a <? j)%nat then
        match Less data j j' with
        | None => None
        | Some true =>
            match Swap data j j' with
            | None => None
            | Some data' => insertionSort_inner data' a j'
            end
        | Some false => Some data
        end
      else Some data
  end.

(** [for i := a + 1; i < b; i++ { ... }], with [n] iterations left. *)
Fixpoint insertionSort_outer {T} `{Interface T} (n : nat) (data : T)
    (a i : nat) : option T :=
  match n with
  | O => Some data
  | S n' =>
      match insertionSort_inner data a i with
      | None => None
      | Some data' => insertionSort_outer n' data' a (S i)
      end
  end.

Definition insertionSort {T} `{Interface T} (data : T) (a b : nat) : option T :=
  insertionSort_outer (b - (a + 1)) data a (a + 1).

(** The methods of [Posts]. *)

Definition Posts_Len (p : Posts) : nat := length p.

Definition Posts_Swap (p : Posts) (i j : nat) : option Posts :=
  match p !! i, p !! j with
  | Some pi, Some pj => Some (<[j := pi]> (<[i := pj]> p))
  | _, _ => None
  end.

Definition Posts_Less (p : Posts) (i j : nat) : option bool :=
  match p !! i, p !! j with
  | Some pi, Some pj => Some (Time.After (Date pi) (Date pj))
  | _, _ => None
  end.

#[export] Instance Posts_Interface : Interface Posts := {|
  Len := Posts_Len;
  Less := Posts_Less;
  Swap := Posts_Swap
|}.

(** ** [trimPath] *)


Definition trimPath (path : string) : string :=
  let fn := Filepath.Base path in
  let ext := Filepath.Ext fn in
  Strings.TrimRight fn ext.


(** ** The environment of a run

    What the program obtains from outside its own code: the clock, the
    [encoding/json] decoder, [filepath.Glob], the [blackfriday] markdown
    converter, the [text/template] engine, which paths the operating
    system lets it write and which writes it cuts short, and [sort.Sort]
    on [Posts]. *)

Class Runtime : Type := {
  (** A parsed template. *)
  Template : Type;
  (** The successive readings of [time.Now]. *)
  clock : nat -> Time.Time;
  (** [json.Unmarshal(data, &config)]: the decoder updates the
      configuration it is given. *)
  jsonUnmarshal : string -> Config -> Config * option error;
  (** [filepath.Glob(pattern)] on the current files. *)
  Glob : gmap string string -> string -> result (list string);
  (** [blackfriday.MarkdownCommon]. *)
  MarkdownCommon : string -> string;
  (** [template.New(name).Parse(text)]. *)
  tmplParse : string -> string -> result Template;
  (** [tmpl.Execute(buffer, data)], giving the contents of the buffer. *)
  tmplExecute : Template -> tmplData -> result string;
  (** Whether a file can be created or opened for writing at a path. *)
  writable : string -> bool;
  (** A write of these data to the opened file at this path that fails:
      the number of bytes that reach the file before the error of
      [Write] or [Close] ([None] when the write succeeds). *)
  shortWrite : string -> string -> option nat;
  (** [sort.Sort] on a [Posts] value, through its three methods. *)
  Sort : Posts -> Posts
}.

(** The state a run works on: the regular files by path, the number of
    clock readings taken so far, the package-level variable [config], and
    the calls of [renderTemplate] made so far (a record kept for the
    statements; the program does not read it). *)
Record World : Type := mkWorld {
  files : gmap string string;
  ticks : nat;
  config : Config;
  rendered : list (string * tmplData)
}.

Definition M (A : Type) : Type := World -> A * World.

Definition ret {A} (a : A) : M A := fun w => (a, w).

Definition bind {A B} (m : M A) (k : A -> M B) : M B :=
  fun w => let '(a, w') := m w in k a w'.

#[export] Instance M_ret : MRet M := @ret.
#[export] Instance M_bind : MBind M := fun A B k m => bind m k.

Definition getConfig : M Config := fun w => (config w, w).

Definition setConfig (c : Config) : M unit :=
  fun w => (tt, mkWorld (files w) (ticks w) c (rendered w)).

Definition setFiles (fs : gmap string string) (w : World) : World :=
  mkWorld fs (ticks w) (config w) (rendered w).

Section Program.

Context `{Runtime}.

(** *** The operating system *)

(** [time.Now()]. *)
Definition timeNow : M Time.Time :=
  fun w => (clock (ticks w),
            mkWorld (files w) (S (ticks w)) (config w) (rendered w)).

(** [ioutil.ReadFile]. *)
Definition ReadFile (path : string) : M (result string) :=
  fun w => match files w !! path with
           | Some data => (inl data, w)
           | None => (inr (PathError "open" path), w)
           end.

(** [ioutil.WriteFile(path, data, 0644)]: the file is opened with
    [O_TRUNC], so once it is open its old contents are gone; a write that
    fails then leaves in the file the bytes that reached it, and
    [WriteFile] returns the error. *)
Definition WriteFile (path data : string) : M (option error) :=
  fun w => if writable path
           then match shortWrite path data with
                | None => (None, setFiles (<[path := data]> (files w)) w)
                | Some n =>
                    (Some (PathError "write" path),
                     setFiles (<[path := String.substring 0 n data]> (files w)) w)
                end
           else (Some (PathError "open" path), w).

(** [os.Rename]. *)
Definition Rename (oldpath newpath : string) : M (option error) :=
  fun w => match files w !! oldpath with
           | Some data =>
               if writable newpath
               then (None, setFiles (<[newpath := data]> (delete oldpath (files w))) w)
               else (Some (LinkError "rename" oldpath newpath), w)
           | None => (Some (LinkError "rename" oldpath newpath), w)
           end.

(** A record of the call, for the statements only. *)
Definition noteRender (tmplPath : string) (data : tmplData) : M unit :=
  fun w => (tt, mkWorld (files w) (ticks w) (config w)
                        (rendered w ++ [(tmplPath, data)])).

(** *** [parseDate] *)

Definition datePattern : string := "(\d{1,4})-(\d{1,2})-(\d{1,2})".

Definition parseDate (name : string) : M (Time.Time * option error) :=
  match Regexp.Compile datePattern with
  | inl r =>
      (* find date string *)
      let ds := Regexp.FindString r name in
      (* quick check *)
      if (String.length ds =? 10)%nat then
        match Time.Parse_2006_01_02 ds with
        | inl d => ret (d, None)
        | inr err => now ← timeNow; ret (now, Some err)
        end
      else
        now ← timeNow;
        ret (now, Some (Errorf ("Unable to parse date from string: " +:+ name)))
  | inr err => now ← timeNow; ret (now, Some err)
  end.

(** *** [parseSourceFile] *)

Definition newline : ascii := "010"%char.

(** The loop over the lines that sets [post.Title] from the first
    headline and stops there; [title] is the value set so far. *)
Fixpoint parseTitle (lines : list string) (title : string) : string :=
  match lines with
  | [] => title
  | line :: lines' =>
      let s := Strings.TrimLeft line " " in
      if Strings.HasPrefix s "#"
      then Strings.TrimLeft (Strings.TrimLeft s "#") " "
      else parseTitle lines' title
  end.

Definition parseSourceFile (srcFilePath : string) : M (result Post) :=
  let name := trimPath srcFilePath in
  (* date; a failure is logged as a warning *)
  '(d, _) ← parseDate name;
  (* read file *)
  r ← ReadFile srcFilePath;
  match r with
  | inr err => ret (inr err)
  | inl data =>
      (* parse title from first headline *)
      let lines := Strings.SplitByte data newline in
      let title := parseTitle lines "" in
      (* convert markdown to html *)
      let content := Strings.Join lines (String newline "") in
      let output := MarkdownCommon content in
      ret (inl (mkPost name title output d))
  end.

(** *** Rendering and writing *)

Definition renderTemplate (tmplPath : string) (tmplData : tmplData)
  : M (result string) :=
  noteRender tmplPath tmplData ;;
  (* read template *)
  r ← ReadFile tmplPath;
  match r with
  | inr err => ret (inr err)
  | inl data =>
      (* parse template *)
      match tmplParse tmplPath data with
      | inr err => ret (inr err)
      | inl tmpl => ret (tmplExecute tmpl tmplData)
      end
  end.

Definition writeOutputFile (outFilePath html : string) : M (option error) :=
  WriteFile outFilePath html.

Definition readConfig : M (option error) :=
  r ← ReadFile "config.json";
  match r with
  | inr err => ret (Some err)
  | inl file =>
      c ← getConfig;
      let '(c', err) := jsonUnmarshal file c in
      setConfig c' ;; ret err
  end.

(** [sort.Sort(posts)] reorders the array that the caller's slice
    shares: the reordered collection is returned with the error. *)
Definition writeIndex (posts : Posts) : M (Posts * option error) :=
  (* sort posts *)
  let posts := Sort posts in
  c ← getConfig;
  (* recent posts *)
  r ← renderTemplate (Filepath.Join (TemplateDir c) "recent.html") (DataPosts posts);
  match r with
  | inr err => ret (posts, Some err)
  | inl out =>
      (* tuck recent into main template *)
      r ← renderTemplate (Filepath.Join (TemplateDir c) "main.html")
                          (DataPage "my page" out);
      match r with
      | inr err => ret (posts, Some err)
      | inl out =>
          err ← writeOutputFile (Filepath.Join (OutputDir c) "index.html") out;
          ret (posts, err)
      end
  end.

Definition writePost (mdPath : string) : M (result Post) :=
  (* parse post *)
  r ← parseSourceFile mdPath;
  match r with
  | inr err => ret (inr err)
  | inl post =>
      c ← getConfig;
      (* render template *)
      let tmplPath := Filepath.Join (TemplateDir c) "main.html" in
      r ← renderTemplate tmplPath (DataPost post);
      match r with
      | inr err => ret (inr err)
      | inl out =>
          (* write post *)
          let outFilePath := Filepath.Join (OutputDir c) (Name post +:+ ".html") in
          err ← writeOutputFile outFilePath out;
          match err with
          | Some err => ret (inr err)
          | None => ret (inl post)   (* returning post to be stored in Posts *)
          end
      end
  end.

Definition writeFeed (posts : Posts) : M (Posts * option error) :=
  (* sort posts *)
  let posts := Sort posts in
  c ← getConfig;
  (* rss *)
  r ← renderTemplate (Filepath.Join (TemplateDir c) "feed.html") (DataPosts posts);
  match r with
  | inr err => ret (posts, Some err)
  | inl out =>
      err ← writeOutputFile (Filepath.Join (OutputDir c) "feed.html") out;
      ret (posts, err)
  end.

Definition listSrcFiles : M (result (list string)) :=
  fun w => (Glob (files w) (SourceDir (config w) +:+ "/*.md"), w).

(** *** [prepare] *)

(** The body of the loop of [prepare] for one source file. *)
Definition prepareFile (srcFile : string) : M unit :=
  let name := trimPath srcFile in
  '(date, err) ← parseDate name;
  (* add current date if parsedate failed (meaning no date prefix in filename) *)
  match err with
  | Some _ =>
      c ← getConfig;
      let dateStr := Time.Format_2006_01_02 date in
      let newname := Filepath.Join (SourceDir c)
                       (dateStr +:+ "-" +:+ name +:+ Filepath.Ext srcFile) in
      (* a failed rename is logged; it is not fatal *)
      Rename srcFile newname ;; ret tt
  | None => ret tt
  end.

Fixpoint prepareLoop (srcFiles : list string) : M unit :=
  match srcFiles with
  | [] => ret tt
  | srcFile :: srcFiles' => prepareFile srcFile ;; prepareLoop srcFiles'
  end.

Definition prepare : M (option error) :=
  (* add current date to source files if date not manually set *)
  r ← listSrcFiles;
  match r with
  | inr err => ret (Some err)
  | inl srcFiles => prepareLoop srcFiles ;; ret None
  end.

(** *** [main] *)

(** The loop of [main] over the source files, from index [i] on:
    [posts[i] = *post] when [writePost] succeeds, nothing otherwise. *)
Fixpoint writePosts (i : nat) (srcFiles : list string) (posts : Posts)
  : M Posts :=
  match srcFiles with
  | [] => ret posts
  | srcFile :: srcFiles' =>
      r ← writePost srcFile;
      match r with
      | inl post => writePosts (S i) srcFiles' (<[i := post]> posts)
      | inr _ => writePosts (S i) srcFiles' posts
      end
  end.

(** [main], returning the exit status of the process. *)
Definition main : M Z :=
  (* read config *)
  err ← readConfig;
  match err with
  | Some _ => ret 1%Z
  | None =>
      (* prepare *)
      err ← prepare;
      match err with
      | Some _ => ret 1%Z
      | None =>
          (* collect source files *)
          r ← listSrcFiles;
          match r with
          | inr _ => ret 1%Z
          | inl srcFiles =>
              (* write posts *)
              let posts := replicate (length srcFiles) zeroPost in
              posts ← writePosts 0 srcFiles posts;
              (* write index *)
              '(posts, _) ← writeIndex posts;
              (* write feed *)
              '(posts, _) ← writeFeed posts;
              ret 0%Z
          end
      end
  end.

(** One execution of the program: a new process starts with the zero
    configuration and an empty record of renderings. *)
Definition run (fs : gmap string string) (t : nat) : Z * World :=
  main (mkWorld fs t zeroConfig []).

End Program.


(** ** A concrete environment

    A small environment in which runs can be evaluated: every path is
    writable and no write is cut short, the clock starts on 2024-05-17 at 10:00 UTC and advances by
    one second per reading, and [sort.Sort] is the insertion sort that Go
    runs on short slices.  The decoder, the listing and the template
    engine cover the inputs of the examples only, and agree on them with
    [encoding/json], [filepath.Glob] and [text/template]. *)

Module Demo.

Definition now0 : Time.Time :=
  Time.mkTime ((Time.daysSinceEpoch 2024 5 17 * 86400 + 36000) * 1000000000) 0.

Definition clock (n : nat) : Time.Time :=
  Time.mkTime (Time.abs now0 + Z.of_nat n * 1000000000) 0.

(** The text of a configuration file. *)
Definition quoted (s : string) : string :=
  String (ascii_of_nat 34) s +:+ String (ascii_of_nat 34) "".

Definition configFile (c : Config) : string :=
  "{" +:+ quoted "SourceDir" +:+ ":" +:+ quoted (SourceDir c) +:+ ","
      +:+ quoted "TemplateDir" +:+ ":" +:+ quoted (TemplateDir c) +:+ ","
      +:+ quoted "OutputDir" +:+ ":" +:+ quoted (OutputDir c) +:+ "}".

(** The two configurations of the examples: templates and output in
    directories of their own, and in one shared directory. *)
Definition configSeparate : Config := mkConfig "src" "tmpl" "out".

Definition configShared : Config := mkConfig "src" "out" "out".

Definition jsonUnmarshal (data : string) (c : Config) : Config * option error :=
  if String.eqb data (configFile configSeparate) then (configSeparate, None)
  else if String.eqb data (configFile configShared) then (configShared, None)
  else (c, Some (JSONError "unsupported document")).

Fixpoint stripSuffix (s suffix : string) : option string :=
  if String.eqb s suffix then Some EmptyString
  else match s with
       | EmptyString => None
       | String c s' => option_map (String c) (stripSuffix s' suffix)
       end.

(** The name of [path] inside the directory [dir], when [path] is a file
    of that directory. *)
Fixpoint nameIn (dir path : string) : option string :=
  match dir, path with
  | EmptyString, String "/" name =>
      if Strings.ContainsByte name "/" then None else Some name
  | String a dir', String b path' =>
      if Ascii.eqb a b then nameIn dir' path' else None
  | _, _ => None
  end.

Definition isMarkdownIn (dir path : string) : bool :=
  match nameIn dir path with
  | Some name => match stripSuffix name ".md" with Some _ => true | None => false end
  | None => false
  end.

Fixpoint insertSorted (x : string) (l : list string) : list string :=
  match l with
  | [] => [x]
  | y :: l' => if String.leb x y then x :: l else y :: insertSorted x l'
  end.

(** [filepath.Glob] for the pattern [dir/*.md], [dir] a clean path
    without metacharacters: the files of [dir] whose name ends in [.md],
    in the order of their names. *)
Definition Glob (fs : gmap string string) (pattern : string)
  : result (list string) :=
  match stripSuffix pattern "/*.md" with
  | Some dir =>
      inl (foldr insertSorted []
             (List.filter (isMarkdownIn dir) (map fst (map_to_list fs))))
  | None => inl []
  end.

(** The converter stands for [blackfriday]; no template of the examples
    prints the content of a post. *)
Definition MarkdownCommon (input : string) : string :=
  "<p>" +:+ input +:+ "</p>".

(** Three kinds of template: text without any action, [{{len .}}], and
    [{{range .}}{{.Title}}{{end}}]. *)
Inductive Template : Type :=
  | Text (text : string)
  | LenOfDot
  | TitlesOfDot.

Fixpoint hasAction (text : string) : bool :=
  Strings.HasPrefix text "{{"
  || match text with
     | EmptyString => false
     | String _ text' => hasAction text'
     end.

Definition tmplParse (name text : string) : result Template :=
  if negb (hasAction text) then inl (Text text)
  else if String.eqb text "{{len .}}" then inl LenOfDot
  else if String.eqb text "{{range .}}{{.Title}}{{end}}" then inl TitlesOfDot
  else inr (TemplateError "unsupported action").

Definition tmplExecute (tmpl : Template) (data : tmplData) : result string :=
  match tmpl, data with
  | Text text, _ => inl text
  | LenOfDot, DataPosts posts =>
      inl (Time.appendInt (Z.of_nat (length posts)) 0)
  | TitlesOfDot, DataPosts posts =>
      inl (String.concat "" (map Title posts))
  | LenOfDot, _ => inr (TemplateError "error calling len")
  | TitlesOfDot, _ => inr (TemplateError "range can't iterate over value")
  end.

(** [sort.Sort] on at most twelve posts; an insertion sort that stays in
    range never panics, so the first branch is the one taken. *)
Definition Sort (posts : Posts) : Posts :=
  match insertionSort posts 0 (Len posts) with
  | Some sorted => sorted
  | None => posts
  end.

#[export] Instance runtime : Runtime :=
  Build_Runtime Template clock jsonUnmarshal Glob MarkdownCommon
    tmplParse tmplExecute (fun _ => true) (fun _ _ => None) Sort.

End Demo.


(** ** Vocabulary of the statements *)

(** The date pattern, compiled. *)
Definition dateRegexp : Regexp.Regexp :=
  Regexp.Concat (Regexp.Capture (Regexp.Repeat Regexp.Digit 1 4))
    (Regexp.Concat (Regexp.Literal "-")
       (Regexp.Concat (Regexp.Capture (Regexp.Repeat Regexp.Digit 1 2))
          (Regexp.Concat (Regexp.Literal "-")
             (Regexp.Capture (Regexp.Repeat Regexp.Digit 1 2))))).

Definition twoDigits (n : Z) : string :=
  String (Time.digitChar (n / 10)) (String (Time.digitChar (n mod 10)) "").

Definition fourDigits (n : Z) : string :=
  String (Time.digitChar (n / 1000))
    (String (Time.digitChar (n / 100 mod 10)) (twoDigits (n mod 100))).

(** The text [YYYY-MM-DD] of a date. *)
Definition dateString (year month day : Z) : string :=
  fourDigits year +:+ "-" +:+ twoDigits month +:+ "-" +:+ twoDigits day.

(** A day of the calendar whose year has four digits. *)
Definition validDate (year month day : Z) : Prop :=
  (0 <= year <= 9999 /\ 1 <= month <= 12 /\ 1 <= day <= Time.daysIn month year)%Z.

(** [sub] occurs in [s]. *)
Definition Contains (s sub : string) : Prop :=
  exists pre post, s = pre +:+ sub +:+ post.

(** The world after one more reading of the clock. *)
Definition tick (w : World) : World :=
  mkWorld (files w) (S (ticks w)) (config w) (rendered w).

(** A world at the start of a process. *)
Definition startWorld (fs : gmap string string) (t : nat) : World :=
  mkWorld fs t zeroConfig [].

(** [n] copies of the byte [c]. *)
Fixpoint repeatByte (c : ascii) (n : nat) : string :=
  match n with
  | O => EmptyString
  | S n' => String c (repeatByte c n')
  end.

(** A line that [parseSourceFile] takes for a headline. *)
Definition isHeadline (line : string) : bool :=
  Strings.HasPrefix (Strings.TrimLeft line " ") "#".

(** The shape of a headline: spaces, at least one [#], spaces, and the
    text that remains. *)
Definition headline (a b c : nat) (rest : string) : string :=
  repeatByte " " a +:+ repeatByte "#" (S b) +:+ repeatByte " " c +:+ rest.

(** A source directory with one post, whose headline is closed by a [#]. *)
Definition fsTitle : gmap string string := {[ "src/2021-03-05-a.md" := "intro
  ## My Title #
# second" ]}.

(** Ten bytes in the shape of a date, followed by [post]. *)
Definition dateBytes (c1 c2 c3 c4 c5 c6 c7 c8 : ascii) (post : string) : string :=
  String c1 (String c2 (String c3 (String c4 (String "-"
    (String c5 (String c6 (String "-" (String c7 (String c8 post))))))))).

(** ** Order of the posts *)

(** The date of [p] is not earlier than the date of [q]. *)
Definition notEarlier (p q : Post) : Prop :=
  (Time.abs (Date q) <= Time.abs (Date p))%Z.

(** Every post has a date not earlier than the posts after it. *)
Definition descending (posts : Posts) : Prop := StronglySorted notEarlier posts.

(** What [sort.Sort] promises for [Posts]: it only swaps elements, and
    afterwards no element is [Less] than one before it. *)
Class SortContract `{Runtime} : Prop := {
  Sort_permutation : forall posts : Posts, Sort posts ≡ₚ posts;
  Sort_sorted : forall (posts : Posts) (i j : nat),
      i < j -> j < Len (Sort posts) -> Less (Sort posts) j i = Some false
}.

(** The inner loop of the insertion sort on lists: [x] moves to the left
    past the elements it is [Less] than; [rl] holds the elements on its
    left, nearest first, and [acc] those already passed. *)
Fixpoint shift (x : Post) (rl acc : Posts) : Posts * Posts :=
  match rl with
  | [] => ([], acc)
  | y :: rl' =>
      if Time.After (Date x) (Date y) then shift x rl' (y :: acc) else (rl, acc)
  end.

(** ** Properties kept by every step of a run *)

(** [m] keeps the property [P] of the world. *)
Definition preserves {A} (P : World -> Prop) (m : M A) : Prop :=
  forall w, P w -> P (snd (m w)).

(** A collection handed to a template is in descending order. *)
Definition sortedData (data : tmplData) : Prop :=
  match data with
  | DataPosts posts => descending posts
  | _ => True
  end.

(** Every collection handed to a template so far was in descending order. *)
Definition sortedRenderings (w : World) : Prop :=
  Forall (fun entry => sortedData (snd entry)) (rendered w).

(** The world after [renderTemplate] has noted a call. *)
Definition noted (tmplPath : string) (data : tmplData) (w : World) : World :=
  mkWorld (files w) (ticks w) (config w) (rendered w ++ [(tmplPath, data)]).

(** Every post has a date later than the posts after it. *)
Definition strictlyDescending (posts : Posts) : Prop :=
  StronglySorted (fun p q => (Time.abs (Date q) < Time.abs (Date p))%Z) posts.

(** ** The slots of the collection *)

(** What the slot of a source file holds after the loop of [main]: the
    post when [writePost] succeeded, the zero value otherwise. *)
Definition slot (r : result Post) : Post :=
  match r with
  | inl post => post
  | inr _ => zeroPost
  end.

Section Outcomes.

Context `{Runtime}.

(** The results of [writePost] on the source files, in their order. *)
Fixpoint outcomes (srcFiles : list string) : M (list (result Post)) :=
  match srcFiles with
  | [] => ret []
  | srcFile :: srcFiles' =>
      r ← writePost srcFile;
      rs ← outcomes srcFiles';
      ret (r :: rs)
  end.

End Outcomes.

(** Three posts with the dates 2020-01-01, 2022-06-15 and 2021-03-03. *)
Definition post2020 : Post := mkPost "2020-01-01-a" "A" "" (Time.Date 2020 1 1).
Definition post2022 : Post := mkPost "2022-06-15-b" "B" "" (Time.Date 2022 6 15).
Definition post2021 : Post := mkPost "2021-03-03-c" "C" "" (Time.Date 2021 3 3).

(** A file system for the examples: the configuration with separate
    directories, the three templates, one dated post and one undated. *)
Definition fsSite : gmap string string :=
  list_to_map [("config.json", Demo.configFile Demo.configSeparate);
               ("tmpl/main.html", "<html>page</html>");
               ("tmpl/recent.html", "recent");
               ("tmpl/feed.html", "{{range .}}{{.Title}}{{end}}");
               ("src/2021-03-05-a.md", "# First");
               ("src/cmd.md", "# Second")].

(** The world of a run on [fsSite] once the configuration is loaded. *)
Definition siteWorld : World := mkWorld fsSite 0 Demo.configSeparate [].


(** ** Running the program again *)

(** The name of the source file begins with a date of the calendar. *)
Definition datePrefixed (srcFile : string) : Prop :=
  exists y m d rest,
    validDate y m d /\ trimPath srcFile = dateString y m d +:+ rest.

(** Two worlds hold the configuration [cfg] and the same contents at the
    paths in [ins]. *)
Definition agree (cfg : Config) (ins : string -> Prop) (w1 w2 : World) : Prop :=
  config w1 = cfg /\ config w2 = cfg
  /\ forall path, ins path -> files w1 !! path = files w2 !! path.

(** In two such worlds [m] returns the same value and writes the same
    files [W], and it leaves the configuration alone. *)
Definition replays {A} (cfg : Config) (ins : string -> Prop) (m : M A) : Prop :=
  forall w1 w2,
    agree cfg ins w1 w2 ->
    exists W : gmap string string,
      fst (m w1) = fst (m w2)
      /\ files (snd (m w1)) = W ∪ files w1
      /\ files (snd (m w2)) = W ∪ files w2
      /\ config (snd (m w1)) = cfg
      /\ config (snd (m w2)) = cfg.

Section Publish.

Context `{Runtime}.

(** The part of [main] that follows the listing of the source files. *)
Definition publish (srcFiles : list string) : M Z :=
  let posts := replicate (length srcFiles) zeroPost in
  posts ← writePosts 0 srcFiles posts;
  '(posts, _) ← writeIndex posts;
  '(posts, _) ← writeFeed posts;
  ret 0%Z.

End Publish.

(** The files a run reads besides the configuration file: the sources
    and the three templates. *)
Definition inputs (cfg : Config) (srcFiles : list string) : list string :=
  srcFiles ++ map (Filepath.Join (TemplateDir cfg)) ["main.html"; "recent.html"; "feed.html"].

(** A site whose two posts are dated, with templates and output in
    directories of their own. *)
Definition fsDated : gmap string string :=
  list_to_map [("config.json", Demo.configFile Demo.configSeparate);
               ("tmpl/main.html", "<html>page</html>");
               ("tmpl/recent.html", "recent");
               ("tmpl/feed.html", "{{range .}}{{.Title}}{{end}}");
               ("src/2021-03-05-a.md", "# First");
               ("src/2022-06-15-b.md", "# Second")].

(** A site whose templates live in the output directory; the headline of
    its one post is the text of a template action. *)
Definition fsShared : gmap string string :=
  list_to_map [("config.json", Demo.configFile Demo.configShared);
               ("out/main.html", "<html>page</html>");
               ("out/recent.html", "recent");
               ("out/feed.html", "{{range .}}{{.Title}}{{end}}");
               ("src/2021-03-05-a.md", "# {{len .}}")].

(** ** Matches of the date pattern *)

(** Every byte of [s] is a decimal digit. *)
Fixpoint allDigits (s : string) : bool :=
  match s with
  | EmptyString => true
  | String c s' => Regexp.isDigit c && allDigits s'
  end.

Section Repetition.

Variable sub : Regexp.Regexp.
Variable k : string -> option string.
Variable extra : nat.

(** The two loops of [Regexp.matchK] on a repetition of [sub] followed by
    [k]: up to [n] further copies, as many as possible, and [n] copies
    before [extra] further ones. *)
Fixpoint optionalK (n : nat) (s : string) {struct n} : option string :=
  match n with
  | O => k s
  | S n' =>
      match Regexp.matchK sub s (optionalK n') with
      | Some rest => Some rest
      | None => k s
      end
  end.

Fixpoint requiredK (n : nat) (s : string) {struct n} : option string :=
  match n with
  | O => optionalK extra s
  | S n' => Regexp.matchK sub s (requiredK n')
  end.

End Repetition.

(** ** What a run writes *)

Section Rendering.

Context `{Runtime}.

(** What [renderTemplate] returns for the template at [tmplPath] among
    the files [fs]. *)
Definition rendering (fs : gmap string string) (tmplPath : string)
    (data : tmplData) : result string :=
  match fs !! tmplPath with
  | Some text =>
      match tmplParse tmplPath text with
      | inl tmpl => tmplExecute tmpl data
      | inr err => inr err
      end
  | None => inr (PathError "open" tmplPath)
  end.

End Rendering.

(** [fs'] differs from [fs] at most at the paths in [paths]. *)
Definition changedAt (paths : list string) (fs fs' : gmap string string) : Prop :=
  forall path, path ∉ paths -> fs' !! path = fs !! path.

(** The paths of the output files of a run: one page per source file,
    the index and the feed. *)
Definition outputPaths (cfg : Config) (srcFiles : list string) : list string :=
  map (fun srcFile => Filepath.Join (OutputDir cfg) (trimPath srcFile +:+ ".html"))
      srcFiles
  ++ [Filepath.Join (OutputDir cfg) "index.html";
      Filepath.Join (OutputDir cfg) "feed.html"].

(** ** Preparing the file names *)

(** The name [prepare] gives to a source file when the clock reads
    [now]. *)
Definition datedName (cfg : Config) (now : Time.Time) (srcFile : string) : string :=
  Filepath.Join (SourceDir cfg)
    (Time.Format_2006_01_02 now +:+ "-" +:+ trimPath srcFile
     +:+ Filepath.Ext srcFile).

(** Every file of [fs'] holds the contents of some file of [fs]. *)
Definition contentsFrom (fs fs' : gmap string string) : Prop :=
  forall path data, fs' !! path = Some data -> exists path0, fs !! path0 = Some data.

(** ** Calendar order *)

(** The day [(y1, m1, d1)] comes after the day [(y2, m2, d2)]. *)
Definition laterDay (y1 m1 d1 y2 m2 d2 : Z) : Prop :=
  (y2 < y1 \/ (y2 = y1 /\ (m2 < m1 \/ (m2 = m1 /\ d2 < d1))))%Z.

(** ** The paths of the pages *)

(** The path of the page that [writePost] writes for a source file. *)
Definition pagePath (cfg : Config) (srcFile : string) : string :=
  Filepath.Join (OutputDir cfg) (trimPath srcFile +:+ ".html").

(** A name that can be an entry of a directory: it has no separator and
    is none of [""], ["."] and [".."]. *)
Definition entryName (x : string) : Prop :=
  Strings.ContainsByte x "/" = false /\ x <> "" /\ x <> "." /\ x <> "..".

(** * Properties *)

(** ** Strings and paths *)

Lemma app_nil_r_string (s : string) : s +:+ "" = s.
Proof. induction s as [|c s IH]; simpl; [reflexivity | now rewrite IH]. Qed.

Lemma app_assoc_string (a b c : string) : (a +:+ b) +:+ c = a +:+ (b +:+ c).
Proof. induction a as [|x a IH]; simpl; [reflexivity | now rewrite IH]. Qed.

Lemma length_app_string (a b : string) :
  String.length (a +:+ b) = String.length a + String.length b.
Proof. induction a as [|x a IH]; simpl; [reflexivity | now rewrite IH]. Qed.

Lemma TrimRight_all (s cutset : string) :
  Strings.allBytesIn cutset s = true -> Strings.TrimRight s cutset = "".
Proof.
  induction s as [|c s IH]; simpl; [reflexivity |].
  intros [Hc Hs]%andb_true_iff. now rewrite (IH Hs), Hc.
Qed.

Lemma TrimRight_app_cutset (s t cutset : string) :
  Strings.allBytesIn cutset t = true ->
  Strings.TrimRight (s +:+ t) cutset = Strings.TrimRight s cutset.
Proof.
  intros Ht. induction s as [|c s IH]; simpl.
  - now apply TrimRight_all.
  - now rewrite IH.
Qed.

Lemma TrimRight_split (s cutset : string) :
  exists t, s = Strings.TrimRight s cutset +:+ t
            /\ Strings.allBytesIn cutset t = true.
Proof.
  induction s as [|c s (t & Hs & Ht)]; simpl.
  - now exists "".
  - destruct (Strings.TrimRight s cutset) as [|d r] eqn:E.
    + destruct (Strings.ContainsByte cutset c) eqn:Hc.
      * exists (String c s). split; [reflexivity |].
        simpl in *. rewrite Hc. now rewrite Hs.
      * exists t. split; [| assumption]. simpl in *. now rewrite Hs at 1.
    + exists t. split; [| assumption]. simpl in *. now rewrite Hs at 1.
Qed.

Lemma TrimRight_last (s cutset : string) (c : ascii) :
  Strings.lastByte (Strings.TrimRight s cutset) = Some c ->
  Strings.ContainsByte cutset c = false.
Proof.
  induction s as [|x s IH]; simpl; [discriminate |].
  destruct (Strings.TrimRight s cutset) as [|d r] eqn:E.
  - destruct (Strings.ContainsByte cutset x) eqn:Hx; simpl; [discriminate |].
    intros [= <-]. exact Hx.
  - intros Hl. apply IH. exact Hl.
Qed.

Lemma allBytesIn_self (s pre : string) :
  Strings.allBytesIn (pre +:+ s) s = true.
Proof.
  revert pre. induction s as [|c s IH]; intros pre; simpl; [reflexivity |].
  apply andb_true_iff. split.
  - clear IH. induction pre as [|p pre IH]; simpl.
    + now rewrite Ascii.eqb_refl.
    + rewrite IH. now rewrite orb_true_r.
  - specialize (IH (pre +:+ String c "")).
    now rewrite app_assoc_string in IH.
Qed.

Lemma Ext_suffix (fn : string) : exists stem, fn = stem +:+ Filepath.Ext fn.
Proof.
  induction fn as [|c fn (stem & IH)]; simpl.
  - now exists "".
  - destruct (Filepath.Ext fn) as [|d e] eqn:E.
    + destruct (Ascii.eqb c "."); [| exists (String c fn); simpl;
        now rewrite app_nil_r_string].
      destruct (existsb _ _).
      * exists (String c fn). simpl. now rewrite app_nil_r_string.
      * now exists "".
    + exists (String c stem). simpl. now rewrite IH at 1.
Qed.

(** C2. [trimPath] drops the directory, the extension, and then every
    further trailing byte that occurs in the extension: the base name is
    [slug ++ t ++ ext] where [t] consists of bytes of the extension and
    [slug] does not end in such a byte.  For [cmd.md] the slug is [c]. *)
Theorem trimPath_trims_extension_bytes (path : string) :
  Strings.isASCII (Filepath.Ext (Filepath.Base path)) = true ->
  let fn := Filepath.Base path in
  let ext := Filepath.Ext fn in
  (exists t,
      fn = trimPath path +:+ t +:+ ext
      /\ trimPath path = Strings.TrimRight (trimPath path +:+ t) ext
      /\ Strings.allBytesIn ext t = true
      /\ forall c, Strings.lastByte (trimPath path) = Some c ->
                   Strings.ContainsByte ext c = false)
  /\ trimPath "posts/2021-03-05-hello.md" = "2021-03-05-hello"
  /\ trimPath "posts/cmd.md" = "c".
Proof.
  intros _ fn ext. split; [| split; reflexivity].
  destruct (Ext_suffix fn) as (stem & Hfn). fold ext in Hfn.
  assert (Hslug : trimPath path = Strings.TrimRight stem ext).
  { unfold trimPath. fold fn. fold ext. rewrite Hfn at 1.
    apply TrimRight_app_cutset. apply (allBytesIn_self ext ""). }
  destruct (TrimRight_split stem ext) as (t & Hstem & Ht).
  exists t. rewrite Hslug.
  split; [| split; [| split; [exact Ht |]]].
  - rewrite <- app_assoc_string, <- Hstem. exact Hfn.
  - now rewrite <- Hstem.
  - intros c. apply TrimRight_last.
Qed.

Lemma trimPath_trims_extension_bytes_witness :
  Strings.isASCII (Filepath.Ext (Filepath.Base "posts/cmd.md")) = true
  /\ exists t, Filepath.Base "posts/cmd.md" = trimPath "posts/cmd.md" +:+ t +:+ ".md".
Proof.
  split; [reflexivity |].
  destruct (trimPath_trims_extension_bytes "posts/cmd.md" eq_refl)
    as ((t & Ht & _) & _).
  exists t. exact Ht.
Defined.


(** ** The date parser *)

Section ParseDate.

Context `{Runtime}.

Lemma Compile_datePattern : Regexp.Compile datePattern = inl dateRegexp.
Proof. reflexivity. Qed.

Lemma parseDate_eq (name : string) (w : World) :
  parseDate name w =
    let ds := Regexp.FindString dateRegexp name in
    if (String.length ds =? 10)%nat then
      match Time.Parse_2006_01_02 ds with
      | inl d => ((d, None), w)
      | inr err => ((clock (ticks w), Some err), tick w)
      end
    else ((clock (ticks w),
           Some (Errorf ("Unable to parse date from string: " +:+ name))), tick w).
Proof.
  unfold parseDate. rewrite Compile_datePattern. cbv zeta.
  destruct (String.length _ =? 10)%nat; [| reflexivity].
  destruct (Time.Parse_2006_01_02 _); reflexivity.
Qed.

Lemma Parse_error_kind (value : string) (e : error) :
  Time.Parse_2006_01_02 value = inr e -> exists elem msg, e = ParseError elem msg.
Proof.
  unfold Time.Parse_2006_01_02. intros E.
  repeat match type of E with
         | context [match ?x with _ => _ end] => destruct x
         | context [if ?x then _ else _] => destruct x
         end;
    first [discriminate E | injection E as <-; eauto].
Qed.

(** C10. The date pattern compiles, so [parseDate] never returns the
    error of [regexp.Compile]: its error, if any, is not a syntax error. *)
Theorem parseDate_never_compile_error :
  Regexp.Compile datePattern = inl dateRegexp
  /\ forall (name : string) (w : World),
       match snd (fst (parseDate name w)) with
       | Some (SyntaxError _ _) => False
       | Some (ParseError _ _) => True
       | Some (Errorf msg) => msg = "Unable to parse date from string: " +:+ name
       | Some _ => False
       | None => True
       end.
Proof.
  split; [reflexivity |]. intros name w. rewrite parseDate_eq. cbv zeta.
  destruct (String.length _ =? 10)%nat; [| reflexivity].
  destruct (Time.Parse_2006_01_02 _) as [d | e] eqn:E; simpl; [exact I |].
  destruct (Parse_error_kind _ _ E) as (elem & msg & ->). exact I.
Qed.

Lemma find_None_FindString (r : Regexp.Regexp) (s : string) :
  Regexp.find r s = None -> Regexp.FindString r s = "".
Proof. unfold Regexp.FindString. now intros ->. Qed.

(** C5. When the pattern has no match in the name, when its first match
    is not ten bytes long, or when that match is not a date of the
    calendar, [parseDate] returns the reading of the clock together with
    an error: the message naming the string, or the error of
    [time.Parse]. *)
Theorem parseDate_failure_returns_now (name : string) (w : World) :
  let ds := Regexp.FindString dateRegexp name in
  Regexp.find dateRegexp name = None
  \/ String.length ds <> 10
  \/ (exists e, Time.Parse_2006_01_02 ds = inr e) ->
  exists err,
    parseDate name w = ((clock (ticks w), Some err), tick w)
    /\ (err = Errorf ("Unable to parse date from string: " +:+ name)
        \/ (String.length ds = 10 /\ Time.Parse_2006_01_02 ds = inr err)).
Proof.
  intros ds Hcase. rewrite parseDate_eq. cbv zeta. fold ds.
  destruct (String.length ds =? 10)%nat eqn:Hlen.
  - apply Nat.eqb_eq in Hlen.
    destruct Hcase as [Hnone | [Hne | (e & He)]].
    + apply find_None_FindString in Hnone. fold ds in Hnone.
      rewrite Hnone in Hlen. discriminate.
    + contradiction.
    + rewrite He. exists e. split; [reflexivity |]. right. now split.
  - eexists. split; [reflexivity |]. now left.
Qed.

End ParseDate.

Lemma digitChar_facts (k : Z) :
  (0 <= k <= 9)%Z ->
  Regexp.isDigit (Time.digitChar k) = true
  /\ Time.isDigit (Time.digitChar k) = true
  /\ Time.digitValue (Time.digitChar k) = k.
Proof.
  intros Hk.
  assert (Hcases : In k [0; 1; 2; 3; 4; 5; 6; 7; 8; 9]%Z).
  { assert (k = 0 \/ k = 1 \/ k = 2 \/ k = 3 \/ k = 4 \/ k = 5 \/ k = 6
            \/ k = 7 \/ k = 8 \/ k = 9)%Z as Hor by lia.
    simpl. intuition auto. }
  simpl in Hcases.
  repeat (destruct Hcases as [<- | Hcases]; [repeat split; reflexivity |]).
  contradiction.
Qed.

Lemma matchHere_dateBytes c1 c2 c3 c4 c5 c6 c7 c8 post :
  Regexp.isDigit c1 = true -> Regexp.isDigit c2 = true ->
  Regexp.isDigit c3 = true -> Regexp.isDigit c4 = true ->
  Regexp.isDigit c5 = true -> Regexp.isDigit c6 = true ->
  Regexp.isDigit c7 = true -> Regexp.isDigit c8 = true ->
  Regexp.matchHere dateRegexp (dateBytes c1 c2 c3 c4 c5 c6 c7 c8 post) = Some post.
Proof.
  intros H1 H2 H3 H4 H5 H6 H7 H8.
  unfold Regexp.matchHere, dateRegexp, dateBytes. simpl.
  rewrite H1, H2, H3, H4. simpl. rewrite H5, H6. simpl. rewrite H7, H8. reflexivity.
Qed.

Lemma dateString_bytes (y m d : Z) (post : string) :
  dateString y m d +:+ post =
  dateBytes (Time.digitChar (y / 1000)) (Time.digitChar (y / 100 mod 10))
            (Time.digitChar (y mod 100 / 10)) (Time.digitChar (y mod 100 mod 10))
            (Time.digitChar (m / 10)) (Time.digitChar (m mod 10))
            (Time.digitChar (d / 10)) (Time.digitChar (d mod 10)) post.
Proof. reflexivity. Qed.

Lemma daysIn_le_31 (m y : Z) : (Time.daysIn m y <= 31)%Z.
Proof.
  unfold Time.daysIn.
  repeat match goal with |- context [if ?b then _ else _] => destruct b end; lia.
Qed.

Section Digits.

Variables y m d : Z.
Hypothesis Hvalid : validDate y m d.

Lemma date_digit_ranges :
  (0 <= y / 1000 <= 9 /\ 0 <= y / 100 mod 10 <= 9
   /\ 0 <= y mod 100 / 10 <= 9 /\ 0 <= y mod 100 mod 10 <= 9
   /\ 0 <= m / 10 <= 9 /\ 0 <= m mod 10 <= 9
   /\ 0 <= d / 10 <= 9 /\ 0 <= d mod 10 <= 9)%Z.
Proof.
  destruct Hvalid as (Hy & Hm & Hd).
  pose proof (daysIn_le_31 m y).
  repeat split; Z.div_mod_to_equations; lia.
Qed.

Lemma matchHere_dateString (post : string) :
  Regexp.matchHere dateRegexp (dateString y m d +:+ post) = Some post.
Proof.
  destruct date_digit_ranges as (H1 & H2 & H3 & H4 & H5 & H6 & H7 & H8).
  rewrite dateString_bytes.
  apply matchHere_dateBytes; now apply digitChar_facts.
Qed.

Lemma Parse_dateString :
  Time.Parse_2006_01_02 (dateString y m d) = inl (Time.Date y m d).
Proof.
  destruct date_digit_ranges as (H1 & H2 & H3 & H4 & H5 & H6 & H7 & H8).
  apply digitChar_facts in H1 as (_ & D1 & V1), H2 as (_ & D2 & V2),
    H3 as (_ & D3 & V3), H4 as (_ & D4 & V4), H5 as (_ & D5 & V5),
    H6 as (_ & D6 & V6), H7 as (_ & D7 & V7), H8 as (_ & D8 & V8).
  destruct Hvalid as (Hy & Hm & Hd).
  rewrite <- (app_nil_r_string (dateString y m d)), dateString_bytes.
  unfold Time.Parse_2006_01_02, dateBytes, Time.getyear, Time.getnum2, Time.skipDash.
  rewrite D1, D2, D3, D4, V1, V2, V3, V4. cbn [andb]. cbv beta iota.
  rewrite D5, D6, V5, V6. cbn [andb]. cbv beta iota.
  replace (y / 1000 * 1000 + y / 100 mod 10 * 100 + y mod 100 / 10 * 10
           + y mod 100 mod 10)%Z with y by (Z.div_mod_to_equations; lia).
  replace (m / 10 * 10 + m mod 10)%Z with m by (Z.div_mod_to_equations; lia).
  replace ((m <=? 0) || (12 <? m))%Z with false by lia.
  cbv beta iota. rewrite D7, D8, V7, V8. cbn [andb]. cbv beta iota.
  replace (d / 10 * 10 + d mod 10)%Z with d by (Z.div_mod_to_equations; lia).
  replace ((d <? 1) || (Time.daysIn m y <? d))%Z with false by lia.
  reflexivity.
Qed.

End Digits.

Lemma find_skip (r : Regexp.Regexp) (pre rest : string) :
  (forall p1 p2, pre = p1 +:+ p2 -> p2 <> "" ->
                 Regexp.matchHere r (p2 +:+ rest) = None) ->
  Regexp.find r (pre +:+ rest) = Regexp.find r rest.
Proof.
  induction pre as [|c pre IH]; intros Hno; [reflexivity |].
  assert (E : Regexp.matchHere r (String c pre +:+ rest) = None)
    by (now apply (Hno "" (String c pre))).
  simpl in *. rewrite E.
  apply IH. intros p1 p2 -> Hp2. now apply (Hno (String c p1) p2).
Qed.

Lemma takeBytes_app (s t : string) :
  Regexp.takeBytes (String.length (s +:+ t) - String.length t) (s +:+ t) = s.
Proof.
  rewrite length_app_string.
  replace (String.length s + String.length t - String.length t) with (String.length s) by lia.
  induction s as [|c s IH]; simpl; [now destruct t | now rewrite IH].
Qed.

Lemma length_dateString (y m d : Z) : String.length (dateString y m d) = 10.
Proof. reflexivity. Qed.

Lemma find_here (r : Regexp.Regexp) (s rest : string) :
  Regexp.matchHere r s = Some rest ->
  Regexp.find r s = Some (Regexp.takeBytes (String.length s - String.length rest) s).
Proof. intros E. destruct s; simpl; now rewrite E. Qed.

Section ParseDateSuccess.

Context `{Runtime}.

(** C1 (amended). When the leftmost match of the date pattern in the
    name is a date [YYYY-MM-DD] of the calendar, that is when no match of
    the pattern begins before it, [parseDate] returns exactly that date,
    no error, and does not read the clock. *)
Theorem parseDate_first_match_is_date (pre post : string) (y m d : Z) (w : World) :
  validDate y m d ->
  (forall p1 p2, pre = p1 +:+ p2 -> p2 <> "" ->
     Regexp.matchHere dateRegexp (p2 +:+ dateString y m d +:+ post) = None) ->
  parseDate (pre +:+ dateString y m d +:+ post) w = ((Time.Date y m d, None), w).
Proof.
  intros Hvalid Hfirst. rewrite parseDate_eq. cbv zeta.
  unfold Regexp.FindString. rewrite (find_skip _ _ _ Hfirst).
  rewrite (find_here _ _ post) by now apply matchHere_dateString.
  rewrite takeBytes_app, length_dateString. cbn [Nat.eqb].
  now rewrite Parse_dateString.
Qed.

End ParseDateSuccess.

Lemma parseDate_first_match_is_date_witness :
  validDate 2021 3 5
  /\ parseDate (H := Demo.runtime) "a1-2021-03-05-hello.md" (startWorld ∅ 0)
     = ((Time.Date 2021 3 5, None), startWorld ∅ 0).
Proof.
  assert (Hv : validDate 2021 3 5) by (unfold validDate; cbn; lia).
  split; [exact Hv |].
  apply (parseDate_first_match_is_date (H := Demo.runtime) "a1-" "-hello.md" 2021 3 5
           (startWorld ∅ 0) Hv).
  intros p1 p2 E Hp2.
  destruct p1 as [|c1 [|c2 [|c3 [|c4 p1]]]]; simpl in E; inversion E; subst;
    first [reflexivity | contradiction | discriminate].
Defined.

(** C1 (as stated) fails: [1-1-2021-03-05] contains the date 2021-03-05,
    but the leftmost match of the pattern is [1-1-20], six bytes long, and
    [parseDate] returns the clock reading with an error. *)
Lemma parseDate_embedded_date_counterexample :
  validDate 2021 3 5
  /\ Contains "1-1-2021-03-05" (dateString 2021 3 5)
  /\ fst (parseDate (H := Demo.runtime) "1-1-2021-03-05" (startWorld ∅ 0))
     = (Demo.clock 0, Some (Errorf "Unable to parse date from string: 1-1-2021-03-05"))
  /\ fst (parseDate (H := Demo.runtime) "1-1-2021-03-05" (startWorld ∅ 0))
     <> (Time.Date 2021 3 5, None).
Proof.
  split; [unfold validDate; cbn; lia |].
  split; [now exists "1-1-", "" |].
  split; [reflexivity |].
  intros E. vm_compute in E. discriminate E.
Qed.

(** ** The title of a post *)

Lemma TrimLeft_repeatByte (c : ascii) (n : nat) (s : string) :
  Strings.TrimLeft (repeatByte c n +:+ s) (String c "")
  = Strings.TrimLeft s (String c "").
Proof.
  induction n as [|n IH]; simpl; [reflexivity |].
  now rewrite Ascii.eqb_refl.
Qed.

Lemma TrimLeft_stop (s : string) (c : ascii) :
  Strings.HasPrefix s (String c "") = false ->
  Strings.TrimLeft s (String c "") = s.
Proof.
  destruct s as [|x s]; simpl; [reflexivity |].
  destruct (Ascii.eqb c x); simpl; [| reflexivity].
  now destruct s.
Qed.

Lemma TrimLeft_no_prefix (s : string) (c : ascii) :
  Strings.HasPrefix (Strings.TrimLeft s (String c "")) (String c "") = false.
Proof.
  induction s as [|x s IH]; simpl; [reflexivity |].
  destruct (Ascii.eqb c x) eqn:E; simpl; [exact IH |].
  now rewrite E.
Qed.

Lemma parseTitle_cons (line : string) (lines : list string) (title : string) :
  parseTitle (line :: lines) title =
    if isHeadline line
    then Strings.TrimLeft (Strings.TrimLeft (Strings.TrimLeft line " ") "#") " "
    else parseTitle lines title.
Proof. reflexivity. Qed.

Lemma parseTitle_no_headline (lines : list string) (title : string) :
  Forall (fun l => isHeadline l = false) lines -> parseTitle lines title = title.
Proof.
  induction 1 as [|l lines Hl _ IH]; [reflexivity |].
  now rewrite parseTitle_cons, Hl.
Qed.

Lemma parseTitle_first_headline (before after : list string) (line title : string) :
  Forall (fun l => isHeadline l = false) before ->
  isHeadline line = true ->
  parseTitle (before ++ line :: after) title
  = Strings.TrimLeft (Strings.TrimLeft (Strings.TrimLeft line " ") "#") " ".
Proof.
  intros Hb Hl. induction Hb as [|l before Hn _ IH].
  - simpl app. now rewrite parseTitle_cons, Hl.
  - simpl app. now rewrite parseTitle_cons, Hn.
Qed.

Lemma parseTitle_no_leading_space (lines : list string) :
  Strings.HasPrefix (parseTitle lines "") " " = false.
Proof.
  induction lines as [|l lines IH]; [reflexivity |].
  rewrite parseTitle_cons. destruct (isHeadline l); [| exact IH].
  apply TrimLeft_no_prefix.
Qed.

Lemma headline_title (a b c : nat) (rest : string) :
  Strings.HasPrefix rest " " = false ->
  (c = 0 -> Strings.HasPrefix rest "#" = false) ->
  isHeadline (headline a b c rest) = true
  /\ Strings.TrimLeft (Strings.TrimLeft (Strings.TrimLeft (headline a b c rest) " ") "#") " "
     = rest.
Proof.
  intros Hsp Hhash. unfold isHeadline, headline.
  rewrite (TrimLeft_repeatByte " " a).
  rewrite (TrimLeft_stop (repeatByte "#" (S b) +:+ _) " ") by reflexivity.
  split; [reflexivity |].
  rewrite (TrimLeft_repeatByte "#" (S b)).
  destruct c as [|c].
  - simpl. rewrite (TrimLeft_stop rest "#") by auto. now apply TrimLeft_stop.
  - rewrite (TrimLeft_stop (repeatByte " " (S c) +:+ rest) "#") by reflexivity.
    rewrite (TrimLeft_repeatByte " " (S c)). now apply TrimLeft_stop.
Qed.

Section Title.

Context `{Runtime}.

Lemma parseDate_preserves (name : string) (w : World) :
  let w' := snd (parseDate name w) in
  files w' = files w /\ config w' = config w /\ rendered w' = rendered w.
Proof.
  rewrite parseDate_eq. cbv zeta.
  destruct (String.length _ =? 10)%nat; [| now simpl].
  destruct (Time.Parse_2006_01_02 _); now simpl.
Qed.

Lemma parseSourceFile_eq (srcFilePath : string) (w : World) :
  parseSourceFile srcFilePath w =
    let name := trimPath srcFilePath in
    let w1 := snd (parseDate name w) in
    match files w !! srcFilePath with
    | Some data =>
        let lines := Strings.SplitByte data newline in
        (inl (mkPost name (parseTitle lines "")
                (MarkdownCommon (Strings.Join lines (String newline "")))
                (fst (fst (parseDate name w)))), w1)
    | None => (inr (PathError "open" srcFilePath), w1)
    end.
Proof.
  unfold parseSourceFile, mbind, M_bind, bind. cbv zeta.
  pose proof (parseDate_preserves (trimPath srcFilePath) w) as (Hf & _).
  destruct (parseDate (trimPath srcFilePath) w) as [[d e] w1]. simpl in *.
  unfold ReadFile. rewrite Hf.
  now destruct (files w !! srcFilePath).
Qed.

(** C4 (amended). The title of a parsed post comes from the first line
    that, after its leading spaces, begins with [#]: it is that line
    without the leading spaces, the [#] characters that follow and the
    spaces after those, and whatever ends the line is kept.  Without such
    a line the title is empty.  The title never begins with a space. *)
Theorem parseSourceFile_title (srcFilePath data : string) (w : World) :
  files w !! srcFilePath = Some data ->
  exists post,
    fst (parseSourceFile srcFilePath w) = inl post
    /\ let lines := Strings.SplitByte data newline in
       (forall before after a b c rest,
           lines = (before ++ headline a b c rest :: after) ->
           Forall (fun l => isHeadline l = false) before ->
           Strings.HasPrefix rest " " = false ->
           (c = 0 -> Strings.HasPrefix rest "#" = false) ->
           Title post = rest)
       /\ (Forall (fun l => isHeadline l = false) lines -> Title post = "")
       /\ Strings.HasPrefix (Title post) " " = false.
Proof.
  intros Hdata. rewrite parseSourceFile_eq. cbv zeta. rewrite Hdata.
  eexists. split; [reflexivity |]. simpl.
  split; [| split].
  - intros before after a b c rest -> Hbefore Hsp Hhash.
    destruct (headline_title a b c rest Hsp Hhash) as (Hh & Ht).
    now rewrite parseTitle_first_headline.
  - apply parseTitle_no_headline.
  - apply parseTitle_no_leading_space.
Qed.

End Title.

Lemma parseSourceFile_title_witness :
  exists post,
    fst (parseSourceFile (H := Demo.runtime) "src/2021-03-05-a.md" (startWorld fsTitle 0))
    = inl post
    /\ Title post = "My Title #".
Proof.
  destruct (parseSourceFile_title (H := Demo.runtime) "src/2021-03-05-a.md" _
              (startWorld fsTitle 0) eq_refl) as (post & Hpost & Hshape & _).
  exists post. split; [exact Hpost |].
  apply (Hshape ["intro"] ["# second"] 2 1 1 "My Title #");
    first [reflexivity | discriminate | repeat constructor].
Defined.

(** C4 (as stated) fails: the headline [## My Title #] gives a title
    that ends in [#]. *)
Lemma parseSourceFile_title_counterexample :
  exists post,
    fst (parseSourceFile (H := Demo.runtime) "src/2021-03-05-a.md" (startWorld fsTitle 0))
    = inl post
    /\ Title post = "My Title #"
    /\ Strings.lastByte (Title post) = Some "#"%char.
Proof. eexists. split; [reflexivity |]. split; reflexivity. Qed.

(** ** Sorting *)

Lemma shift_app (x : Post) (rl acc : Posts) :
  rev (fst (shift x rl acc)) ++ snd (shift x rl acc) = rev rl ++ acc.
Proof.
  revert acc. induction rl as [|y rl IH]; intros acc; simpl; [reflexivity |].
  destruct (Time.After (Date x) (Date y)); simpl; [| reflexivity].
  rewrite IH. now rewrite <- app_assoc.
Qed.

Lemma shift_length (x : Post) (rl acc : Posts) :
  length (fst (shift x rl acc)) + length (snd (shift x rl acc))
  = length rl + length acc.
Proof.
  pose proof (f_equal length (shift_app x rl acc)) as E.
  rewrite !length_app, !length_rev in E. exact E.
Qed.

Lemma insertionSort_inner_shift (rl acc rest : Posts) (x : Post) :
  insertionSort_inner (rev rl ++ x :: acc ++ rest) 0 (length rl)
  = Some (rev (fst (shift x rl acc)) ++ x :: snd (shift x rl acc) ++ rest).
Proof.
  revert acc. induction rl as [|y rl IH]; intros acc; [reflexivity |].
  cbn [length insertionSort_inner Nat.ltb Nat.leb shift].
  assert (Hy : (rev (y :: rl) ++ x :: acc ++ rest) !! length rl = Some y).
  { simpl. rewrite <- app_assoc. apply list_lookup_middle. now rewrite length_rev. }
  assert (Hx : (rev (y :: rl) ++ x :: acc ++ rest) !! S (length rl) = Some x).
  { apply list_lookup_middle. simpl. rewrite length_app, length_rev. simpl. lia. }
  cbn [Less Swap Posts_Interface]. unfold Posts_Less, Posts_Swap.
  rewrite Hx, Hy.
  destruct (Time.After (Date x) (Date y)); [| reflexivity].
  replace (<[length rl:=x]> (<[S (length rl):=y]> (rev (y :: rl) ++ x :: acc ++ rest)))
    with (rev rl ++ x :: (y :: acc) ++ rest); [apply IH |].
  simpl. rewrite <- app_assoc. simpl.
  rewrite <- (length_rev rl).
  replace (S (length (rev rl))) with (length (rev rl) + 1) by lia.
  rewrite insert_app_r. simpl.
  replace (length (rev rl)) with (length (rev rl) + 0) at 1 by lia.
  now rewrite insert_app_r.
Qed.

#[local] Instance notEarlier_trans : Transitive notEarlier.
Proof. unfold notEarlier. intros p q r. lia. Qed.

Lemma shift_sorted (x : Post) (pre : Posts) :
  descending pre ->
  descending (rev (fst (shift x (rev pre) [])) ++ x :: snd (shift x (rev pre) [])).
Proof.
  intros Hpre.
  assert (Hgen : forall rl acc,
             descending (rev rl ++ acc) ->
             Forall (notEarlier x) acc ->
             descending (rev (fst (shift x rl acc)) ++ x :: snd (shift x rl acc))).
  { induction rl as [|y rl IH]; intros acc Hs Hacc; simpl.
    - now constructor.
    - destruct (Time.After (Date x) (Date y)) eqn:E.
      + apply IH.
        * simpl in Hs. now rewrite <- app_assoc in Hs.
        * constructor; [| exact Hacc]. unfold notEarlier.
          unfold Time.After in E. lia.
      + simpl in *. rewrite <- app_assoc in *. simpl in *.
        apply StronglySorted_app in Hs as (Hcross & Hl & Hr).
        apply StronglySorted_app. split; [| split; [exact Hl |]].
        * intros p q Hp Hq. apply elem_of_cons in Hq as [-> | Hq].
          -- apply Hcross; [exact Hp | left].
          -- apply elem_of_cons in Hq as [-> | Hq].
             ++ assert (notEarlier y x)
                  by (unfold notEarlier; unfold Time.After in E; lia).
                transitivity y; [| assumption]. apply Hcross; [exact Hp | left].
             ++ apply Hcross; [exact Hp | now right].
        * apply StronglySorted_cons in Hr as (Hy & Hr).
          constructor.
          -- constructor; [exact Hr | exact Hacc].
          -- constructor; [| exact Hy].
             unfold notEarlier; unfold Time.After in E; lia. }
  apply Hgen; [| constructor].
  now rewrite rev_involutive, app_nil_r.
Qed.

Lemma insertionSort_outer_sorts (rest pre : Posts) :
  descending pre ->
  exists out,
    insertionSort_outer (length rest) (pre ++ rest) 0 (length pre) = Some out
    /\ descending out /\ out ≡ₚ pre ++ rest.
Proof.
  revert pre. induction rest as [|x rest IH]; intros pre Hpre.
  - exists pre. simpl. rewrite app_nil_r. auto.
  - cbn [length insertionSort_outer].
    pose proof (insertionSort_inner_shift (rev pre) [] rest x) as E.
    rewrite rev_involutive, length_rev in E. simpl in E. rewrite E.
    set (pre' := rev (fst (shift x (rev pre) [])) ++ x :: snd (shift x (rev pre) [])).
    assert (Hlen : length pre' = S (length pre)).
    { unfold pre'. rewrite length_app. simpl.
      pose proof (shift_length x (rev pre) []) as L.
      rewrite !length_rev in *. simpl in L. lia. }
    assert (Hperm : pre' ≡ₚ pre ++ [x]).
    { unfold pre'. rewrite <- Permutation_middle.
      rewrite shift_app, rev_involutive, app_nil_r.
      apply Permutation_cons_append. }
    destruct (IH pre' (shift_sorted x pre Hpre)) as (out & Hout & Hs & Hp).
    exists out. split; [| split; [exact Hs |]].
    + rewrite <- Hlen. rewrite <- Hout. f_equal.
      unfold pre'. now rewrite <- app_assoc.
    + rewrite Hp, Hperm. now rewrite <- app_assoc.
Qed.

Lemma insertionSort_sorts (posts : Posts) :
  exists out, insertionSort posts 0 (Len posts) = Some out
              /\ descending out /\ out ≡ₚ posts.
Proof.
  destruct posts as [|x rest].
  - exists []. repeat split; constructor.
  - unfold insertionSort. cbn [Len Posts_Interface Posts_Len length].
    replace (S (length rest) - (0 + 1)) with (length rest) by lia.
    apply (insertionSort_outer_sorts rest [x]).
    repeat constructor.
Qed.

Lemma descending_lookup (posts : Posts) (i j : nat) (p q : Post) :
  descending posts -> i < j -> posts !! i = Some p -> posts !! j = Some q ->
  notEarlier p q.
Proof.
  intros Hs. revert i j. induction Hs as [|a l Hs IH Ha]; intros i j Hij Hi Hj.
  - discriminate.
  - destruct j as [|j]; [lia |]. destruct i as [|i]; simpl in *.
    + injection Hi as <-. rewrite Forall_forall in Ha. apply Ha.
      eapply list_elem_of_lookup_2. exact Hj.
    + apply (IH i j); [lia | assumption..].
Qed.

Lemma lookup_descending (posts : Posts) :
  (forall i j p q, i < j -> posts !! i = Some p -> posts !! j = Some q ->
                   notEarlier p q) ->
  descending posts.
Proof.
  induction posts as [|a l IH]; intros Hall; [constructor |].
  constructor.
  - apply IH. intros i j p q Hij Hi Hj. apply (Hall (S i) (S j)); [lia | assumption..].
  - apply Forall_forall. intros q Hq.
    apply list_elem_of_lookup in Hq as (j & Hj).
    apply (Hall 0 (S j)); [lia | reflexivity | exact Hj].
Qed.

#[export] Instance Demo_SortContract : @SortContract Demo.runtime.
Proof.
  split.
  - intros posts. cbn [Sort Demo.runtime]. unfold Demo.Sort.
    destruct (insertionSort_sorts posts) as (out & -> & _ & Hp). exact Hp.
  - intros posts i j Hij Hj. cbn [Sort Demo.runtime] in *. unfold Demo.Sort in *.
    destruct (insertionSort_sorts posts) as (out & E & Hs & _).
    rewrite E in *. cbn [Len Less Posts_Interface] in *.
    unfold Posts_Len in Hj. unfold Posts_Less.
    destruct (lookup_lt_is_Some_2 out j Hj) as (q & Hq).
    destruct (lookup_lt_is_Some_2 out i ltac:(lia)) as (p & Hp).
    rewrite Hq, Hp. f_equal.
    pose proof (descending_lookup out i j p q Hs Hij Hp Hq) as Hpq.
    unfold notEarlier in Hpq. unfold Time.After. lia.
Qed.

Section Sorted.

Context `{SortContract}.

Lemma Sort_descending (posts : Posts) : descending (Sort posts).
Proof.
  apply lookup_descending. intros i j p q Hij Hi Hj.
  pose proof (Sort_sorted posts i j Hij) as E.
  cbn [Len Less Posts_Interface] in E. unfold Posts_Len, Posts_Less in E.
  rewrite Hi, Hj in E.
  specialize (E (lookup_lt_Some _ _ _ Hj)).
  injection E as E. unfold Time.After in E. unfold notEarlier. lia.
Qed.

End Sorted.

(** ** Steps of a run *)

Lemma preserves_ret {A} (P : World -> Prop) (a : A) : preserves P (ret a).
Proof. intros w Hw. exact Hw. Qed.

Lemma preserves_bind {A B} (P : World -> Prop) (m : M A) (k : A -> M B) :
  preserves P m -> (forall a, preserves P (k a)) -> preserves P (m ≫= k).
Proof.
  intros Hm Hk w Hw. unfold mbind, M_bind, bind.
  specialize (Hm w Hw). destruct (m w) as [a w']. now apply Hk.
Qed.

Ltac preserves_step :=
  first [ apply preserves_ret
        | apply preserves_bind; [| intros ?]
        | match goal with
          | |- preserves _ (match ?x with _ => _ end) => destruct x
          | |- preserves _ (let '(_, _) := ?x in _) => destruct x
          end ].

Section Renderings.

Context `{SortContract}.

Lemma timeNow_renderings : preserves sortedRenderings timeNow.
Proof. intros w Hw. exact Hw. Qed.

Lemma parseDate_renderings (name : string) :
  preserves sortedRenderings (parseDate name).
Proof.
  intros w Hw. unfold sortedRenderings.
  now destruct (parseDate_preserves name w) as (_ & _ & ->).
Qed.

Lemma ReadFile_renderings (path : string) :
  preserves sortedRenderings (ReadFile path).
Proof. intros w Hw. unfold ReadFile. now destruct (files w !! path). Qed.

Lemma WriteFile_renderings (path data : string) :
  preserves sortedRenderings (WriteFile path data).
Proof.
  intros w Hw. unfold WriteFile.
  destruct (writable path); [| exact Hw]. now destruct (shortWrite path data).
Qed.

Lemma Rename_renderings (old new : string) :
  preserves sortedRenderings (Rename old new).
Proof.
  intros w Hw. unfold Rename.
  destruct (files w !! old); [| exact Hw]. now destruct (writable new).
Qed.

Lemma getConfig_renderings : preserves sortedRenderings getConfig.
Proof. intros w Hw. exact Hw. Qed.

Lemma setConfig_renderings (c : Config) : preserves sortedRenderings (setConfig c).
Proof. intros w Hw. exact Hw. Qed.

Lemma listSrcFiles_renderings : preserves sortedRenderings listSrcFiles.
Proof. intros w Hw. exact Hw. Qed.

Lemma renderTemplate_renderings (tmplPath : string) (data : tmplData) :
  sortedData data -> preserves sortedRenderings (renderTemplate tmplPath data).
Proof.
  intros Hdata. unfold renderTemplate.
  apply preserves_bind.
  - intros w Hw. unfold sortedRenderings, noteRender. simpl.
    apply Forall_app. split; [exact Hw |]. now constructor.
  - intros _. apply preserves_bind; [apply ReadFile_renderings |].
    intros r. repeat preserves_step.
Qed.

Lemma readConfig_renderings : preserves sortedRenderings readConfig.
Proof.
  unfold readConfig. apply preserves_bind; [apply ReadFile_renderings |].
  intros [file | err]; [| apply preserves_ret].
  apply preserves_bind; [apply getConfig_renderings |]. intros c.
  destruct (jsonUnmarshal file c) as [c' err].
  apply preserves_bind; [apply setConfig_renderings |]. intros _. apply preserves_ret.
Qed.

Lemma parseSourceFile_renderings (srcFilePath : string) :
  preserves sortedRenderings (parseSourceFile srcFilePath).
Proof.
  unfold parseSourceFile. apply preserves_bind; [apply parseDate_renderings |].
  intros [d e]. apply preserves_bind; [apply ReadFile_renderings |].
  intros [data | err]; apply preserves_ret.
Qed.

Lemma writePost_renderings (mdPath : string) :
  preserves sortedRenderings (writePost mdPath).
Proof.
  unfold writePost. apply preserves_bind; [apply parseSourceFile_renderings |].
  intros [post | err]; [| apply preserves_ret].
  apply preserves_bind; [apply getConfig_renderings |]. intros c.
  apply preserves_bind; [now apply renderTemplate_renderings |].
  intros [out | err]; [| apply preserves_ret].
  apply preserves_bind; [apply WriteFile_renderings |].
  intros [err |]; apply preserves_ret.
Qed.

Lemma writePosts_renderings (srcFiles : list string) (i : nat) (posts : Posts) :
  preserves sortedRenderings (writePosts i srcFiles posts).
Proof.
  revert i posts. induction srcFiles as [|src srcFiles IH]; intros i posts.
  - apply preserves_ret.
  - cbn [writePosts]. apply preserves_bind; [apply writePost_renderings |].
    intros [post | err]; apply IH.
Qed.

Lemma writeIndex_renderings (posts : Posts) :
  preserves sortedRenderings (writeIndex posts).
Proof.
  unfold writeIndex. cbv zeta.
  apply preserves_bind; [apply getConfig_renderings |]. intros c.
  apply preserves_bind;
    [apply renderTemplate_renderings; apply Sort_descending |].
  intros [out | err]; [| apply preserves_ret].
  apply preserves_bind; [now apply renderTemplate_renderings |].
  intros [out' | err]; [| apply preserves_ret].
  apply preserves_bind; [apply WriteFile_renderings |].
  intros err. apply preserves_ret.
Qed.

Lemma writeFeed_renderings (posts : Posts) :
  preserves sortedRenderings (writeFeed posts).
Proof.
  unfold writeFeed. cbv zeta.
  apply preserves_bind; [apply getConfig_renderings |]. intros c.
  apply preserves_bind;
    [apply renderTemplate_renderings; apply Sort_descending |].
  intros [out | err]; [| apply preserves_ret].
  apply preserves_bind; [apply WriteFile_renderings |].
  intros err. apply preserves_ret.
Qed.

Lemma prepareFile_renderings (srcFile : string) :
  preserves sortedRenderings (prepareFile srcFile).
Proof.
  unfold prepareFile. cbv zeta.
  apply preserves_bind; [apply parseDate_renderings |].
  intros [date [err |]]; [| apply preserves_ret].
  apply preserves_bind; [apply getConfig_renderings |]. intros c.
  apply preserves_bind; [apply Rename_renderings |]. intros _. apply preserves_ret.
Qed.

Lemma prepare_renderings : preserves sortedRenderings prepare.
Proof.
  unfold prepare. apply preserves_bind; [apply listSrcFiles_renderings |].
  intros [srcFiles | err]; [| apply preserves_ret].
  apply preserves_bind; [| intros _; apply preserves_ret].
  induction srcFiles as [|src srcFiles IH]; [apply preserves_ret |].
  cbn [prepareLoop]. apply preserves_bind; [apply prepareFile_renderings |].
  intros _. exact IH.
Qed.

Lemma main_renderings : preserves sortedRenderings main.
Proof.
  unfold main. apply preserves_bind; [apply readConfig_renderings |].
  intros [err |]; [apply preserves_ret |].
  apply preserves_bind; [apply prepare_renderings |].
  intros [err |]; [apply preserves_ret |].
  apply preserves_bind; [apply listSrcFiles_renderings |].
  intros [srcFiles | err]; [| apply preserves_ret].
  apply preserves_bind; [apply writePosts_renderings |]. intros posts.
  apply preserves_bind; [apply writeIndex_renderings |]. intros [posts1 e1].
  apply preserves_bind; [apply writeFeed_renderings |]. intros [posts2 e2].
  apply preserves_ret.
Qed.

End Renderings.

(** ** The order of the rendered posts *)

Lemma descending_head_max (a : Post) (l : Posts) (x : Post) :
  descending (a :: l) -> x ∈ a :: l -> notEarlier a x.
Proof.
  intros Hs Hx. apply StronglySorted_cons in Hs as (Ha & _).
  apply elem_of_cons in Hx as [-> | Hx].
  - unfold notEarlier. lia.
  - rewrite Forall_forall in Ha. now apply Ha.
Qed.

Lemma descending_unique (l1 l2 : Posts) :
  descending l1 -> strictlyDescending l2 -> l1 ≡ₚ l2 -> l1 = l2.
Proof.
  intros H1 H2. revert l1 H1.
  induction H2 as [|a l2 H2 IH Ha]; intros l1 H1 Hp.
  - now apply Permutation_nil_r in Hp.
  - destruct l1 as [|b l1]; [now apply Permutation_nil_cons in Hp |].
    assert (Hb : b ∈ a :: l2) by (rewrite <- Hp; left).
    assert (Hab : notEarlier b a).
    { apply (descending_head_max b l1); [exact H1 | rewrite Hp; left]. }
    assert (b = a) as ->.
    { apply elem_of_cons in Hb as [-> | Hb]; [reflexivity |].
      rewrite Forall_forall in Ha. specialize (Ha b Hb).
      unfold notEarlier in Hab. lia. }
    f_equal. apply IH.
    + now apply StronglySorted_cons in H1 as (_ & H1).
    + now apply Permutation_cons_inv in Hp.
Qed.

Section Order.

Context `{SortContract}.

Lemma renderTemplate_noted (tmplPath : string) (data : tmplData) (w : World) :
  snd (renderTemplate tmplPath data w) = noted tmplPath data w.
Proof.
  unfold renderTemplate, mbind, M_bind, bind, noteRender, ReadFile. simpl.
  destruct (files w !! tmplPath) as [text |]; [| reflexivity].
  now destruct (tmplParse tmplPath text).
Qed.

Lemma WriteFile_rendered (path data : string) (w : World) :
  rendered (snd (WriteFile path data w)) = rendered w
  /\ config (snd (WriteFile path data w)) = config w.
Proof.
  unfold WriteFile. destruct (writable path); [| now split].
  now destruct (shortWrite path data).
Qed.

Lemma writeIndex_posts (posts : Posts) (w : World) :
  fst (fst (writeIndex posts w)) = Sort posts
  /\ exists tail,
       rendered (snd (writeIndex posts w))
       = rendered w
         ++ (Filepath.Join (TemplateDir (config w)) "recent.html",
             DataPosts (Sort posts)) :: tail.
Proof.
  unfold writeIndex, mbind, M_bind, bind, getConfig, writeOutputFile. cbv zeta.
  destruct (renderTemplate _ (DataPosts _) w) as [r w1] eqn:E1.
  assert (Hw1 : w1 = noted (Filepath.Join (TemplateDir (config w)) "recent.html")
                       (DataPosts (Sort posts)) w).
  { now rewrite <- renderTemplate_noted, E1. }
  destruct r as [out | err]; [| simpl; subst w1; split; [reflexivity | now exists []]].
  destruct (renderTemplate _ (DataPage _ _) w1) as [r w2] eqn:E2.
  assert (Hw2 : w2 = noted (Filepath.Join (TemplateDir (config w)) "main.html")
                       (DataPage "my page" out) w1).
  { now rewrite <- renderTemplate_noted, E2. }
  destruct r as [out' | err]; simpl.
  - destruct (WriteFile _ out' w2) as [err w3] eqn:E3. simpl.
    split; [reflexivity |].
    pose proof (WriteFile_rendered (Filepath.Join (OutputDir (config w)) "index.html")
                  out' w2) as (Hr & _).
    rewrite E3 in Hr. simpl in Hr. rewrite Hr. subst w2 w1. simpl.
    rewrite <- app_assoc. simpl. eauto.
  - split; [reflexivity |]. subst w2 w1. simpl. rewrite <- app_assoc. simpl. eauto.
Qed.

Lemma writeFeed_posts (posts : Posts) (w : World) :
  fst (fst (writeFeed posts w)) = Sort posts
  /\ rendered (snd (writeFeed posts w))
     = rendered w
       ++ [(Filepath.Join (TemplateDir (config w)) "feed.html", DataPosts (Sort posts))].
Proof.
  unfold writeFeed, mbind, M_bind, bind, getConfig, writeOutputFile. cbv zeta.
  destruct (renderTemplate _ (DataPosts _) w) as [r w1] eqn:E1.
  assert (Hw1 : w1 = noted (Filepath.Join (TemplateDir (config w)) "feed.html")
                       (DataPosts (Sort posts)) w).
  { now rewrite <- renderTemplate_noted, E1. }
  destruct r as [out | err]; [| simpl; subst w1; split; reflexivity].
  destruct (WriteFile _ out w1) as [err w2] eqn:E2. simpl.
  split; [reflexivity |].
  pose proof (WriteFile_rendered (Filepath.Join (OutputDir (config w)) "feed.html")
                out w1) as (Hr & _).
  rewrite E2 in Hr. simpl in Hr. rewrite Hr. now subst w1.
Qed.

Lemma run_renderings (fs : gmap string string) (t : nat) :
  sortedRenderings (snd (run fs t)).
Proof. apply main_renderings. constructor. Qed.

(** C6. [writeIndex] and [writeFeed] sort the posts and hand the sorted
    collection to the template; in a run every collection a template
    receives is in descending order of date: each post has a date not
    earlier than the post that follows it.  The sorted collection is a
    rearrangement of the posts, and posts with the dates 2020-01-01,
    2022-06-15, 2021-03-03 come out in the order 2022-06-15, 2021-03-03,
    2020-01-01. *)
Theorem posts_sorted_descending_before_rendering :
  (forall (posts : Posts) (w : World),
      (exists tail,
          rendered (snd (writeIndex posts w))
          = rendered w ++ (Filepath.Join (TemplateDir (config w)) "recent.html",
                           DataPosts (Sort posts)) :: tail)
      /\ rendered (snd (writeFeed posts w))
         = rendered w ++ [(Filepath.Join (TemplateDir (config w)) "feed.html",
                           DataPosts (Sort posts))])
  /\ (forall (fs : gmap string string) (t : nat) (tmplPath : string) (posts : Posts),
         (tmplPath, DataPosts posts) ∈ rendered (snd (run fs t)) ->
         forall i p q, posts !! i = Some p -> posts !! S i = Some q ->
                       Time.After (Date q) (Date p) = false)
  /\ (forall posts : Posts, Sort posts ≡ₚ posts)
  /\ (forall p1 p2 p3 : Post,
         Date p1 = Time.Date 2020 1 1 ->
         Date p2 = Time.Date 2022 6 15 ->
         Date p3 = Time.Date 2021 3 3 ->
         Sort [p1; p2; p3] = [p2; p3; p1]).
Proof.
  split; [| split; [| split]].
  - intros posts w. split; [apply writeIndex_posts | apply writeFeed_posts].
  - intros fs t tmplPath posts Hin i p q Hp Hq.
    pose proof (run_renderings fs t) as Hs. unfold sortedRenderings in Hs.
    rewrite Forall_forall in Hs. specialize (Hs _ Hin). simpl in Hs.
    pose proof (descending_lookup posts i (S i) p q Hs ltac:(lia) Hp Hq) as Hpq.
    unfold notEarlier in Hpq. unfold Time.After. lia.
  - apply Sort_permutation.
  - intros p1 p2 p3 H1 H2 H3. apply descending_unique.
    + apply Sort_descending.
    + unfold strictlyDescending.
      repeat constructor; rewrite ?H1, ?H2, ?H3; reflexivity.
    + rewrite Sort_permutation.
      apply (Permutation_cons_append [p2; p3] p1).
Qed.

End Order.

Lemma posts_sorted_descending_before_rendering_witness :
  Demo.Sort [post2020; post2022; post2021] = [post2022; post2021; post2020].
Proof.
  exact (proj2 (proj2 (proj2
           (@posts_sorted_descending_before_rendering Demo.runtime Demo_SortContract)))
           post2020 post2022 post2021 eq_refl eq_refl eq_refl).
Defined.

(** ** The slots of the collection *)

Section Slots.

Context `{SortContract}.

Lemma outcomes_length (srcFiles : list string) (w : World) :
  length (fst (outcomes srcFiles w)) = length srcFiles.
Proof.
  revert w. induction srcFiles as [|src srcFiles IH]; intros w; [reflexivity |].
  cbn [outcomes]. unfold mbind, M_bind, bind.
  destruct (writePost src w) as [r w1].
  specialize (IH w1). destruct (outcomes srcFiles w1) as [rs w2].
  simpl in *. now rewrite IH.
Qed.

Lemma outcomes_app (before after : list string) (w : World) :
  outcomes (before ++ after) w
  = (fst (outcomes before w) ++ fst (outcomes after (snd (outcomes before w))),
     snd (outcomes after (snd (outcomes before w)))).
Proof.
  revert w. induction before as [|src before IH]; intros w.
  - simpl. now destruct (outcomes after w).
  - cbn [outcomes app]. unfold mbind, M_bind, bind.
    destruct (writePost src w) as [r w1]. rewrite IH.
    destruct (outcomes before w1) as [rs w2]. reflexivity.
Qed.

Lemma insert_middle {A} (pre suf : list A) (x y : A) :
  <[length pre := y]> (pre ++ x :: suf) = pre ++ y :: suf.
Proof. induction pre as [|a pre IH]; simpl; [reflexivity | now rewrite IH]. Qed.

Lemma writePosts_outcomes (srcFiles : list string) (pre suf : Posts) (w : World) :
  writePosts (length pre) srcFiles
    (pre ++ replicate (length srcFiles) zeroPost ++ suf) w
  = (pre ++ map slot (fst (outcomes srcFiles w)) ++ suf, snd (outcomes srcFiles w)).
Proof.
  revert pre w. induction srcFiles as [|src srcFiles IH]; intros pre w; [reflexivity |].
  cbn [writePosts outcomes length replicate]. unfold mbind, M_bind, bind.
  destruct (writePost src w) as [[post | err] w1].
  - replace (<[length pre:=post]> (pre ++ (zeroPost :: replicate (length srcFiles) zeroPost) ++ suf))
      with ((pre ++ [post]) ++ replicate (length srcFiles) zeroPost ++ suf).
    + replace (S (length pre)) with (length (pre ++ [post]))
        by (rewrite length_app; simpl; lia).
      rewrite IH. destruct (outcomes srcFiles w1) as [rs w2]. simpl.
      now rewrite <- app_assoc.
    + simpl. rewrite insert_middle. now rewrite <- app_assoc.
  - replace (pre ++ (zeroPost :: replicate (length srcFiles) zeroPost) ++ suf)
      with ((pre ++ [zeroPost]) ++ replicate (length srcFiles) zeroPost ++ suf)
      by (now rewrite <- app_assoc).
    replace (S (length pre)) with (length (pre ++ [zeroPost]))
      by (rewrite length_app; simpl; lia).
    rewrite IH. destruct (outcomes srcFiles w1) as [rs w2]. simpl.
    now rewrite <- app_assoc.
Qed.

End Slots.

(** ** Failed slots in the sorted collection *)


Section FailedSlots.

Context `{SortContract}.


End FailedSlots.


(** ** Running the program again *)

Section Replay.

Context `{Runtime}.

Variable cfg : Config.
Variable ins : string -> Prop.

Lemma replays_ret {A} (a : A) : replays cfg ins (ret a).
Proof.
  intros w1 w2 (H1 & H2 & _). exists ∅.
  simpl. now rewrite !(left_id_L ∅ (∪)).
Qed.

Lemma replays_bind {A B} (m : M A) (k : A -> M B) :
  replays cfg ins m -> (forall a, replays cfg ins (k a)) ->
  replays cfg ins (m ≫= k).
Proof.
  intros Hm Hk w1 w2 Hagree. unfold mbind, M_bind, bind.
  destruct (Hm w1 w2 Hagree) as (W1 & Ha & Hf1 & Hf2 & Hc1 & Hc2).
  destruct (m w1) as [a w1'], (m w2) as [a' w2']. simpl in *. subst a'.
  destruct (Hk a w1' w2') as (W2 & Hb & Hg1 & Hg2 & Hd1 & Hd2).
  { split; [exact Hc1 |]. split; [exact Hc2 |]. intros path Hpath.
    destruct Hagree as (_ & _ & Hfiles).
    rewrite Hf1, Hf2, !lookup_union, (Hfiles path Hpath). reflexivity. }
  exists (W2 ∪ W1). split; [exact Hb |].
  rewrite Hg1, Hg2, Hf1, Hf2, !(assoc_L (∪)). auto.
Qed.

Lemma replays_getConfig {B} (k : Config -> M B) :
  replays cfg ins (k cfg) -> replays cfg ins (getConfig ≫= k).
Proof.
  intros Hk w1 w2 Hagree. unfold mbind, M_bind, bind, getConfig.
  destruct Hagree as (H1 & H2 & Hfiles). rewrite H1, H2.
  apply Hk. now split.
Qed.

Lemma replays_ReadFile (path : string) :
  ins path -> replays cfg ins (ReadFile path).
Proof.
  intros Hpath w1 w2 (H1 & H2 & Hfiles). exists ∅. unfold ReadFile.
  rewrite (Hfiles path Hpath).
  destruct (files w2 !! path); simpl; now rewrite !(left_id_L ∅ (∪)).
Qed.

Lemma replays_WriteFile (path data : string) :
  replays cfg ins (WriteFile path data).
Proof.
  intros w1 w2 (H1 & H2 & _). unfold WriteFile.
  destruct (writable path); [destruct (shortWrite path data) as [n |] |].
  - exists {[path := String.substring 0 n data]}. simpl.
    now rewrite !insert_union_singleton_l.
  - exists {[path := data]}. simpl. now rewrite !insert_union_singleton_l.
  - exists ∅. simpl. now rewrite !(left_id_L ∅ (∪)).
Qed.

Lemma replays_noteRender (path : string) (data : tmplData) :
  replays cfg ins (noteRender path data).
Proof.
  intros w1 w2 (H1 & H2 & _). exists ∅. simpl. now rewrite !(left_id_L ∅ (∪)).
Qed.

Lemma replays_renderTemplate (tmplPath : string) (data : tmplData) :
  ins tmplPath -> replays cfg ins (renderTemplate tmplPath data).
Proof.
  intros Hpath. unfold renderTemplate.
  apply replays_bind; [apply replays_noteRender |]. intros _.
  apply replays_bind; [now apply replays_ReadFile |].
  intros [text | err]; [| apply replays_ret].
  destruct (tmplParse tmplPath text); apply replays_ret.
Qed.

Lemma parseDate_prefixed (name : string) :
  (exists y m d rest, validDate y m d /\ name = dateString y m d +:+ rest) ->
  exists date, forall w, parseDate name w = ((date, None), w).
Proof.
  intros (y & m & d & rest & Hvalid & ->). exists (Time.Date y m d). intros w.
  rewrite parseDate_eq. cbv zeta. unfold Regexp.FindString.
  rewrite (find_here _ _ rest) by now apply matchHere_dateString.
  rewrite takeBytes_app, length_dateString. cbn [Nat.eqb].
  now rewrite Parse_dateString.
Qed.

Lemma replays_parseDate (name : string) :
  (exists y m d rest, validDate y m d /\ name = dateString y m d +:+ rest) ->
  replays cfg ins (parseDate name).
Proof.
  intros Hname w1 w2 (H1 & H2 & _). exists ∅.
  destruct (parseDate_prefixed name Hname) as (date & E).
  rewrite !E. simpl. now rewrite !(left_id_L ∅ (∪)).
Qed.

Lemma replays_parseSourceFile (srcFile : string) :
  ins srcFile -> datePrefixed srcFile ->
  replays cfg ins (parseSourceFile srcFile).
Proof.
  intros Hin Hdate. unfold parseSourceFile. cbv zeta.
  apply replays_bind; [now apply replays_parseDate |]. intros [d e].
  apply replays_bind; [now apply replays_ReadFile |].
  intros [data | err]; apply replays_ret.
Qed.

Hypothesis ins_main : ins (Filepath.Join (TemplateDir cfg) "main.html").
Hypothesis ins_recent : ins (Filepath.Join (TemplateDir cfg) "recent.html").
Hypothesis ins_feed : ins (Filepath.Join (TemplateDir cfg) "feed.html").

Lemma replays_writePost (srcFile : string) :
  ins srcFile -> datePrefixed srcFile -> replays cfg ins (writePost srcFile).
Proof.
  intros Hin Hdate. unfold writePost.
  apply replays_bind; [now apply replays_parseSourceFile |].
  intros [post | err]; [| apply replays_ret].
  apply replays_getConfig. cbv zeta.
  apply replays_bind; [now apply replays_renderTemplate |].
  intros [out | err]; [| apply replays_ret].
  apply replays_bind; [apply replays_WriteFile |].
  intros [err |]; apply replays_ret.
Qed.

Lemma replays_writePosts (srcFiles : list string) (i : nat) (posts : Posts) :
  Forall (fun src => ins src /\ datePrefixed src) srcFiles ->
  replays cfg ins (writePosts i srcFiles posts).
Proof.
  intros Hall. revert i posts.
  induction Hall as [|src srcFiles (Hin & Hdate) _ IH]; intros i posts.
  - apply replays_ret.
  - cbn [writePosts]. apply replays_bind; [now apply replays_writePost |].
    intros [post | err]; apply IH.
Qed.

Lemma replays_writeIndex (posts : Posts) : replays cfg ins (writeIndex posts).
Proof.
  unfold writeIndex. cbv zeta. apply replays_getConfig.
  apply replays_bind; [now apply replays_renderTemplate |].
  intros [out | err]; [| apply replays_ret].
  apply replays_bind; [now apply replays_renderTemplate |].
  intros [out' | err]; [| apply replays_ret].
  apply replays_bind; [apply replays_WriteFile |]. intros err. apply replays_ret.
Qed.

Lemma replays_writeFeed (posts : Posts) : replays cfg ins (writeFeed posts).
Proof.
  unfold writeFeed. cbv zeta. apply replays_getConfig.
  apply replays_bind; [now apply replays_renderTemplate |].
  intros [out | err]; [| apply replays_ret].
  apply replays_bind; [apply replays_WriteFile |]. intros err. apply replays_ret.
Qed.

Lemma replays_publish (srcFiles : list string) :
  Forall (fun src => ins src /\ datePrefixed src) srcFiles ->
  replays cfg ins (publish srcFiles).
Proof.
  intros Hall. unfold publish. cbv zeta.
  apply replays_bind; [now apply replays_writePosts |]. intros posts.
  apply replays_bind; [apply replays_writeIndex |]. intros [posts1 e1].
  apply replays_bind; [apply replays_writeFeed |]. intros [posts2 e2].
  apply replays_ret.
Qed.

End Replay.

Section Again.

Context `{Runtime}.

Lemma readConfig_eq (w : World) :
  readConfig w =
    match files w !! "config.json" with
    | Some file =>
        (snd (jsonUnmarshal file (config w)),
         mkWorld (files w) (ticks w) (fst (jsonUnmarshal file (config w))) (rendered w))
    | None => (Some (PathError "open" "config.json"), w)
    end.
Proof.
  unfold readConfig, mbind, M_bind, bind, ReadFile, getConfig, setConfig.
  destruct (files w !! "config.json") as [file |]; [| reflexivity].
  now destruct (jsonUnmarshal file (config w)).
Qed.

Lemma prepareLoop_dated (srcFiles : list string) (w : World) :
  Forall datePrefixed srcFiles -> prepareLoop srcFiles w = (tt, w).
Proof.
  induction 1 as [|src srcFiles Hdate _ IH]; [reflexivity |].
  cbn [prepareLoop]. unfold prepareFile. unfold mbind, M_bind, bind. cbv zeta.
  destruct (parseDate_prefixed (trimPath src) Hdate) as (date & E).
  rewrite E. simpl. exact IH.
Qed.

Lemma main_dated (w : World) (srcFiles : list string) :
  fst (readConfig w) = None ->
  Glob (files w) (SourceDir (config (snd (readConfig w))) +:+ "/*.md") = inl srcFiles ->
  Forall datePrefixed srcFiles ->
  main w = publish srcFiles (snd (readConfig w))
  /\ prepare (snd (readConfig w)) = (None, snd (readConfig w))
  /\ files (snd (readConfig w)) = files w.
Proof.
  intros Hcfg Hglob Hdated.
  assert (Hfiles : files (snd (readConfig w)) = files w).
  { rewrite readConfig_eq. now destruct (files w !! "config.json"). }
  assert (Hprep : prepare (snd (readConfig w)) = (None, snd (readConfig w))).
  { unfold prepare, mbind, M_bind, bind, listSrcFiles.
    rewrite Hfiles, Hglob. now rewrite prepareLoop_dated. }
  split; [| split; assumption].
  unfold main. unfold mbind at 1, M_bind at 1, bind at 1.
  destruct (readConfig w) as [err w1]. simpl in *. subst err.
  unfold mbind at 1, M_bind at 1, bind at 1. rewrite Hprep.
  unfold mbind at 1, M_bind at 1, bind at 1. unfold listSrcFiles.
  rewrite Hfiles, Hglob. reflexivity.
Qed.

(** C8 (amended). When a run has left the files it reads as they were
    (the configuration file, the listing of the source directory, the
    source files and the three templates), and the name of every source
    file begins with a date, a second run renames nothing and leaves every
    file as the first run left it: all the output files are byte for byte
    the same. *)
Theorem second_run_same_output (fs0 : gmap string string) (t0 t1 : nat)
    (cfg : Config) (srcFiles : list string) :
  let fs1 := files (snd (run fs0 t0)) in
  readConfig (startWorld fs0 t0) = (None, mkWorld fs0 t0 cfg []) ->
  Glob fs0 (SourceDir cfg +:+ "/*.md") = inl srcFiles ->
  Forall datePrefixed srcFiles ->
  fs1 !! "config.json" = fs0 !! "config.json" ->
  Glob fs1 (SourceDir cfg +:+ "/*.md") = inl srcFiles ->
  Forall (fun path => fs1 !! path = fs0 !! path) (inputs cfg srcFiles) ->
  files (snd (run fs1 t1)) = fs1
  /\ fst (run fs1 t1) = fst (run fs0 t0)
  /\ files (snd (prepare (snd (readConfig (startWorld fs1 t1))))) = fs1.
Proof.
  intros fs1 Hcfg Hglob Hdated Hsame_cfg Hsame_glob Hsame.
  assert (Hcfg1 : readConfig (startWorld fs1 t1) = (None, mkWorld fs1 t1 cfg [])).
  { rewrite readConfig_eq in *. simpl in *. rewrite Hsame_cfg.
    destruct (fs0 !! "config.json") as [file |]; [| discriminate Hcfg].
    injection Hcfg as E1 E2. now rewrite E1, E2. }
  destruct (main_dated (startWorld fs0 t0) srcFiles) as (Hrun0 & _ & _);
    [now rewrite Hcfg | now rewrite Hcfg | exact Hdated |].
  destruct (main_dated (startWorld fs1 t1) srcFiles) as (Hrun1 & Hprep1 & _);
    [now rewrite Hcfg1 | now rewrite Hcfg1 | exact Hdated |].
  rewrite Hcfg in Hrun0. rewrite Hcfg1 in Hrun1, Hprep1. simpl in Hrun0, Hrun1, Hprep1.
  rewrite Hcfg1. simpl. rewrite Hprep1. simpl.
  set (ins := fun path => path ∈ inputs cfg srcFiles).
  destruct (replays_publish cfg ins) with (srcFiles := srcFiles)
      (w1 := mkWorld fs0 t0 cfg []) (w2 := mkWorld fs1 t1 cfg [])
    as (W & Hret & Hf0 & Hf1 & _).
  - unfold ins, inputs. apply elem_of_app. right. simpl. left.
  - unfold ins, inputs. apply elem_of_app. right. simpl. right. left.
  - unfold ins, inputs. apply elem_of_app. right. simpl. right. right. left.
  - rewrite Forall_forall in *. intros src Hsrc. split; [| now apply Hdated].
    unfold ins, inputs. apply elem_of_app. now left.
  - split; [reflexivity |]. split; [reflexivity |]. simpl.
    intros path Hpath. symmetry. rewrite Forall_forall in Hsame. now apply Hsame.
  - unfold run. fold (startWorld fs1 t1). fold (startWorld fs0 t0).
    rewrite Hrun1, Hrun0. simpl in Hf0, Hf1.
    assert (Hfs1 : fs1 = W ∪ fs0).
    { unfold fs1, run. fold (startWorld fs0 t0). now rewrite Hrun0. }
    split; [| split; [now symmetry | reflexivity]].
    rewrite Hf1, Hfs1. now rewrite (assoc_L (∪)), (idemp_L (∪)).
Qed.

End Again.

(** ** Examples of runs *)

Lemma parseDate_failure_returns_now_witness :
  exists err,
    parseDate (H := Demo.runtime) "cmd" siteWorld
    = ((Demo.clock 0, Some err), tick siteWorld).
Proof.
  destruct (parseDate_failure_returns_now (H := Demo.runtime) "cmd" siteWorld)
    as (err & E & _); [left; reflexivity |].
  exists err. exact E.
Defined.

Lemma datePrefixed_a : datePrefixed "src/2021-03-05-a.md".
Proof. exists 2021%Z, 3%Z, 5%Z, "-a". split; [unfold validDate; cbn; lia | reflexivity]. Qed.

Lemma datePrefixed_b : datePrefixed "src/2022-06-15-b.md".
Proof. exists 2022%Z, 6%Z, 15%Z, "-b". split; [unfold validDate; cbn; lia | reflexivity]. Qed.

Lemma second_run_same_output_witness :
  files (snd (run (H := Demo.runtime) (files (snd (run (H := Demo.runtime) fsDated 0))) 0))
  = files (snd (run (H := Demo.runtime) fsDated 0)).
Proof.
  refine (proj1 (second_run_same_output (H := Demo.runtime) fsDated 0 0
                   Demo.configSeparate
                   ["src/2021-03-05-a.md"; "src/2022-06-15-b.md"] _ _ _ _ _ _)).
  - vm_compute. reflexivity.
  - vm_compute. reflexivity.
  - repeat constructor; [apply datePrefixed_a | apply datePrefixed_b].
  - vm_compute. reflexivity.
  - vm_compute. reflexivity.
  - repeat constructor; vm_compute; reflexivity.
Defined.

(** C8 (as stated) fails when the output directory is the template
    directory: the first run replaces the template [feed.html] by its own
    output, and the second run executes that output as the template.  The
    source directory is the same before both runs and its one file is
    dated, yet the feed of the second run differs from the first. *)
Lemma second_run_shared_directory_counterexample :
  let fs1 := files (snd (run (H := Demo.runtime) fsShared 0)) in
  let fs2 := files (snd (run (H := Demo.runtime) fs1 0)) in
  Demo.Glob fsShared "src/*.md" = inl ["src/2021-03-05-a.md"]
  /\ Demo.Glob fs1 "src/*.md" = inl ["src/2021-03-05-a.md"]
  /\ datePrefixed "src/2021-03-05-a.md"
  /\ fs1 !! "src/2021-03-05-a.md" = fsShared !! "src/2021-03-05-a.md"
  /\ fs1 !! "config.json" = fsShared !! "config.json"
  /\ fs1 !! "out/feed.html" = Some "{{len .}}"
  /\ fs2 !! "out/feed.html" = Some "1"
  /\ fs2 <> fs1.
Proof.
  intros fs1 fs2.
  assert (H1 : fs1 !! "out/feed.html" = Some "{{len .}}") by (vm_compute; reflexivity).
  assert (H2 : fs2 !! "out/feed.html" = Some "1") by (vm_compute; reflexivity).
  repeat split; try (vm_compute; reflexivity); try assumption.
  - apply datePrefixed_a.
  - intros E. rewrite E, H1 in H2. discriminate H2.
Qed.

(** C3. The source file [src/cmd.md] has no date in its name.  On
    2024-05-17 [prepare] renames it to [src/2024-05-17-c.md]: the bytes
    [m] and [d] of the base name [cmd] are lost with the extension, where
    the name [src/2024-05-17-cmd.md] was intended. *)
Theorem prepare_truncates_base_name :
  let w := snd (prepare (H := Demo.runtime) siteWorld) in
  Time.Format_2006_01_02 (Demo.clock 0) = "2024-05-17"
  /\ Filepath.Base "src/cmd.md" = "cmd.md"
  /\ Filepath.Ext "src/cmd.md" = ".md"
  /\ trimPath "src/cmd.md" = "c"
  /\ files siteWorld !! "src/cmd.md" = Some "# Second"
  /\ files w !! "src/cmd.md" = None
  /\ files w !! "src/2024-05-17-c.md" = Some "# Second"
  /\ files w !! "src/2024-05-17-cmd.md" = None.
Proof. repeat split; vm_compute; reflexivity. Qed.

(** ** What the date pattern matches *)

Lemma matchK_Repeat (sub : Regexp.Regexp) (min max : nat) (s : string)
    (k : string -> option string) :
  Regexp.matchK (Regexp.Repeat sub min max) s k = requiredK sub k (max - min) min s.
Proof. reflexivity. Qed.

Lemma optionalK_digits (k : string -> option string) (n : nat) (s rest : string) :
  optionalK Regexp.Digit k n s = Some rest ->
  exists ds s', s = ds +:+ s' /\ String.length ds <= n
                /\ allDigits ds = true /\ k s' = Some rest.
Proof.
  revert s. induction n as [|n IH]; intros s E; simpl in E.
  - exists "", s. repeat split; auto.
  - destruct s as [|c s].
    + exists "", "". repeat split; auto. simpl. lia.
    + destruct (Regexp.isDigit c) eqn:D.
      * destruct (optionalK Regexp.Digit k n s) as [r |] eqn:E'.
        -- injection E as ->. destruct (IH s E') as (ds & s' & -> & Hl & Hd & Hk).
           exists (String c ds), s'. simpl. rewrite D, Hd. repeat split; auto. lia.
        -- exists "", (String c s). repeat split; auto. simpl. lia.
      * exists "", (String c s). repeat split; auto. simpl. lia.
Qed.

Lemma requiredK_digits (k : string -> option string) (extra n : nat) (s rest : string) :
  requiredK Regexp.Digit k extra n s = Some rest ->
  exists ds s', s = ds +:+ s' /\ n <= String.length ds <= n + extra
                /\ allDigits ds = true /\ k s' = Some rest.
Proof.
  revert s. induction n as [|n IH]; intros s E; simpl in E.
  - destruct (optionalK_digits k extra s rest E) as (ds & s' & -> & Hl & Hd & Hk).
    exists ds, s'. repeat split; auto; lia.
  - destruct s as [|c s]; [discriminate |].
    destruct (Regexp.isDigit c) eqn:D; [| discriminate].
    destruct (IH s E) as (ds & s' & -> & Hl & Hd & Hk).
    exists (String c ds), s'. simpl. rewrite D, Hd. repeat split; auto; lia.
Qed.

Lemma matchK_Concat (r1 r2 : Regexp.Regexp) (s : string) (k : string -> option string) :
  Regexp.matchK (Regexp.Concat r1 r2) s k
  = Regexp.matchK r1 s (fun s' => Regexp.matchK r2 s' k).
Proof. reflexivity. Qed.

Lemma matchK_Capture (r : Regexp.Regexp) (s : string) (k : string -> option string) :
  Regexp.matchK (Regexp.Capture r) s k = Regexp.matchK r s k.
Proof. reflexivity. Qed.

Lemma matchK_dash (s rest : string) (k : string -> option string) :
  Regexp.matchK (Regexp.Literal "-") s k = Some rest ->
  exists s', s = String "-" s' /\ k s' = Some rest.
Proof.
  destruct s as [|c s]; cbn [Regexp.matchK]; [discriminate |].
  destruct (Ascii.eqb "-" c) eqn:C; [| discriminate].
  apply Ascii.eqb_eq in C. subst c. eauto.
Qed.

Lemma matchHere_date_parts (s rest : string) :
  Regexp.matchHere dateRegexp s = Some rest ->
  exists y m d,
    s = y +:+ "-" +:+ m +:+ "-" +:+ d +:+ rest
    /\ allDigits y = true /\ allDigits m = true /\ allDigits d = true
    /\ 1 <= String.length y <= 4
    /\ 1 <= String.length m <= 2
    /\ 1 <= String.length d <= 2.
Proof.
  unfold Regexp.matchHere, dateRegexp. intros E.
  rewrite matchK_Concat, matchK_Capture, matchK_Repeat in E.
  apply requiredK_digits in E as (y & s1 & -> & Hy & Dy & E).
  rewrite matchK_Concat in E. apply matchK_dash in E as (s2 & -> & E).
  rewrite matchK_Concat, matchK_Capture, matchK_Repeat in E.
  apply requiredK_digits in E as (m & s3 & -> & Hm & Dm & E).
  rewrite matchK_Concat in E. apply matchK_dash in E as (s4 & -> & E).
  rewrite matchK_Capture, matchK_Repeat in E.
  apply requiredK_digits in E as (d & s5 & -> & Hd & Dd & E).
  injection E as ->.
  exists y, m, d. repeat split; auto; lia.
Qed.

Lemma find_date_parts (s m : string) :
  Regexp.find dateRegexp s = Some m ->
  exists pre rest y mo d,
    s = pre +:+ m +:+ rest
    /\ m = y +:+ "-" +:+ mo +:+ "-" +:+ d
    /\ allDigits y = true /\ allDigits mo = true /\ allDigits d = true
    /\ 1 <= String.length y <= 4
    /\ 1 <= String.length mo <= 2
    /\ 1 <= String.length d <= 2.
Proof.
  assert (Hhere : forall s rest, Regexp.matchHere dateRegexp s = Some rest ->
            Regexp.find dateRegexp s = Some m ->
            exists pre rest y mo d,
              s = pre +:+ m +:+ rest
              /\ m = y +:+ "-" +:+ mo +:+ "-" +:+ d
              /\ allDigits y = true /\ allDigits mo = true /\ allDigits d = true
              /\ 1 <= String.length y <= 4
              /\ 1 <= String.length mo <= 2
              /\ 1 <= String.length d <= 2).
  { intros s0 rest E F. rewrite (find_here _ _ _ E) in F. injection F as <-.
    destruct (matchHere_date_parts s0 rest E)
      as (y & mo & d & -> & Dy & Dm & Dd & Hy & Hm & Hd).
    assert (Hs : y +:+ "-" +:+ mo +:+ "-" +:+ d +:+ rest
                 = (y +:+ "-" +:+ mo +:+ "-" +:+ d) +:+ rest)
      by (now rewrite !app_assoc_string).
    rewrite Hs, takeBytes_app.
    exists "", rest, y, mo, d. repeat split; auto; lia. }
  induction s as [|c s IH]; intros F.
  - destruct (Regexp.matchHere dateRegexp "") as [rest |] eqn:E; [now apply (Hhere "" rest) |].
    simpl in F. unfold Regexp.matchHere in E. simpl in E. discriminate.
  - destruct (Regexp.matchHere dateRegexp (String c s)) as [rest |] eqn:E;
      [now apply (Hhere (String c s) rest) |].
    cbn [Regexp.find] in F. rewrite E in F.
    destruct (IH F) as (pre & rest & y & mo & d & -> & Hm & H').
    exists (String c pre), rest, y, mo, d. split; [reflexivity | now split].
Qed.

Lemma digitChar_digitValue (c : ascii) :
  Regexp.isDigit c = true ->
  Time.digitChar (Time.digitValue c) = c /\ (0 <= Time.digitValue c <= 9)%Z.
Proof.
  destruct c as [[] [] [] [] [] [] [] []]; intros E;
    first [discriminate E | split; [reflexivity | cbv; split; discriminate]].
Qed.

Lemma ten_byte_match (y mo d : string) :
  allDigits y = true -> allDigits mo = true -> allDigits d = true ->
  1 <= String.length y <= 4 -> 1 <= String.length mo <= 2 ->
  1 <= String.length d <= 2 ->
  String.length (y +:+ "-" +:+ mo +:+ "-" +:+ d) = 10 ->
  exists c1 c2 c3 c4 c5 c6 c7 c8,
    y +:+ "-" +:+ mo +:+ "-" +:+ d = dateBytes c1 c2 c3 c4 c5 c6 c7 c8 ""
    /\ Regexp.isDigit c1 = true /\ Regexp.isDigit c2 = true
    /\ Regexp.isDigit c3 = true /\ Regexp.isDigit c4 = true
    /\ Regexp.isDigit c5 = true /\ Regexp.isDigit c6 = true
    /\ Regexp.isDigit c7 = true /\ Regexp.isDigit c8 = true.
Proof.
  intros Dy Dm Dd Hy Hm Hd Hlen.
  rewrite !length_app_string in Hlen. simpl in Hlen.
  assert (String.length y = 4 /\ String.length mo = 2 /\ String.length d = 2)
    as (Ly & Lm & Ld) by lia.
  destruct y as [|c1 [|c2 [|c3 [|c4 [|? ?]]]]]; try discriminate Ly.
  destruct mo as [|c5 [|c6 [|? ?]]]; try discriminate Lm.
  destruct d as [|c7 [|c8 [|? ?]]]; try discriminate Ld.
  exists c1, c2, c3, c4, c5, c6, c7, c8. split; [reflexivity |].
  simpl in Dy, Dm, Dd.
  repeat match goal with
         | H : _ && _ = true |- _ => apply andb_true_iff in H as (? & ?)
         end.
  repeat split; assumption.
Qed.

Lemma Parse_dateBytes (c1 c2 c3 c4 c5 c6 c7 c8 : ascii) :
  Regexp.isDigit c1 = true -> Regexp.isDigit c2 = true ->
  Regexp.isDigit c3 = true -> Regexp.isDigit c4 = true ->
  Regexp.isDigit c5 = true -> Regexp.isDigit c6 = true ->
  Regexp.isDigit c7 = true -> Regexp.isDigit c8 = true ->
  let year := (Time.digitValue c1 * 1000 + Time.digitValue c2 * 100
               + Time.digitValue c3 * 10 + Time.digitValue c4)%Z in
  let month := (Time.digitValue c5 * 10 + Time.digitValue c6)%Z in
  let day := (Time.digitValue c7 * 10 + Time.digitValue c8)%Z in
  dateBytes c1 c2 c3 c4 c5 c6 c7 c8 "" = dateString year month day
  /\ (0 <= year <= 9999)%Z
  /\ Time.Parse_2006_01_02 (dateBytes c1 c2 c3 c4 c5 c6 c7 c8 "")
     = if ((month <=? 0) || (12 <? month))%Z
       then inr (ParseError "01" ": month out of range")
       else if ((day <? 1) || (Time.daysIn month year <? day))%Z
            then inr (ParseError "" ": day out of range")
            else inl (Time.Date year month day).
Proof.
  intros D1 D2 D3 D4 D5 D6 D7 D8 year month day.
  destruct (digitChar_digitValue c1 D1) as (V1 & R1).
  destruct (digitChar_digitValue c2 D2) as (V2 & R2).
  destruct (digitChar_digitValue c3 D3) as (V3 & R3).
  destruct (digitChar_digitValue c4 D4) as (V4 & R4).
  destruct (digitChar_digitValue c5 D5) as (V5 & R5).
  destruct (digitChar_digitValue c6 D6) as (V6 & R6).
  destruct (digitChar_digitValue c7 D7) as (V7 & R7).
  destruct (digitChar_digitValue c8 D8) as (V8 & R8).
  change Regexp.isDigit with Time.isDigit in *.
  split; [| split].
  - unfold dateString, fourDigits, twoDigits, dateBytes. simpl.
    replace (year / 1000)%Z with (Time.digitValue c1)
      by (unfold year; Z.div_mod_to_equations; lia).
    replace (year / 100 mod 10)%Z with (Time.digitValue c2)
      by (unfold year; Z.div_mod_to_equations; lia).
    replace (year mod 100 / 10)%Z with (Time.digitValue c3)
      by (unfold year; Z.div_mod_to_equations; lia).
    replace (year mod 100 mod 10)%Z with (Time.digitValue c4)
      by (unfold year; Z.div_mod_to_equations; lia).
    replace (month / 10)%Z with (Time.digitValue c5)
      by (unfold month; Z.div_mod_to_equations; lia).
    replace (month mod 10)%Z with (Time.digitValue c6)
      by (unfold month; Z.div_mod_to_equations; lia).
    replace (day / 10)%Z with (Time.digitValue c7)
      by (unfold day; Z.div_mod_to_equations; lia).
    replace (day mod 10)%Z with (Time.digitValue c8)
      by (unfold day; Z.div_mod_to_equations; lia).
    congruence.
  - unfold year. lia.
  - unfold Time.Parse_2006_01_02, dateBytes, Time.getyear, Time.getnum2, Time.skipDash.
    rewrite D1, D2, D3, D4. cbn [andb]. cbv beta iota.
    rewrite D5, D6. cbn [andb]. cbv beta iota. fold year month.
    destruct ((month <=? 0) || (12 <? month))%Z; [reflexivity |].
    rewrite D7, D8. cbn [andb]. cbv beta iota. fold day. reflexivity.
Qed.

Lemma FindString_ten_bytes (name : string) :
  String.length (Regexp.FindString dateRegexp name) = 10 ->
  exists year month day,
    (0 <= year <= 9999)%Z
    /\ Regexp.FindString dateRegexp name = dateString year month day
    /\ Contains name (dateString year month day)
    /\ Time.Parse_2006_01_02 (Regexp.FindString dateRegexp name)
       = if ((month <=? 0) || (12 <? month))%Z
         then inr (ParseError "01" ": month out of range")
         else if ((day <? 1) || (Time.daysIn month year <? day))%Z
              then inr (ParseError "" ": day out of range")
              else inl (Time.Date year month day).
Proof.
  unfold Regexp.FindString.
  destruct (Regexp.find dateRegexp name) as [ds |] eqn:F; [| discriminate].
  intros Hlen.
  destruct (find_date_parts name ds F)
    as (pre & rest & y & mo & d & Hname & -> & Dy & Dm & Dd & Hy & Hm & Hd).
  destruct (ten_byte_match y mo d Dy Dm Dd Hy Hm Hd Hlen)
    as (c1 & c2 & c3 & c4 & c5 & c6 & c7 & c8 & E & D1 & D2 & D3 & D4 & D5 & D6 & D7 & D8).
  rewrite E in *.
  destruct (Parse_dateBytes c1 c2 c3 c4 c5 c6 c7 c8 D1 D2 D3 D4 D5 D6 D7 D8)
    as (Hstr & Hyear & Hparse).
  eexists _, _, _. split; [exact Hyear |]. split; [exact Hstr |].
  split; [| exact Hparse].
  exists pre, rest. now rewrite <- Hstr.
Qed.

Section ParseDateResults.

Context `{Runtime}.

(** X1. When [parseDate] returns no error, the time it returns is
    midnight UTC of a day of the calendar, the text [YYYY-MM-DD] of that
    day is the first match of the pattern and occurs in the name, and the
    clock has not been read. *)
Theorem parseDate_success_is_calendar_date (name : string) (w w' : World)
    (t : Time.Time) :
  parseDate name w = ((t, None), w') ->
  w' = w
  /\ exists year month day,
       validDate year month day
       /\ t = Time.Date year month day
       /\ Regexp.FindString dateRegexp name = dateString year month day
       /\ Contains name (dateString year month day).
Proof.
  rewrite parseDate_eq. cbv zeta.
  destruct (String.length _ =? 10)%nat eqn:Hlen; [| discriminate].
  apply Nat.eqb_eq in Hlen.
  destruct (FindString_ten_bytes name Hlen)
    as (year & month & day & Hyear & Hstr & Hin & Hparse).
  rewrite Hparse.
  destruct ((month <=? 0) || (12 <? month))%Z eqn:Hm; [discriminate |].
  destruct ((day <? 1) || (Time.daysIn month year <? day))%Z eqn:Hd; [discriminate |].
  intros [= <- <-]. split; [reflexivity |].
  exists year, month, day. repeat split; auto; lia.
Qed.

(** X2. When [parseDate] returns an error, it returns one reading of the
    clock with it, and the error is one of three: the message that names
    the string, when the first match is not ten bytes long, or the month
    or the day of a ten-byte match being out of range.  A ten-byte match
    has the shape [dddd-dd-dd], so [time.Parse] cannot fail otherwise. *)
Theorem parseDate_error_kinds (name : string) (w w' : World) (t : Time.Time)
    (err : error) :
  parseDate name w = ((t, Some err), w') ->
  t = clock (ticks w) /\ w' = tick w
  /\ ((String.length (Regexp.FindString dateRegexp name) <> 10
       /\ err = Errorf ("Unable to parse date from string: " +:+ name))
      \/ (String.length (Regexp.FindString dateRegexp name) = 10
          /\ (err = ParseError "01" ": month out of range"
              \/ err = ParseError "" ": day out of range"))).
Proof.
  rewrite parseDate_eq. cbv zeta.
  destruct (String.length _ =? 10)%nat eqn:Hlen.
  - apply Nat.eqb_eq in Hlen.
    destruct (FindString_ten_bytes name Hlen)
      as (year & month & day & Hyear & Hstr & Hin & Hparse).
    rewrite Hparse.
    destruct ((month <=? 0) || (12 <? month))%Z.
    + intros [= <- <- <-]. repeat split. right. split; [exact Hlen | now left].
    + destruct ((day <? 1) || (Time.daysIn month year <? day))%Z; [| discriminate].
      intros [= <- <- <-]. repeat split. right. split; [exact Hlen | now right].
  - apply Nat.eqb_neq in Hlen.
    intros [= <- <- <-]. repeat split. left. now split.
Qed.

End ParseDateResults.

Lemma parseDate_success_is_calendar_date_witness :
  exists year month day,
    validDate year month day
    /\ Time.Date 2021 3 5 = Time.Date year month day
    /\ Contains "x1-2021-03-05-hello" (dateString year month day).
Proof.
  destruct (parseDate_success_is_calendar_date (H := Demo.runtime)
              "x1-2021-03-05-hello" siteWorld siteWorld (Time.Date 2021 3 5) eq_refl)
    as (_ & year & month & day & Hv & Ht & _ & Hin).
  exists year, month, day. auto.
Defined.

Lemma parseDate_error_kinds_witness :
  Demo.clock 0 = Demo.clock (ticks siteWorld) /\ tick siteWorld = tick siteWorld.
Proof.
  destruct (parseDate_error_kinds (H := Demo.runtime) "2021-02-30-x" siteWorld
              (tick siteWorld) (Demo.clock 0)
              (ParseError "" ": day out of range") eq_refl) as (Ht & Hw & _).
  split; [exact Ht | exact Hw].
Defined.

(** ** The contents of a post *)

Lemma SplitByte_nonempty (s : string) (sep : ascii) : Strings.SplitByte s sep <> [].
Proof.
  destruct s as [|c s]; simpl; [discriminate |].
  destruct (Ascii.eqb c sep); [discriminate |].
  destruct (Strings.SplitByte s sep); discriminate.
Qed.

Lemma Join_cons (e : string) (elems : list string) (sep : string) :
  elems <> [] ->
  Strings.Join (e :: elems) sep = e +:+ sep +:+ Strings.Join elems sep.
Proof. destruct elems; [contradiction | reflexivity]. Qed.

Lemma Join_SplitByte (s : string) (sep : ascii) :
  Strings.Join (Strings.SplitByte s sep) (String sep "") = s.
Proof.
  induction s as [|c s IH]; [reflexivity |].
  cbn [Strings.SplitByte].
  destruct (Ascii.eqb c sep) eqn:E.
  - apply Ascii.eqb_eq in E. subst c.
    rewrite Join_cons by apply SplitByte_nonempty. now rewrite IH.
  - pose proof (SplitByte_nonempty s sep) as Hne.
    destruct (Strings.SplitByte s sep) as [|piece pieces]; [contradiction |].
    destruct pieces as [|p pieces].
    + simpl in *. now rewrite IH.
    + rewrite Join_cons in * by discriminate. simpl. now rewrite <- IH.
Qed.

Section PostContents.

Context `{Runtime}.

(** X3. [parseSourceFile] changes no file.  On a readable file it returns
    a post whose name is the slug of the path, whose date is what
    [parseDate] returns for that slug, and whose content is the markdown
    conversion of the whole file, headline included (splitting into lines
    and joining them again gives the file back).  On a missing file it
    returns the read error and no post, whatever the date. *)
Theorem parseSourceFile_post (srcFilePath : string) (w : World) :
  let r := parseSourceFile srcFilePath w in
  files (snd r) = files w
  /\ config (snd r) = config w
  /\ rendered (snd r) = rendered w
  /\ match files w !! srcFilePath with
     | Some data =>
         exists post,
           fst r = inl post
           /\ Name post = trimPath srcFilePath
           /\ Content post = MarkdownCommon data
           /\ Date post = fst (fst (parseDate (trimPath srcFilePath) w))
     | None => fst r = inr (PathError "open" srcFilePath)
     end.
Proof.
  intros r. unfold r. rewrite parseSourceFile_eq. cbv zeta.
  destruct (parseDate_preserves (trimPath srcFilePath) w) as (Hf & Hc & Hr).
  destruct (files w !! srcFilePath) as [data |]; simpl.
  - repeat split; auto. eexists. split; [reflexivity |]. simpl.
    now rewrite Join_SplitByte.
  - repeat split; auto.
Qed.

End PostContents.

(** ** The methods of [Posts] *)

Lemma swap_head_permutation (l : Posts) (j : nat) (x b : Post) :
  l !! j = Some b -> b :: <[j := x]> l ≡ₚ x :: l.
Proof.
  revert j. induction l as [|y l IH]; intros j Hj; [discriminate |].
  destruct j as [|j]; simpl in *.
  - injection Hj as ->. apply perm_swap.
  - rewrite perm_swap. rewrite (IH j Hj). apply perm_swap.
Qed.

Lemma swap_permutation (p : Posts) (i j : nat) (a b : Post) :
  p !! i = Some a -> p !! j = Some b -> <[j := a]> (<[i := b]> p) ≡ₚ p.
Proof.
  revert i j. induction p as [|x p IH]; intros i j Hi Hj; [discriminate |].
  destruct i as [|i], j as [|j]; simpl in *.
  - injection Hi as ->. now injection Hj as ->.
  - injection Hi as ->. now apply swap_head_permutation.
  - injection Hj as ->. now apply swap_head_permutation.
  - apply perm_skip. now apply IH.
Qed.

(** X4. [Posts.Swap] on two indices in range exchanges the two elements,
    leaves the others and the length as they were, rearranges the
    collection, and undoes itself when applied again; with an index out of
    range it panics. *)
Theorem Posts_Swap_exchanges (p : Posts) (i j : nat) :
  (i < Posts_Len p -> j < Posts_Len p ->
   exists p',
     Posts_Swap p i j = Some p'
     /\ Posts_Len p' = Posts_Len p
     /\ p' !! i = p !! j
     /\ p' !! j = p !! i
     /\ (forall k, k <> i -> k <> j -> p' !! k = p !! k)
     /\ p' ≡ₚ p
     /\ Posts_Swap p' i j = Some p)
  /\ (Posts_Len p <= i \/ Posts_Len p <= j -> Posts_Swap p i j = None).
Proof.
  unfold Posts_Len, Posts_Swap. split.
  - intros Hi Hj.
    destruct (lookup_lt_is_Some_2 p i Hi) as (a & Ha).
    destruct (lookup_lt_is_Some_2 p j Hj) as (b & Hb).
    rewrite Ha, Hb. eexists. split; [reflexivity |].
    assert (Hpi : <[j:=a]> (<[i:=b]> p) !! i = Some b).
    { destruct (decide (i = j)) as [-> | Hne].
      - rewrite list_lookup_insert_eq by (rewrite length_insert; lia). congruence.
      - rewrite list_lookup_insert_ne by auto.
        now rewrite list_lookup_insert_eq by lia. }
    assert (Hpj : <[j:=a]> (<[i:=b]> p) !! j = Some a)
      by (rewrite list_lookup_insert_eq by (rewrite length_insert; lia); reflexivity).
    split; [now rewrite !length_insert |].
    split; [congruence |]. split; [congruence |].
    split; [| split; [now apply swap_permutation |]].
    + intros k Hki Hkj. now rewrite !list_lookup_insert_ne by auto.
    + rewrite Hpi, Hpj. f_equal. apply list_eq. intros k.
      destruct (decide (k = j)) as [-> | Hkj].
      * rewrite list_lookup_insert_eq by (rewrite !length_insert; lia). now rewrite Hb.
      * rewrite list_lookup_insert_ne by auto.
        destruct (decide (k = i)) as [-> | Hki].
        -- rewrite list_lookup_insert_eq by (rewrite !length_insert; lia). now rewrite Ha.
        -- now rewrite !list_lookup_insert_ne by auto.
  - intros [Hi | Hj].
    + now rewrite (lookup_ge_None_2 p i Hi).
    + rewrite (lookup_ge_None_2 p j Hj). now destruct (p !! i).
Qed.

Lemma Posts_Swap_exchanges_witness :
  exists p', Posts_Swap [post2020; post2022; post2021] 0 2 = Some p'
             /\ p' !! 0 = Some post2021.
Proof.
  destruct (proj1 (Posts_Swap_exchanges [post2020; post2022; post2021] 0 2))
    as (p' & Hs & _ & H0 & _); [simpl; lia | simpl; lia |].
  exists p'. split; [exact Hs | exact H0].
Defined.

(** X5. [Posts.Less] is a strict weak ordering of the indices in range,
    as [sort.Sort] requires: no index is less than itself, two indices are
    never less than each other, the relation is transitive and so is being
    unordered (same instant).  With an index out of range it panics. *)
Theorem Posts_Less_strict_weak_order (p : Posts) :
  (forall i, i < Posts_Len p -> Posts_Less p i i = Some false)
  /\ (forall i j, Posts_Less p i j = Some true -> Posts_Less p j i = Some false)
  /\ (forall i j k, Posts_Less p i j = Some true -> Posts_Less p j k = Some true ->
                    Posts_Less p i k = Some true)
  /\ (forall i j k,
         Posts_Less p i j = Some false -> Posts_Less p j i = Some false ->
         Posts_Less p j k = Some false -> Posts_Less p k j = Some false ->
         Posts_Less p i k = Some false /\ Posts_Less p k i = Some false)
  /\ (forall i j, Posts_Len p <= i \/ Posts_Len p <= j -> Posts_Less p i j = None).
Proof.
  unfold Posts_Len, Posts_Less, Time.After.
  split; [| split; [| split; [| split]]].
  - intros i Hi. destruct (lookup_lt_is_Some_2 p i Hi) as (a & ->).
    f_equal. lia.
  - intros i j. destruct (p !! i), (p !! j); try discriminate.
    intros [= E]. f_equal. lia.
  - intros i j k. destruct (p !! i), (p !! j), (p !! k); try discriminate.
    intros [= E1] [= E2]. f_equal. lia.
  - intros i j k. destruct (p !! i), (p !! j), (p !! k); try discriminate.
    intros [= E1] [= E2] [= E3] [= E4]. split; f_equal; lia.
  - intros i j [Hi | Hj].
    + now rewrite (lookup_ge_None_2 p i Hi).
    + rewrite (lookup_ge_None_2 p j Hj). now destruct (p !! i).
Qed.

(** X6. Sorting a [Posts] value with the insertion sort of [sort.Sort],
    through [Len], [Less] and [Swap], never indexes out of range; the
    result has the same posts and length, and no post in it is [Less]
    than the one before it. *)
Theorem Posts_insertionSort_sorts (posts : Posts) :
  exists sorted,
    insertionSort posts 0 (Len posts) = Some sorted
    /\ sorted ≡ₚ posts
    /\ Len sorted = Len posts
    /\ (forall i j, i < j -> j < Len sorted -> Less sorted j i = Some false).
Proof.
  destruct (insertionSort_sorts posts) as (sorted & E & Hs & Hp).
  exists sorted. split; [exact E |]. split; [exact Hp |].
  cbn [Len Less Posts_Interface]. unfold Posts_Len, Posts_Less.
  split; [now rewrite Hp |].
  intros i j Hij Hj.
  destruct (lookup_lt_is_Some_2 sorted j Hj) as (q & Hq).
  destruct (lookup_lt_is_Some_2 sorted i ltac:(lia)) as (a & Ha).
  rewrite Hq, Ha. f_equal.
  pose proof (descending_lookup sorted i j a q Hs Hij Ha Hq) as Hpq.
  unfold notEarlier in Hpq. unfold Time.After. lia.
Qed.

(** ** What a run writes *)

Lemma changedAt_refl (paths : list string) (fs : gmap string string) :
  changedAt paths fs fs.
Proof. intros path _. reflexivity. Qed.

Lemma changedAt_trans (paths : list string) (fs1 fs2 fs3 : gmap string string) :
  changedAt paths fs1 fs2 -> changedAt paths fs2 fs3 -> changedAt paths fs1 fs3.
Proof. intros H12 H23 path Hp. now rewrite (H23 path Hp), (H12 path Hp). Qed.

Lemma changedAt_insert (paths : list string) (path data : string)
    (fs : gmap string string) :
  path ∈ paths -> changedAt paths fs (<[path := data]> fs).
Proof.
  intros Hin p Hp. apply lookup_insert_ne. intros ->. contradiction.
Qed.

Lemma changedAt_weaken (paths paths' : list string) (fs fs' : gmap string string) :
  paths ⊆ paths' -> changedAt paths fs fs' -> changedAt paths' fs fs'.
Proof. intros Hsub Hc path Hp. apply Hc. intros Hin. apply Hp. now apply Hsub. Qed.

Section Writes.

Context `{Runtime}.

Lemma renderTemplate_eq (tmplPath : string) (data : tmplData) (w : World) :
  renderTemplate tmplPath data w
  = (rendering (files w) tmplPath data, noted tmplPath data w).
Proof.
  unfold renderTemplate, rendering, mbind, M_bind, bind, noteRender, ReadFile, noted.
  simpl. destruct (files w !! tmplPath) as [text |]; [| reflexivity].
  now destruct (tmplParse tmplPath text).
Qed.

(** The result of [WriteFile]: the file is written, or it cannot be
    opened and nothing changes, or the write fails on the opened file,
    which is left with the bytes that reached it. *)
Lemma WriteFile_eq (path data : string) (w : World) :
  WriteFile path data w =
    if writable path
    then match shortWrite path data with
         | None => (None, setFiles (<[path := data]> (files w)) w)
         | Some n =>
             (Some (PathError "write" path),
              setFiles (<[path := String.substring 0 n data]> (files w)) w)
         end
    else (Some (PathError "open" path), w).
Proof. reflexivity. Qed.

Lemma WriteFile_cases (path data : string) (w : World) :
  config (snd (WriteFile path data w)) = config w
  /\ match fst (WriteFile path data w) with
     | None =>
         writable path = true /\ shortWrite path data = None
         /\ files (snd (WriteFile path data w)) = <[path := data]> (files w)
     | Some err =>
         files (snd (WriteFile path data w)) = files w
         \/ exists n,
              shortWrite path data = Some n
              /\ err = PathError "write" path
              /\ files (snd (WriteFile path data w))
                 = <[path := String.substring 0 n data]> (files w)
     end.
Proof.
  rewrite WriteFile_eq.
  destruct (writable path); [| simpl; auto].
  destruct (shortWrite path data) as [n |] eqn:E; simpl; [| auto].
  split; [reflexivity |]. right. exists n. auto.
Qed.

Lemma WriteFile_changedAt (path data : string) (w : World) :
  changedAt [path] (files w) (files (snd (WriteFile path data w))).
Proof.
  rewrite WriteFile_eq.
  destruct (writable path); [| apply changedAt_refl].
  destruct (shortWrite path data); simpl; apply changedAt_insert; left.
Qed.

Lemma writePost_eq (mdPath : string) (w : World) :
  writePost mdPath w =
    let w1 := snd (parseDate (trimPath mdPath) w) in
    match fst (parseSourceFile mdPath w) with
    | inr err => (inr err, w1)
    | inl post =>
        let tmplPath := Filepath.Join (TemplateDir (config w)) "main.html" in
        let w2 := noted tmplPath (DataPost post) w1 in
        match rendering (files w) tmplPath (DataPost post) with
        | inr err => (inr err, w2)
        | inl out =>
            let outFilePath :=
              Filepath.Join (OutputDir (config w)) (Name post +:+ ".html") in
            match fst (WriteFile outFilePath out w2) with
            | None => (inl post, snd (WriteFile outFilePath out w2))
            | Some err => (inr err, snd (WriteFile outFilePath out w2))
            end
        end
    end.
Proof.
  unfold writePost, mbind, M_bind, bind, getConfig. rewrite parseSourceFile_eq.
  cbv zeta.
  destruct (parseDate_preserves (trimPath mdPath) w) as (Hf & Hc & Hr).
  destruct (files w !! mdPath) as [data |]; [| reflexivity]. cbn [fst].
  rewrite renderTemplate_eq. cbv beta iota. rewrite ?Hf, ?Hc.
  destruct (rendering (files w) _ _) as [out | err]; [| reflexivity].
  unfold writeOutputFile. cbn [Name config noted].
  destruct (WriteFile _ out _) as [[err |] w3]; reflexivity.
Qed.

(** X7. [writePost] changes no file other than the page of the post,
    [OutputDir/slug.html], and never the configuration.  When it returns
    a post, that post is the one [parseSourceFile] made, the template
    [main.html] rendered it and the page holds the rendering.  When it
    returns an error, either no file has changed (the source cannot be
    read, the template is missing or fails, the page cannot be opened), or
    the write failed on the opened page: the error is that of the write
    and the page is left with the first bytes of the rendering that
    reached it, its old contents gone. *)
Theorem writePost_outcome (mdPath : string) (w : World) :
  let r := writePost mdPath w in
  let tmplPath := Filepath.Join (TemplateDir (config w)) "main.html" in
  let outFilePath :=
    Filepath.Join (OutputDir (config w)) (trimPath mdPath +:+ ".html") in
  config (snd r) = config w
  /\ changedAt [outFilePath] (files w) (files (snd r))
  /\ match fst r with
     | inl post =>
         fst (parseSourceFile mdPath w) = inl post
         /\ writable outFilePath = true
         /\ exists out,
              rendering (files w) tmplPath (DataPost post) = inl out
              /\ files (snd r) = <[outFilePath := out]> (files w)
     | inr err =>
         files (snd r) = files w
         \/ exists post out n,
              fst (parseSourceFile mdPath w) = inl post
              /\ rendering (files w) tmplPath (DataPost post) = inl out
              /\ shortWrite outFilePath out = Some n
              /\ err = PathError "write" outFilePath
              /\ files (snd r) = <[outFilePath := String.substring 0 n out]> (files w)
     end.
Proof.
  intros r tmplPath outFilePath. unfold r. rewrite writePost_eq. cbv zeta.
  fold tmplPath.
  destruct (parseDate_preserves (trimPath mdPath) w) as (Hf & Hc & Hr).
  pose proof (parseSourceFile_eq mdPath w) as Hp. cbv zeta in Hp.
  destruct (fst (parseSourceFile mdPath w)) as [post | err] eqn:Hpost;
    [| simpl; rewrite Hf; split; [exact Hc |]; split;
       [apply changedAt_refl | now left]].
  assert (Hname : Name post = trimPath mdPath).
  { rewrite Hp in Hpost. destruct (files w !! mdPath); simpl in Hpost;
      [| discriminate]. now injection Hpost as <-. }
  rewrite Hname. fold outFilePath.
  destruct (rendering (files w) tmplPath (DataPost post)) as [out | err] eqn:E;
    [| simpl; rewrite Hf; split; [exact Hc |]; split;
       [apply changedAt_refl | now left]].
  set (w2 := noted tmplPath (DataPost post) (snd (parseDate (trimPath mdPath) w))).
  assert (Hf2 : files w2 = files w) by exact Hf.
  assert (Hc2 : config w2 = config w) by exact Hc.
  pose proof (WriteFile_cases outFilePath out w2) as (Hcw & Hcases).
  pose proof (WriteFile_changedAt outFilePath out w2) as Hch.
  rewrite Hf2 in Hch, Hcases. rewrite Hc2 in Hcw.
  destruct (fst (WriteFile outFilePath out w2)) as [err |]; cbn [fst snd].
  - split; [exact Hcw |]. split; [exact Hch |].
    destruct Hcases as [Hsame | (n & Hn & -> & Hfiles)]; [now left |].
    right. exists post, out, n. auto.
  - destruct Hcases as (Hw & _ & Hfiles).
    split; [exact Hcw |]. split; [exact Hch |].
    split; [reflexivity |]. split; [exact Hw |]. exists out. auto.
Qed.

Lemma writePost_effect (mdPath : string) (w : World) :
  config (snd (writePost mdPath w)) = config w
  /\ changedAt [Filepath.Join (OutputDir (config w)) (trimPath mdPath +:+ ".html")]
       (files w) (files (snd (writePost mdPath w))).
Proof.
  rewrite writePost_eq. cbv zeta.
  destruct (parseDate_preserves (trimPath mdPath) w) as (Hf & Hc & Hr).
  pose proof (parseSourceFile_eq mdPath w) as Hp. cbv zeta in Hp.
  destruct (fst (parseSourceFile mdPath w)) as [post | err] eqn:Hpost;
    [| simpl; rewrite Hf; split; [exact Hc | apply changedAt_refl]].
  assert (Hname : Name post = trimPath mdPath).
  { rewrite Hp in Hpost. destruct (files w !! mdPath); simpl in Hpost;
      [| discriminate]. now injection Hpost as <-. }
  rewrite Hname.
  destruct (rendering _ _ _) as [out | err];
    [| simpl; rewrite Hf; split; [exact Hc | apply changedAt_refl]].
  match goal with
  | |- context [WriteFile ?p out ?w2] =>
      pose proof (WriteFile_cases p out w2) as (Hcw & _);
      pose proof (WriteFile_changedAt p out w2) as Hch;
      destruct (fst (WriteFile p out w2))
  end; cbn [snd]; change (files (noted _ _ _)) with
      (files (snd (parseDate (trimPath mdPath) w))) in Hch;
    change (config (noted _ _ _)) with
      (config (snd (parseDate (trimPath mdPath) w))) in Hcw;
    rewrite Hf in Hch; rewrite Hc in Hcw; auto.
Qed.

(** X8. [writeIndex] changes no file other than [OutputDir/index.html],
    never the configuration, and leaves the caller's posts sorted.  When
    it returns no error, [recent.html] rendered the sorted posts,
    [main.html] rendered the page titled [my page] around that, and the
    index holds the result.  When it returns an error, either no file has
    changed, or the write failed on the opened index, which is left with
    the first bytes of the page that reached it. *)
Theorem writeIndex_outcome (posts : Posts) (w : World) :
  let r := writeIndex posts w in
  let tdir := TemplateDir (config w) in
  let outFilePath := Filepath.Join (OutputDir (config w)) "index.html" in
  fst (fst r) = Sort posts
  /\ config (snd r) = config w
  /\ changedAt [outFilePath] (files w) (files (snd r))
  /\ match snd (fst r) with
     | None =>
         writable outFilePath = true
         /\ exists recent out,
              rendering (files w) (Filepath.Join tdir "recent.html")
                (DataPosts (Sort posts)) = inl recent
              /\ rendering (files w) (Filepath.Join tdir "main.html")
                   (DataPage "my page" recent) = inl out
              /\ files (snd r) = <[outFilePath := out]> (files w)
     | Some err =>
         files (snd r) = files w
         \/ exists recent out n,
              rendering (files w) (Filepath.Join tdir "recent.html")
                (DataPosts (Sort posts)) = inl recent
              /\ rendering (files w) (Filepath.Join tdir "main.html")
                   (DataPage "my page" recent) = inl out
              /\ shortWrite outFilePath out = Some n
              /\ err = PathError "write" outFilePath
              /\ files (snd r) = <[outFilePath := String.substring 0 n out]> (files w)
     end.
Proof.
  intros r tdir outFilePath. unfold r, writeIndex.
  unfold mbind, M_bind, bind, getConfig. cbv zeta.
  rewrite renderTemplate_eq. fold tdir.
  destruct (rendering (files w) _ (DataPosts _)) as [recent | err] eqn:E1;
    [| simpl; repeat split; auto using changedAt_refl].
  rewrite renderTemplate_eq. cbn [files noted].
  destruct (rendering (files w) _ (DataPage _ _)) as [out | err] eqn:E2;
    [| simpl; repeat split; auto using changedAt_refl].
  unfold writeOutputFile. cbn [config noted]. fold outFilePath.
  match goal with
  | |- context [WriteFile outFilePath out ?w2] =>
      pose proof (WriteFile_cases outFilePath out w2) as (Hcw & Hcases);
      pose proof (WriteFile_changedAt outFilePath out w2) as Hch;
      destruct (WriteFile outFilePath out w2) as [[err |] w3]
  end; cbn [fst snd files config noted] in *.
  - split; [reflexivity |]. split; [exact Hcw |]. split; [exact Hch |].
    destruct Hcases as [Hsame | (n & Hn & -> & Hfiles)]; [now left |].
    right. exists recent, out, n. auto.
  - destruct Hcases as (Hw & _ & Hfiles).
    split; [reflexivity |]. split; [exact Hcw |]. split; [exact Hch |].
    split; [exact Hw |]. exists recent, out. auto.
Qed.

Lemma writeIndex_effect (posts : Posts) (w : World) :
  config (snd (writeIndex posts w)) = config w
  /\ changedAt [Filepath.Join (OutputDir (config w)) "index.html"]
       (files w) (files (snd (writeIndex posts w))).
Proof.
  unfold writeIndex. unfold mbind, M_bind, bind, getConfig. cbv zeta.
  rewrite renderTemplate_eq.
  destruct (rendering (files w) _ (DataPosts _));
    [| simpl; split; [reflexivity | apply changedAt_refl]].
  rewrite renderTemplate_eq. cbn [files noted].
  destruct (rendering (files w) _ (DataPage _ _)) as [out | err];
    [| simpl; split; [reflexivity | apply changedAt_refl]].
  unfold writeOutputFile. cbn [config noted].
  match goal with
  | |- context [WriteFile ?p out ?w2] =>
      pose proof (WriteFile_cases p out w2) as (Hcw & _);
      pose proof (WriteFile_changedAt p out w2) as Hch;
      destruct (WriteFile p out w2) as [err w3]
  end; cbn [fst snd files config noted] in *. auto.
Qed.

(** X9. [writeFeed] changes no file other than [OutputDir/feed.html] and
    never the configuration.  When it returns no error, [feed.html]
    rendered the sorted posts and the feed holds the result.  When it
    returns an error, either no file has changed, or the write failed on
    the opened feed, which is left with the first bytes of the rendering
    that reached it. *)
Theorem writeFeed_outcome (posts : Posts) (w : World) :
  let r := writeFeed posts w in
  let tmplPath := Filepath.Join (TemplateDir (config w)) "feed.html" in
  let outFilePath := Filepath.Join (OutputDir (config w)) "feed.html" in
  fst (fst r) = Sort posts
  /\ config (snd r) = config w
  /\ changedAt [outFilePath] (files w) (files (snd r))
  /\ match snd (fst r) with
     | None =>
         writable outFilePath = true
         /\ exists out,
              rendering (files w) tmplPath (DataPosts (Sort posts)) = inl out
              /\ files (snd r) = <[outFilePath := out]> (files w)
     | Some err =>
         files (snd r) = files w
         \/ exists out n,
              rendering (files w) tmplPath (DataPosts (Sort posts)) = inl out
              /\ shortWrite outFilePath out = Some n
              /\ err = PathError "write" outFilePath
              /\ files (snd r) = <[outFilePath := String.substring 0 n out]> (files w)
     end.
Proof.
  intros r tmplPath outFilePath. unfold r, writeFeed.
  unfold mbind, M_bind, bind, getConfig. cbv zeta.
  rewrite renderTemplate_eq. fold tmplPath.
  destruct (rendering (files w) _ (DataPosts _)) as [out | err] eqn:E1;
    [| simpl; repeat split; auto using changedAt_refl].
  unfold writeOutputFile. cbn [config noted]. fold outFilePath.
  match goal with
  | |- context [WriteFile outFilePath out ?w2] =>
      pose proof (WriteFile_cases outFilePath out w2) as (Hcw & Hcases);
      pose proof (WriteFile_changedAt outFilePath out w2) as Hch;
      destruct (WriteFile outFilePath out w2) as [[err |] w3]
  end; cbn [fst snd files config noted] in *.
  - split; [reflexivity |]. split; [exact Hcw |]. split; [exact Hch |].
    destruct Hcases as [Hsame | (n & Hn & -> & Hfiles)]; [now left |].
    right. exists out, n. auto.
  - destruct Hcases as (Hw & _ & Hfiles).
    split; [reflexivity |]. split; [exact Hcw |]. split; [exact Hch |].
    split; [exact Hw |]. exists out. auto.
Qed.

Lemma writeFeed_effect (posts : Posts) (w : World) :
  config (snd (writeFeed posts w)) = config w
  /\ changedAt [Filepath.Join (OutputDir (config w)) "feed.html"]
       (files w) (files (snd (writeFeed posts w))).
Proof.
  unfold writeFeed. unfold mbind, M_bind, bind, getConfig. cbv zeta.
  rewrite renderTemplate_eq.
  destruct (rendering (files w) _ (DataPosts _)) as [out | err];
    [| simpl; split; [reflexivity | apply changedAt_refl]].
  unfold writeOutputFile. cbn [config noted].
  match goal with
  | |- context [WriteFile ?p out ?w2] =>
      pose proof (WriteFile_cases p out w2) as (Hcw & _);
      pose proof (WriteFile_changedAt p out w2) as Hch;
      destruct (WriteFile p out w2) as [err w3]
  end; cbn [fst snd files config noted] in *. auto.
Qed.

Lemma writePosts_effect (srcFiles : list string) (i : nat) (posts : Posts) (w : World) :
  config (snd (writePosts i srcFiles posts w)) = config w
  /\ changedAt
       (map (fun srcFile =>
               Filepath.Join (OutputDir (config w)) (trimPath srcFile +:+ ".html"))
            srcFiles)
       (files w) (files (snd (writePosts i srcFiles posts w))).
Proof.
  revert i posts w. induction srcFiles as [|src srcFiles IH]; intros i posts w.
  - split; [reflexivity | apply changedAt_refl].
  - cbn [writePosts map]. unfold mbind, M_bind, bind.
    destruct (writePost_effect src w) as (Hc & Hf).
    assert (Hstep : forall posts' w1,
               config w1 = config w ->
               changedAt [Filepath.Join (OutputDir (config w)) (trimPath src +:+ ".html")]
                 (files w) (files w1) ->
               config (snd (writePosts (S i) srcFiles posts' w1)) = config w
               /\ changedAt
                    (Filepath.Join (OutputDir (config w)) (trimPath src +:+ ".html")
                     :: map (fun srcFile =>
                               Filepath.Join (OutputDir (config w))
                                 (trimPath srcFile +:+ ".html")) srcFiles)
                    (files w) (files (snd (writePosts (S i) srcFiles posts' w1)))).
    { intros posts' w1 Hc1 Hf1. destruct (IH (S i) posts' w1) as (Hc' & Hf').
      rewrite Hc1 in *. split; [exact Hc' |].
      eapply changedAt_trans.
      - eapply changedAt_weaken; [| exact Hf1].
        intros p Hp. apply elem_of_cons in Hp as [-> | Hp]; [left | inversion Hp].
      - eapply changedAt_weaken; [| exact Hf']. intros p Hp. now right. }
    destruct (writePost src w) as [[post | err] w1]; simpl in Hc, Hf;
      now apply Hstep.
Qed.

(** X10. Once the source files are listed, the rest of [main] (the posts,
    the index and the feed) returns the exit status 0 whatever fails, never
    changes the configuration, and changes no file other than its output
    files: [OutputDir/slug.html] for each source file,
    [OutputDir/index.html] and [OutputDir/feed.html].  A source file, a
    template or the configuration file at another path is left as it was. *)
Theorem publish_writes_output_files_only (srcFiles : list string) (w : World) :
  fst (publish srcFiles w) = 0%Z
  /\ config (snd (publish srcFiles w)) = config w
  /\ forall path,
       path ∉ outputPaths (config w) srcFiles ->
       files (snd (publish srcFiles w)) !! path = files w !! path.
Proof.
  unfold publish. cbv zeta. unfold mbind, M_bind, bind.
  destruct (writePosts_effect srcFiles 0 (replicate (length srcFiles) zeroPost) w)
    as (Hc1 & Hf1).
  destruct (writePosts 0 srcFiles _ w) as [posts w1]. simpl in Hc1, Hf1.
  destruct (writeIndex_effect posts w1) as (Hc2 & Hf2).
  destruct (writeIndex posts w1) as [[posts1 e1] w2]. simpl in Hc2, Hf2.
  destruct (writeFeed_effect posts1 w2) as (Hc3 & Hf3).
  destruct (writeFeed posts1 w2) as [[posts2 e2] w3]. simpl in Hc3, Hf3.
  simpl. rewrite Hc2, Hc1 in *.
  split; [reflexivity |]. split; [congruence |].
  fold (changedAt (outputPaths (config w) srcFiles) (files w) (files w3)).
  unfold outputPaths.
  apply (changedAt_trans _ _ (files w2)).
  - apply (changedAt_trans _ _ (files w1)).
    + eapply changedAt_weaken; [| exact Hf1].
      intros p Hp. apply elem_of_app. now left.
    + eapply changedAt_weaken; [| exact Hf2].
      intros p Hp. apply elem_of_app. right.
      apply elem_of_cons in Hp as [-> | Hp]; [left | inversion Hp].
  - eapply changedAt_weaken; [| exact Hf3].
    intros p Hp. apply elem_of_app. right. right.
    apply elem_of_cons in Hp as [-> | Hp]; [left | inversion Hp].
Qed.

End Writes.

Lemma publish_writes_output_files_only_witness :
  files (snd (publish (H := Demo.runtime) ["src/2021-03-05-a.md"] siteWorld))
    !! "tmpl/main.html"
  = files siteWorld !! "tmpl/main.html".
Proof.
  apply (proj2 (proj2 (publish_writes_output_files_only (H := Demo.runtime)
                         ["src/2021-03-05-a.md"] siteWorld))).
  intros Hin. vm_compute in Hin.
  repeat (apply elem_of_cons in Hin as [Hin | Hin]; [discriminate Hin |]).
  inversion Hin.
Defined.

(** ** Preparing the file names *)

Section Prepare.

Context `{Runtime}.

Lemma prepareFile_eq (srcFile : string) (w : World) :
  prepareFile srcFile w =
    match snd (fst (parseDate (trimPath srcFile) w)) with
    | None => (tt, w)
    | Some _ =>
        match files w !! srcFile with
        | Some data =>
            let newname := datedName (config w) (clock (ticks w)) srcFile in
            if writable newname
            then (tt, setFiles (<[newname := data]> (delete srcFile (files w))) (tick w))
            else (tt, tick w)
        | None => (tt, tick w)
        end
    end.
Proof.
  unfold prepareFile, mbind, M_bind, bind, getConfig, Rename, datedName. cbv zeta.
  rewrite parseDate_eq. cbv zeta.
  destruct (String.length _ =? 10)%nat.
  - destruct (Time.Parse_2006_01_02 _); [reflexivity |]. cbn [fst snd files tick config].
    destruct (files w !! srcFile); [| reflexivity]. now destruct (writable _).
  - cbn [fst snd files tick config].
    destruct (files w !! srcFile); [| reflexivity]. now destruct (writable _).
Qed.

(** X11. What [prepare] does with one source file.  When [parseDate]
    accepts its slug, nothing happens.  Otherwise the clock is read once
    and the file is renamed to [SourceDir/DATE-slug.ext], [DATE] being the
    day of that reading in its location: the contents move to the new
    path and the old path is gone.  When the file is missing or the new
    path cannot be written, the failure is ignored and no file changes. *)
Theorem prepareFile_renames (srcFile : string) (w : World) :
  let w' := snd (prepareFile srcFile w) in
  let newname := datedName (config w) (clock (ticks w)) srcFile in
  match snd (fst (parseDate (trimPath srcFile) w)) with
  | None => w' = w
  | Some _ =>
      ticks w' = S (ticks w) /\ config w' = config w /\ rendered w' = rendered w
      /\ match files w !! srcFile with
         | Some data =>
             if writable newname
             then files w' !! newname = Some data
                  /\ (srcFile <> newname -> files w' !! srcFile = None)
                  /\ forall path, path <> srcFile -> path <> newname ->
                                  files w' !! path = files w !! path
             else files w' = files w
         | None => files w' = files w
         end
  end.
Proof.
  intros w' newname. unfold w'. rewrite prepareFile_eq. cbv zeta. fold newname.
  destruct (snd (fst (parseDate (trimPath srcFile) w))); [| reflexivity].
  destruct (files w !! srcFile) as [data |]; [| now simpl].
  destruct (writable newname); [| now simpl].
  simpl. repeat split.
  - apply lookup_insert_eq.
  - intros Hne. rewrite lookup_insert_ne by auto. apply lookup_delete_eq.
  - intros path Hp1 Hp2. rewrite lookup_insert_ne by auto.
    now rewrite lookup_delete_ne by auto.
Qed.

Lemma contentsFrom_refl (fs : gmap string string) : contentsFrom fs fs.
Proof. intros path data E. eauto. Qed.

Lemma contentsFrom_trans (fs1 fs2 fs3 : gmap string string) :
  contentsFrom fs1 fs2 -> contentsFrom fs2 fs3 -> contentsFrom fs1 fs3.
Proof.
  intros H12 H23 path data E. destruct (H23 path data E) as (p & Hp). eauto.
Qed.

Lemma prepareFile_effect (srcFile : string) (w : World) :
  let w' := snd (prepareFile srcFile w) in
  config w' = config w /\ rendered w' = rendered w
  /\ ticks w <= ticks w' <= S (ticks w)
  /\ contentsFrom (files w) (files w')
  /\ forall path,
       path <> srcFile ->
       (forall t, path <> datedName (config w) (clock t) srcFile) ->
       files w' !! path = files w !! path.
Proof.
  intros w'. unfold w'. rewrite prepareFile_eq.
  destruct (snd (fst (parseDate (trimPath srcFile) w)));
    [| simpl; repeat split; auto using contentsFrom_refl; lia].
  destruct (files w !! srcFile) as [data |] eqn:Hsrc;
    [| simpl; repeat split; auto using contentsFrom_refl; lia].
  cbv zeta. destruct (writable _);
    [| simpl; repeat split; auto using contentsFrom_refl; lia].
  simpl. repeat split; try lia.
  - intros path data' E.
    destruct (decide (path = datedName (config w) (clock (ticks w)) srcFile)) as [-> | Hne].
    + rewrite lookup_insert_eq in E. injection E as <-. eauto.
    + rewrite lookup_insert_ne in E by auto.
      destruct (decide (path = srcFile)) as [-> | Hne'].
      * rewrite lookup_delete_eq in E. discriminate.
      * rewrite lookup_delete_ne in E by auto. eauto.
  - intros path Hp1 Hp2. rewrite lookup_insert_ne by (intros E; now apply (Hp2 (ticks w))).
    now rewrite lookup_delete_ne by auto.
Qed.

Lemma prepareLoop_effect (srcFiles : list string) (w : World) :
  let w' := snd (prepareLoop srcFiles w) in
  config w' = config w /\ rendered w' = rendered w
  /\ ticks w <= ticks w' <= ticks w + length srcFiles
  /\ contentsFrom (files w) (files w')
  /\ forall path,
       path ∉ srcFiles ->
       (forall srcFile t, srcFile ∈ srcFiles ->
                          path <> datedName (config w) (clock t) srcFile) ->
       files w' !! path = files w !! path.
Proof.
  revert w. induction srcFiles as [|src srcFiles IH]; intros w.
  - simpl. repeat split; auto using contentsFrom_refl; lia.
  - cbn [prepareLoop]. unfold mbind, M_bind, bind.
    pose proof (prepareFile_effect src w) as (Hc & Hr & Ht & Hcont & Hframe).
    destruct (prepareFile src w) as [[] w1]. simpl in Hc, Hr, Ht, Hcont, Hframe.
    specialize (IH w1). cbv zeta in IH.
    destruct IH as (Hc' & Hr' & Ht' & Hcont' & Hframe').
    cbv zeta. cbn [length]. split; [congruence |]. split; [congruence |].
    split; [lia |]. split; [eapply contentsFrom_trans; eassumption |].
    intros path Hp1 Hp2. rewrite Hframe'.
    + apply Hframe.
      * intros ->. apply Hp1. left.
      * intros t. apply Hp2. left.
    + intros Hin. apply Hp1. now right.
    + intros srcFile t Hin. rewrite Hc. apply Hp2. now right.
Qed.

(** X12. [prepare] fails only when the listing fails, and then it has
    done nothing.  After a listing it returns no error, whatever happens
    to the renames: it reads the clock at most once per listed file, keeps
    the configuration, changes no file other than the listed ones and the
    dated names it gives them, and every file afterwards holds the
    contents of a file that was there before (files are moved, never
    edited). *)
Theorem prepare_fails_only_on_listing (w : World) :
  let w' := snd (prepare w) in
  match Glob (files w) (SourceDir (config w) +:+ "/*.md") with
  | inr err => prepare w = (Some err, w)
  | inl srcFiles =>
      fst (prepare w) = None
      /\ config w' = config w /\ rendered w' = rendered w
      /\ ticks w <= ticks w' <= ticks w + length srcFiles
      /\ contentsFrom (files w) (files w')
      /\ forall path,
           path ∉ srcFiles ->
           (forall srcFile t, srcFile ∈ srcFiles ->
                              path <> datedName (config w) (clock t) srcFile) ->
           files w' !! path = files w !! path
  end.
Proof.
  intros w'. unfold w', prepare, mbind, M_bind, bind, listSrcFiles.
  destruct (Glob _ _) as [srcFiles | err]; [| reflexivity].
  pose proof (prepareLoop_effect srcFiles w) as Heff. cbv zeta in Heff.
  destruct (prepareLoop srcFiles w) as [[] w1]. simpl in *.
  split; [reflexivity | exact Heff].
Qed.

Lemma prepare_result (w : World) :
  config (snd (prepare w)) = config w
  /\ match Glob (files w) (SourceDir (config w) +:+ "/*.md") with
     | inr err => prepare w = (Some err, w)
     | inl srcFiles => fst (prepare w) = None
     end.
Proof.
  unfold prepare, mbind, M_bind, bind, listSrcFiles.
  destruct (Glob _ _) as [srcFiles | err]; [| split; reflexivity].
  pose proof (prepareLoop_effect srcFiles w) as (Hc & _). cbv zeta in Hc.
  destruct (prepareLoop srcFiles w) as [[] w1]. simpl in *. auto.
Qed.

Lemma publish_exit (srcFiles : list string) (w : World) :
  fst (publish srcFiles w) = 0%Z.
Proof.
  unfold publish. cbv zeta. unfold mbind, M_bind, bind.
  destruct (writePosts 0 srcFiles _ w) as [posts w1].
  destruct (writeIndex posts w1) as [[posts1 e1] w2].
  now destruct (writeFeed posts1 w2) as [[posts2 e2] w3].
Qed.

Lemma main_eq (w : World) :
  main w =
    let w1 := snd (readConfig w) in
    let w2 := snd (prepare w1) in
    match fst (readConfig w) with
    | Some _ => (1%Z, w1)
    | None =>
        match fst (prepare w1) with
        | Some _ => (1%Z, w2)
        | None =>
            match Glob (files w2) (SourceDir (config w2) +:+ "/*.md") with
            | inr _ => (1%Z, w2)
            | inl srcFiles => publish srcFiles w2
            end
        end
    end.
Proof.
  unfold main. unfold mbind at 1, M_bind at 1, bind at 1. cbv zeta.
  destruct (readConfig w) as [[err |] w1]; cbn [fst snd]; [reflexivity |].
  unfold mbind at 1, M_bind at 1, bind at 1.
  destruct (prepare w1) as [[err |] w2]; cbn [fst snd]; [reflexivity |].
  unfold mbind at 1, M_bind at 1, bind at 1. unfold listSrcFiles. cbn [fst snd].
  now destruct (Glob _ _).
Qed.

(** X13. The exit status of [main] is 0 or 1.  It is 0 exactly when the
    configuration loads and the source directory can be listed, before and
    after the renaming: no failure of a post, of the index or of the feed
    changes it.  When the configuration does not load, [main] stops with
    status 1 before touching any file; without a [config.json] the whole
    world is as before. *)
Theorem main_exit_status (w : World) :
  let w1 := snd (readConfig w) in
  let w2 := snd (prepare w1) in
  let pattern := SourceDir (config w1) +:+ "/*.md" in
  (fst (main w) = 0%Z \/ fst (main w) = 1%Z)
  /\ (fst (main w) = 0%Z <->
      fst (readConfig w) = None
      /\ (exists l, Glob (files w1) pattern = inl l)
      /\ (exists l, Glob (files w2) pattern = inl l))
  /\ (fst (readConfig w) <> None ->
      fst (main w) = 1%Z /\ files (snd (main w)) = files w
      /\ rendered (snd (main w)) = rendered w)
  /\ (files w !! "config.json" = None -> main w = (1%Z, w)).
Proof.
  intros w1 w2 pattern. rewrite main_eq. cbv zeta. fold w1. fold w2.
  destruct (prepare_result w1) as (Hc2 & Hprep). fold w2 in Hc2. fold pattern in Hprep.
  rewrite Hc2. fold pattern.
  assert (Hw1 : files w1 = files w /\ rendered w1 = rendered w).
  { unfold w1. rewrite readConfig_eq. now destruct (files w !! "config.json"). }
  assert (Hmissing : files w !! "config.json" = None ->
                     readConfig w = (Some (PathError "open" "config.json"), w)).
  { intros E. rewrite readConfig_eq. now rewrite E. }
  destruct (fst (readConfig w)) as [err |] eqn:Hcfg.
  { split; [now right |]. split; [split; [discriminate | intros (E & _); discriminate] |].
    split; [intros _; simpl; tauto |].
    intros E. unfold w1. now rewrite (Hmissing E). }
  destruct (Glob (files w1) pattern) as [l1 | e1] eqn:G1.
  - rewrite Hprep.
    destruct (Glob (files w2) pattern) as [l2 | e2] eqn:G2.
    + rewrite publish_exit. split; [now left |].
      split; [split; eauto |]. split; [congruence |].
      intros E. rewrite (Hmissing E) in Hcfg. discriminate.
    + simpl. split; [now right |].
      split; [split; [discriminate | intros (_ & _ & l & E); discriminate] |].
      split; [congruence |].
      intros E. rewrite (Hmissing E) in Hcfg. discriminate.
  - rewrite Hprep. simpl. split; [now right |].
    split; [split; [discriminate | intros (_ & (l & E) & _); discriminate] |].
    split; [congruence |].
    intros E. rewrite (Hmissing E) in Hcfg. discriminate.
Qed.

End Prepare.

(** ** Calendar order *)

Lemma month_cases (m : Z) :
  (1 <= m <= 12)%Z ->
  In m [1; 2; 3; 4; 5; 6; 7; 8; 9; 10; 11; 12]%Z.
Proof. intros Hm. simpl. lia. Qed.

Lemma daysSinceEpoch_same_year (y m1 d1 m2 d2 : Z) :
  (1 <= m1 <= 12)%Z -> (1 <= m2 <= 12)%Z ->
  (1 <= d1 <= Time.daysIn m1 y)%Z -> (1 <= d2 <= Time.daysIn m2 y)%Z ->
  (m1 < m2)%Z ->
  (Time.daysSinceEpoch y m1 d1 < Time.daysSinceEpoch y m2 d2)%Z.
Proof.
  intros H1 H2 Hd1 Hd2 Hlt. unfold Time.daysSinceEpoch. cbv zeta.
  set (base := (365 * (y - 1) + (y - 1) / 4 - (y - 1) / 100 + (y - 1) / 400)%Z).
  clearbody base.
  apply month_cases in H1, H2. simpl in H1, H2.
  unfold Time.daysIn in *.
  destruct H1 as [<-|[<-|[<-|[<-|[<-|[<-|[<-|[<-|[<-|[<-|[<-|[<-|[]]]]]]]]]]]]];
    destruct H2 as [<-|[<-|[<-|[<-|[<-|[<-|[<-|[<-|[<-|[<-|[<-|[<-|[]]]]]]]]]]]]];
    try (exfalso; lia);
    repeat match goal with
           | |- context [Time.daysBefore ?k] =>
               let v := eval vm_compute in (Time.daysBefore k) in
               change (Time.daysBefore k) with v
           end;
    destruct (Time.isLeap y); cbn in *; lia.
Qed.

Lemma yearStart_step (y : Z) :
  let start := fun y => (365 * (y - 1) + (y - 1) / 4 - (y - 1) / 100 + (y - 1) / 400)%Z in
  (start (y + 1) = start y + (if Time.isLeap y then 366 else 365))%Z.
Proof.
  cbv zeta beta. unfold Time.isLeap.
  replace (y + 1 - 1)%Z with y by lia.
  destruct (y mod 4 =? 0)%Z eqn:E4; destruct (y mod 100 =? 0)%Z eqn:E100;
    destruct (y mod 400 =? 0)%Z eqn:E400; cbn [andb orb negb];
    rewrite ?Z.eqb_eq, ?Z.eqb_neq in *; Z.div_mod_to_equations; lia.
Qed.

Lemma yearStart_mono (y1 y2 : Z) :
  (y1 <= y2)%Z ->
  (365 * (y1 - 1) + (y1 - 1) / 4 - (y1 - 1) / 100 + (y1 - 1) / 400
   <= 365 * (y2 - 1) + (y2 - 1) / 4 - (y2 - 1) / 100 + (y2 - 1) / 400)%Z.
Proof. intros Hle. Z.div_mod_to_equations. lia. Qed.

Lemma dayOfYear_bound (y m d : Z) :
  (1 <= m <= 12)%Z -> (1 <= d <= Time.daysIn m y)%Z ->
  (0 <= Time.daysBefore m + (if Time.isLeap y && (2 <? m)%Z then 1 else 0) + (d - 1)
   < if Time.isLeap y then 366 else 365)%Z.
Proof.
  intros Hm Hd. apply month_cases in Hm. simpl in Hm. unfold Time.daysIn in *.
  destruct Hm as [<-|[<-|[<-|[<-|[<-|[<-|[<-|[<-|[<-|[<-|[<-|[<-|[]]]]]]]]]]]]];
    repeat match goal with
           | |- context [Time.daysBefore ?k] =>
               let v := eval vm_compute in (Time.daysBefore k) in
               change (Time.daysBefore k) with v
           end;
    destruct (Time.isLeap y); cbn in *; lia.
Qed.

Lemma daysSinceEpoch_later_year (y1 m1 d1 y2 m2 d2 : Z) :
  (1 <= m1 <= 12)%Z -> (1 <= m2 <= 12)%Z ->
  (1 <= d1 <= Time.daysIn m1 y1)%Z -> (1 <= d2 <= Time.daysIn m2 y2)%Z ->
  (y1 < y2)%Z ->
  (Time.daysSinceEpoch y1 m1 d1 < Time.daysSinceEpoch y2 m2 d2)%Z.
Proof.
  intros H1 H2 Hd1 Hd2 Hlt. unfold Time.daysSinceEpoch. cbv zeta.
  pose proof (dayOfYear_bound y1 m1 d1 H1 Hd1) as B1.
  pose proof (dayOfYear_bound y2 m2 d2 H2 Hd2) as B2.
  pose proof (yearStart_step y1) as S1. cbv zeta beta in S1.
  pose proof (yearStart_mono (y1 + 1) y2 ltac:(lia)) as M.
  destruct (Time.isLeap y1); lia.
Qed.

Lemma daysSinceEpoch_later (y1 m1 d1 y2 m2 d2 : Z) :
  validDate y1 m1 d1 -> validDate y2 m2 d2 ->
  laterDay y2 m2 d2 y1 m1 d1 ->
  (Time.daysSinceEpoch y1 m1 d1 < Time.daysSinceEpoch y2 m2 d2)%Z.
Proof.
  intros (_ & Hm1 & Hd1) (_ & Hm2 & Hd2) [Hy | (-> & [Hm | (-> & Hd)])].
  - now apply daysSinceEpoch_later_year.
  - now apply daysSinceEpoch_same_year.
  - unfold Time.daysSinceEpoch. lia.
Qed.

(** X14. On days of the calendar the order of [Posts.Less] is the order
    of the calendar: for two posts whose dates were parsed from the days
    [(y1, m1, d1)] and [(y2, m2, d2)], [Less(i, j)] holds exactly when the
    first day comes after the second (later year, or same year and later
    month, or same month and later day). *)
Theorem Posts_Less_is_calendar_order (posts : Posts) (i j : nat) (pi pj : Post)
    (y1 m1 d1 y2 m2 d2 : Z) :
  posts !! i = Some pi -> posts !! j = Some pj ->
  validDate y1 m1 d1 -> validDate y2 m2 d2 ->
  Date pi = Time.Date y1 m1 d1 -> Date pj = Time.Date y2 m2 d2 ->
  (Posts_Less posts i j = Some true <-> laterDay y1 m1 d1 y2 m2 d2).
Proof.
  intros Hi Hj V1 V2 D1 D2.
  unfold Posts_Less. rewrite Hi, Hj, D1, D2.
  unfold Time.After, Time.Date. cbn [Time.abs]. unfold Time.nanosPerDay.
  split.
  - intros [= E]. apply Z.ltb_lt in E.
    assert (Hlt : (Time.daysSinceEpoch y2 m2 d2 < Time.daysSinceEpoch y1 m1 d1)%Z) by lia.
    destruct (Z.lt_total y2 y1) as [? | [-> | Hy]]; [now left | |].
    + destruct (Z.lt_total m2 m1) as [? | [-> | Hm]]; [right; auto | |].
      * destruct (Z.lt_total d2 d1) as [? | [-> | Hd]]; [right; auto | lia |].
        assert (laterDay y1 m1 d2 y1 m1 d1) by (right; auto).
        pose proof (daysSinceEpoch_later y1 m1 d1 y1 m1 d2 V1 V2 H). lia.
      * assert (laterDay y1 m2 d2 y1 m1 d1) by (right; auto).
        pose proof (daysSinceEpoch_later y1 m1 d1 y1 m2 d2 V1 V2 H). lia.
    + assert (laterDay y2 m2 d2 y1 m1 d1) by (now left).
      pose proof (daysSinceEpoch_later y1 m1 d1 y2 m2 d2 V1 V2 H). lia.
  - intros Hlater. f_equal. apply Z.ltb_lt.
    pose proof (daysSinceEpoch_later y2 m2 d2 y1 m1 d1 V2 V1 Hlater). lia.
Qed.

Lemma Posts_Less_is_calendar_order_witness :
  Posts_Less [post2020; post2022; post2021] 1 2 = Some true
  <-> laterDay 2022 6 15 2021 3 3.
Proof.
  apply (Posts_Less_is_calendar_order [post2020; post2022; post2021] 1 2
           post2022 post2021 2022 6 15 2021 3 3);
    first [reflexivity | unfold validDate; cbn; lia].
Defined.

(** ** The day of a time *)

Lemma isLeap_cycle (y k : Z) : Time.isLeap (y + 400 * k) = Time.isLeap y.
Proof.
  unfold Time.isLeap.
  replace ((y + 400 * k) mod 4)%Z with (y mod 4)%Z
    by (replace (y + 400 * k)%Z with (y + (100 * k) * 4)%Z by lia;
        now rewrite Z_mod_plus_full).
  replace ((y + 400 * k) mod 100)%Z with (y mod 100)%Z
    by (replace (y + 400 * k)%Z with (y + (4 * k) * 100)%Z by lia;
        now rewrite Z_mod_plus_full).
  replace ((y + 400 * k) mod 400)%Z with (y mod 400)%Z
    by (replace (y + 400 * k)%Z with (y + k * 400)%Z by lia;
        now rewrite Z_mod_plus_full).
  reflexivity.
Qed.

(** The year and the day of the year, both counted from a first of
    March, of the day [doe] of a cycle of 400 years: the day 365 only
    occurs when the next year of the calendar is a leap year. *)
Lemma year_of_cycle (doe : Z) :
  (0 <= doe <= 146096)%Z ->
  let yoe := ((doe - doe / 1460 + doe / 36524 - doe / 146096) / 365)%Z in
  let doy := (doe - (365 * yoe + yoe / 4 - yoe / 100))%Z in
  (0 <= yoe <= 399 /\ 0 <= doy <= 365)%Z
  /\ (doy = 365%Z -> Time.isLeap (yoe + 1) = true).
Proof.
  intros Hdoe yoe doy.
  assert (H : (0 <= yoe <= 399 /\ 0 <= doy <= 365
               /\ (doy = 365 ->
                   (yoe + 1) mod 4 = 0
                   /\ ((yoe + 1) mod 100 <> 0 \/ (yoe + 1) mod 400 = 0)))%Z).
  { subst doy yoe. Z.div_mod_to_equations. lia. }
  destruct H as (Hy & Hd & Hleap). split; [split; assumption |].
  intros E. destruct (Hleap E) as (H4 & H100). unfold Time.isLeap.
  apply andb_true_iff. split; [now apply Z.eqb_eq |].
  apply orb_true_iff. destruct H100 as [H100 | H400].
  - left. apply negb_true_iff. now apply Z.eqb_neq.
  - right. now apply Z.eqb_eq.
Qed.

(** The month and the day of the month of the day [doy] of a year that
    begins on a first of March. *)
Lemma month_of_year (doy y : Z) :
  (0 <= doy <= 365)%Z ->
  (doy = 365%Z -> Time.isLeap y = true) ->
  let mp := ((5 * doy + 2) / 153)%Z in
  let d := (doy - (153 * mp + 2) / 5 + 1)%Z in
  let m := (if mp <? 10 then mp + 3 else mp - 9)%Z in
  ((m <= 2 <-> 306 <= doy) /\ 1 <= m <= 12 /\ 1 <= d <= Time.daysIn m y)%Z.
Proof.
  intros Hdoy Hleap mp d m.
  assert (Hmp : (0 <= mp <= 11)%Z) by (subst mp; Z.div_mod_to_equations; lia).
  assert (Hcases : In mp [0; 1; 2; 3; 4; 5; 6; 7; 8; 9; 10; 11]%Z)
    by (simpl; lia).
  assert (Hfeb : Time.isLeap y = false -> doy <> 365%Z)
    by (intros L E; rewrite (Hleap E) in L; discriminate).
  unfold Time.daysIn. subst d m. simpl in Hcases. clear Hleap.
  destruct (Time.isLeap y); [clear Hfeb | specialize (Hfeb eq_refl)];
    destruct Hcases as [E|[E|[E|[E|[E|[E|[E|[E|[E|[E|[E|[E|[]]]]]]]]]]]]];
    rewrite <- E;
    repeat match goal with
           | |- context [(?a <? ?b)%Z] => destruct (Z.ltb_spec a b)
           | |- context [(?a =? ?b)%Z] => destruct (Z.eqb_spec a b)
           end;
    try (exfalso; lia); cbn [orb];
    subst mp; Z.div_mod_to_equations; lia.
Qed.

Lemma civil_valid (n : Z) :
  let '(y, m, d) := Time.civil n in
  (1 <= m <= 12 /\ 1 <= d <= Time.daysIn m y)%Z.
Proof.
  unfold Time.civil. cbv zeta.
  set (era := ((n + 306) / 146097)%Z).
  set (doe := (n + 306 - era * 146097)%Z).
  assert (Hdoe : (0 <= doe <= 146096)%Z)
    by (subst doe era; Z.div_mod_to_equations; lia).
  pose proof (year_of_cycle doe Hdoe) as Hyear. cbv zeta in Hyear.
  set (yoe := ((doe - doe / 1460 + doe / 36524 - doe / 146096) / 365)%Z) in *.
  set (doy := (doe - (365 * yoe + yoe / 4 - yoe / 100))%Z) in *.
  destruct Hyear as ((Hyoe & Hdoy) & Hleap).
  set (mp := ((5 * doy + 2) / 153)%Z).
  set (m := (if mp <? 10 then mp + 3 else mp - 9)%Z).
  set (y := (yoe + era * 400 + (if m <=? 2 then 1 else 0))%Z).
  assert (Hy : doy = 365%Z -> Time.isLeap y = true).
  { intros E. pose proof (month_of_year doy 0 Hdoy) as Hm. cbv zeta in Hm.
    fold mp in Hm. fold m in Hm.
    assert (Hm2 : (m <= 2)%Z).
    { clear Hm. subst m mp. rewrite E. reflexivity. }
    subst y. replace (m <=? 2)%Z with true by lia.
    replace (yoe + era * 400 + 1)%Z with (yoe + 1 + 400 * era)%Z by lia.
    rewrite isLeap_cycle. now apply Hleap. }
  pose proof (month_of_year doy y Hdoy Hy) as Hm. cbv zeta in Hm.
  fold mp in Hm. fold m in Hm. tauto.
Qed.

Lemma digits_last (fuel : nat) (k : Z) (acc : string) :
  (0 <= k < 10)%Z ->
  Time.digits (S fuel) k acc = String (Time.digitChar k) acc.
Proof.
  intros Hk. cbn [Time.digits]. cbv zeta.
  replace (k <? 10)%Z with true by lia. now rewrite Z.mod_small by lia.
Qed.

Lemma digits_more (fuel : nat) (k : Z) (acc : string) :
  (10 <= k)%Z ->
  Time.digits (S fuel) k acc
  = Time.digits fuel (k / 10) (String (Time.digitChar (k mod 10)) acc).
Proof.
  intros Hk. cbn [Time.digits]. cbv zeta. now replace (k <? 10)%Z with false by lia.
Qed.

Lemma appendInt_fuel (k : Z) : (10 <= k)%Z -> 3 <= Z.to_nat (Z.log2 k).
Proof.
  intros Hk. pose proof (Z.log2_le_mono 10 k Hk) as Hlog.
  change (Z.log2 10) with 3%Z in Hlog. lia.
Qed.

Ltac same_digits :=
  repeat (apply (f_equal2 String);
          [apply (f_equal Time.digitChar); Z.div_mod_to_equations; lia |]);
  reflexivity.

(** [appendInt] writes a number below 10000 with four digits, and a
    number below 100 with two digits when asked for two. *)
Lemma appendInt_digits (k : Z) :
  (0 <= k <= 9999)%Z ->
  Time.appendInt k 4 = fourDigits k
  /\ ((k < 100)%Z -> Time.appendInt k 2 = twoDigits k).
Proof.
  intros Hk. unfold Time.appendInt. cbv zeta.
  rewrite (Z.abs_eq k) by lia. replace (k <? 0)%Z with false by lia.
  change ("" +:+ ?s) with s.
  destruct (Z_lt_le_dec k 10) as [H10 | H10].
  { rewrite digits_last by lia. cbn [String.length Nat.sub Time.zeros String.append].
    change "0"%char with (Time.digitChar 0). unfold fourDigits, twoDigits.
    split; [| intros _]; same_digits. }
  pose proof (appendInt_fuel k H10) as Hfuel.
  destruct (Z.to_nat (Z.log2 k)) as [|[|[|fuel]]]; try lia. clear Hfuel.
  rewrite digits_more by lia.
  destruct (Z_lt_le_dec k 100) as [H100 | H100].
  { rewrite digits_last by (Z.div_mod_to_equations; lia).
    cbn [String.length Nat.sub Time.zeros String.append].
    change "0"%char with (Time.digitChar 0). unfold fourDigits, twoDigits.
    split; [| intros _]; same_digits. }
  split; [| lia].
  rewrite digits_more by (Z.div_mod_to_equations; lia).
  destruct (Z_lt_le_dec k 1000) as [H1000 | H1000].
  { rewrite digits_last by (Z.div_mod_to_equations; lia).
    cbn [String.length Nat.sub Time.zeros String.append].
    change "0"%char with (Time.digitChar 0). unfold fourDigits, twoDigits.
    same_digits. }
  rewrite digits_more by (Z.div_mod_to_equations; lia).
  rewrite digits_last by (Z.div_mod_to_equations; lia).
  cbn [String.length Nat.sub Time.zeros String.append].
  unfold fourDigits, twoDigits.
  same_digits.
Qed.

(** The text that [Format] writes for a time whose year has at most four
    digits is the date of its day, and that day is a day of the
    calendar. *)
Lemma Format_dateString (t : Time.Time) (y m d : Z) :
  Time.dateOf t = (y, m, d) -> (0 <= y <= 9999)%Z ->
  validDate y m d /\ Time.Format_2006_01_02 t = dateString y m d.
Proof.
  intros Hdate Hy.
  pose proof (civil_valid ((Time.abs t / 1000000000 + Time.offset t) / 86400)) as Hc.
  unfold Time.dateOf in Hdate. rewrite Hdate in Hc. destruct Hc as (Hm & Hd).
  pose proof (daysIn_le_31 m y) as H31.
  split; [repeat split; lia |].
  unfold Time.Format_2006_01_02, Time.dateOf. rewrite Hdate.
  destruct (appendInt_digits y Hy) as [-> _].
  destruct (appendInt_digits m ltac:(lia)) as [_ ->]; [| lia].
  destruct (appendInt_digits d ltac:(lia)) as [_ ->]; [| lia].
  reflexivity.
Qed.

(** ** Names and directories *)

Lemma ContainsByte_app (a b : string) (c : ascii) :
  Strings.ContainsByte (a +:+ b) c
  = Strings.ContainsByte a c || Strings.ContainsByte b c.
Proof.
  induction a as [|x a IH]; simpl; [reflexivity |].
  now rewrite IH, orb_assoc.
Qed.

Lemma app_inv_tail_string (s s' t : string) : s +:+ t = s' +:+ t -> s = s'.
Proof.
  revert s'. induction s as [|c s IH]; intros [|c' s'] E; simpl in E.
  - reflexivity.
  - apply (f_equal String.length) in E. simpl in E.
    rewrite length_app_string in E. lia.
  - apply (f_equal String.length) in E. simpl in E.
    rewrite length_app_string in E. lia.
  - injection E as -> E. f_equal. now apply IH.
Qed.

Lemma lastByte_app (s t : string) :
  t <> "" -> Strings.lastByte (s +:+ t) = Strings.lastByte t.
Proof.
  intros Ht. induction s as [|c s IH]; [reflexivity |].
  simpl. destruct (s +:+ t) eqn:E; [| exact IH].
  destruct s; [simpl in E; contradiction | discriminate].
Qed.

Lemma lastByte_some (s : string) : s <> "" -> exists c, Strings.lastByte s = Some c.
Proof.
  induction s as [|c s IH]; [contradiction |]. intros _.
  destruct s as [|d s]; [now exists c |].
  destruct IH as (l & Hl); [discriminate |]. exists l. exact Hl.
Qed.

Lemma lastByte_in (s : string) (c : ascii) :
  Strings.lastByte s = Some c -> Strings.ContainsByte s c = true.
Proof.
  induction s as [|x s IH]; [discriminate |].
  destruct s as [|d s].
  - intros [= ->]. simpl. now rewrite Ascii.eqb_refl.
  - intros Hl. cbn [Strings.ContainsByte] in *. cbn [Strings.lastByte] in Hl.
    rewrite (IH Hl). apply orb_true_r.
Qed.

Lemma TrimRight_keep (s cutset : string) (c : ascii) :
  Strings.lastByte s = Some c -> Strings.ContainsByte cutset c = false ->
  Strings.TrimRight s cutset = s.
Proof.
  intros Hl Hc. induction s as [|x s IH]; [reflexivity |].
  destruct s as [|d s].
  - injection Hl as ->. simpl. now rewrite Hc.
  - assert (E : Strings.TrimRight (String d s) cutset = String d s)
      by (apply IH; exact Hl).
    change (Strings.TrimRight (String x (String d s)) cutset)
      with (match Strings.TrimRight (String d s) cutset with
            | EmptyString => if Strings.ContainsByte cutset x then EmptyString
                             else String x EmptyString
            | r => String x r
            end).
    now rewrite E.
Qed.

Lemma separator_only (c : ascii) :
  c <> "/"%char -> Strings.ContainsByte "/" c = false.
Proof.
  intros Hc. cbn [Strings.ContainsByte].
  destruct (Ascii.eqb_spec "/" c) as [E | _]; [now symmetry in E | reflexivity].
Qed.

Lemma TrimRight_separator (x : string) :
  Strings.ContainsByte x "/" = false -> Strings.TrimRight x "/" = x.
Proof.
  intros Hx. destruct x as [|c x]; [reflexivity |].
  destruct (lastByte_some (String c x)) as (l & Hl); [discriminate |].
  apply (TrimRight_keep _ _ l Hl). apply separator_only.
  intros ->. apply lastByte_in in Hl. congruence.
Qed.

Lemma lastElement_name (x : string) :
  Strings.ContainsByte x "/" = false -> Filepath.lastElement x = (x, false).
Proof.
  induction x as [|c x IH]; [reflexivity |].
  cbn [Strings.ContainsByte Filepath.lastElement].
  intros [Hc Hx]%orb_false_iff. rewrite (IH Hx).
  unfold Filepath.IsPathSeparator, Filepath.Separator. now rewrite Hc.
Qed.

Lemma lastElement_dir (p x : string) :
  Strings.ContainsByte x "/" = false ->
  Filepath.lastElement (p +:+ String "/" x) = (x, true).
Proof.
  intros Hx. induction p as [|c p IH].
  - change ("" +:+ String "/" x) with (String "/" x).
    cbn [Filepath.lastElement]. now rewrite (lastElement_name x Hx).
  - change (String c p +:+ String "/" x) with (String c (p +:+ String "/" x)).
    cbn [Filepath.lastElement]. now rewrite IH.
Qed.

Lemma lastElement_separator (s : string) :
  Strings.ContainsByte (fst (Filepath.lastElement s)) "/" = false.
Proof.
  induction s as [|c s IH]; [reflexivity |]. cbn [Filepath.lastElement].
  destruct (Filepath.lastElement s) as [e sep]. cbn [fst] in IH.
  destruct sep; [exact IH |].
  unfold Filepath.IsPathSeparator, Filepath.Separator.
  destruct (Ascii.eqb c "/") eqn:Hc; [exact IH |].
  cbn [fst Strings.ContainsByte]. rewrite Hc. exact IH.
Qed.

Lemma lastElement_app (s t : string) :
  Strings.ContainsByte t "/" = false ->
  Filepath.lastElement (s +:+ t)
  = (fst (Filepath.lastElement s) +:+ t, snd (Filepath.lastElement s)).
Proof.
  intros Ht. induction s as [|c s IH].
  - change ("" +:+ t) with t. now rewrite (lastElement_name t Ht).
  - change (String c s +:+ t) with (String c (s +:+ t)).
    cbn [Filepath.lastElement]. rewrite IH.
    destruct (Filepath.lastElement s) as [e sep]. cbn [fst snd].
    destruct sep; [reflexivity |].
    now destruct (Filepath.IsPathSeparator c).
Qed.

Lemma Base_last (path : string) :
  Strings.TrimRight path "/" = path ->
  fst (Filepath.lastElement path) <> "" ->
  Filepath.Base path = fst (Filepath.lastElement path).
Proof.
  intros Htrim Hne. unfold Filepath.Base.
  destruct path as [|c path]; [now simpl in Hne |].
  rewrite Htrim. now destruct (fst (Filepath.lastElement (String c path))).
Qed.

Lemma Base_separator (path : string) :
  Filepath.Base path = "/" \/ Strings.ContainsByte (Filepath.Base path) "/" = false.
Proof.
  unfold Filepath.Base. destruct path as [|c path]; [now right |].
  pose proof (lastElement_separator (Strings.TrimRight (String c path) "/")) as Hs.
  destruct (fst (Filepath.lastElement (Strings.TrimRight (String c path) "/")));
    [now left | now right].
Qed.

Lemma Base_dir (p x : string) :
  x <> "" -> Strings.ContainsByte x "/" = false ->
  Filepath.Base (p +:+ String "/" x) = x.
Proof.
  intros Hne Hx.
  rewrite Base_last; rewrite ?lastElement_dir by exact Hx; auto.
  destruct (lastByte_some x Hne) as (l & Hl).
  apply (TrimRight_keep _ _ l).
  - rewrite (lastByte_app p (String "/" x)) by discriminate.
    destruct x; [contradiction | exact Hl].
  - apply separator_only. intros ->. apply lastByte_in in Hl. congruence.
Qed.

Lemma Base_name (x : string) :
  x <> "" -> Strings.ContainsByte x "/" = false -> Filepath.Base x = x.
Proof.
  intros Hne Hx.
  rewrite Base_last; rewrite ?lastElement_name by exact Hx; auto.
  now apply TrimRight_separator.
Qed.

Lemma SplitByte_name (x : string) :
  Strings.ContainsByte x "/" = false -> Strings.SplitByte x "/" = [x].
Proof.
  induction x as [|c x IH]; [reflexivity |].
  cbn [Strings.ContainsByte Strings.SplitByte].
  intros [Hc Hx]%orb_false_iff. rewrite Hc. now rewrite (IH Hx).
Qed.

Lemma SplitByte_app (a b : string) :
  Strings.SplitByte (a +:+ String "/" b) "/"
  = Strings.SplitByte a "/" ++ Strings.SplitByte b "/".
Proof.
  induction a as [|c a IH].
  { change ("" +:+ String "/" b) with (String "/" b).
    cbn [Strings.SplitByte]. now rewrite Ascii.eqb_refl. }
  change (String c a +:+ String "/" b) with (String c (a +:+ String "/" b)).
  cbn [Strings.SplitByte].
  rewrite IH. destruct (Ascii.eqb c "/"); [reflexivity |].
  pose proof (SplitByte_nonempty a "/") as Hne.
  now destruct (Strings.SplitByte a "/").
Qed.

Lemma Join_snoc (l : list string) (x sep : string) :
  l <> [] ->
  Strings.Join (l ++ [x]) sep = Strings.Join l sep +:+ sep +:+ x.
Proof.
  induction l as [|e l IH]; [contradiction |]. intros _.
  destruct l as [|e' l]; [reflexivity |].
  change (Strings.Join ((e :: e' :: l) ++ [x]) sep)
    with (e +:+ sep +:+ Strings.Join ((e' :: l) ++ [x]) sep).
  rewrite IH by discriminate.
  change (Strings.Join (e :: e' :: l) sep)
    with (e +:+ sep +:+ Strings.Join (e' :: l) sep).
  now rewrite !app_assoc_string.
Qed.

Lemma cleanStep_name (rooted : bool) (out : list string) (x : string) :
  x <> "" -> x <> "." -> x <> ".." -> Filepath.cleanStep rooted out x = x :: out.
Proof.
  intros H1 H2 H3. unfold Filepath.cleanStep.
  apply String.eqb_neq in H1, H2, H3. now rewrite H1, H2, H3.
Qed.

Lemma Clean_eq (path : string) :
  path <> "" ->
  Filepath.Clean path =
    let rooted := match path with
                  | String c _ => Filepath.IsPathSeparator c
                  | EmptyString => false
                  end in
    let body := Strings.Join
                  (rev (fold_left (Filepath.cleanStep rooted)
                                  (Strings.SplitByte path "/") [])) "/" in
    if rooted then "/" +:+ body
    else match body with EmptyString => "." | _ => body end.
Proof. destruct path; [contradiction | reflexivity]. Qed.

(** Joining a directory and an entry name gives a path whose last
    element is that name. *)
Lemma Join_entry (a x : string) :
  entryName x ->
  Filepath.Join a x = x \/ exists q, Filepath.Join a x = q +:+ String "/" x.
Proof.
  intros (Hx & H1 & H2 & H3).
  assert (Hclean : forall path pieces,
             path <> "" ->
             Strings.SplitByte path "/" = pieces ++ [x] ->
             Filepath.Clean path = x
             \/ exists q, Filepath.Clean path = q +:+ String "/" x).
  { intros path pieces Hne Hsplit. rewrite (Clean_eq path Hne). cbv zeta.
    rewrite Hsplit, fold_left_app. cbn [fold_left].
    rewrite cleanStep_name by assumption. cbn [rev].
    set (rooted := match path with
                   | String c _ => Filepath.IsPathSeparator c
                   | EmptyString => false
                   end).
    destruct (rev (fold_left (Filepath.cleanStep rooted) pieces [])) as [|e l] eqn:E.
    - cbn [app Strings.Join]. destruct rooted.
      + right. now exists "".
      + left. now destruct x.
    - rewrite Join_snoc by discriminate.
      change ("/" +:+ x) with (String "/" x).
      destruct rooted.
      + right. exists ("/" +:+ Strings.Join (e :: l) "/").
        now rewrite app_assoc_string.
      + right. exists (Strings.Join (e :: l) "/").
        destruct (Strings.Join (e :: l) "/" +:+ String "/" x) eqn:E'; [| reflexivity].
        destruct (Strings.Join (e :: l) "/"); discriminate. }
  unfold Filepath.Join. destruct a as [|c a].
  - destruct x as [|d x]; [contradiction |].
    apply (Hclean _ []); [discriminate |]. now apply SplitByte_name.
  - change (String c a +:+ "/" +:+ x) with (String c a +:+ String "/" x).
    apply (Hclean _ (Strings.SplitByte (String c a) "/")).
    + discriminate.
    + rewrite SplitByte_app. now rewrite (SplitByte_name x Hx).
Qed.

Lemma Base_Join (a x : string) : entryName x -> Filepath.Base (Filepath.Join a x) = x.
Proof.
  intros Hx. destruct (Join_entry a x Hx) as [-> | (q & ->)];
    destruct Hx as (Hs & Hne & _).
  - now apply Base_name.
  - now apply Base_dir.
Qed.

Lemma entryName_long (x : string) :
  Strings.ContainsByte x "/" = false -> 3 <= String.length x -> entryName x.
Proof.
  intros Hx Hlen. split; [exact Hx |].
  repeat split; intros ->; simpl in Hlen; lia.
Qed.

Lemma trimPath_separator (path : string) :
  Filepath.Base path <> "/" -> Strings.ContainsByte (trimPath path) "/" = false.
Proof.
  intros Hbase. destruct (Base_separator path) as [? | Hs]; [contradiction |].
  unfold trimPath. cbv zeta.
  destruct (TrimRight_split (Filepath.Base path) (Filepath.Ext (Filepath.Base path)))
    as (t & Ht & _).
  rewrite Ht, ContainsByte_app in Hs. now apply orb_false_iff in Hs as [Hs _].
Qed.

Lemma page_entry (path : string) :
  Filepath.Base path <> "/" -> entryName (trimPath path +:+ ".html").
Proof.
  intros Hbase. apply entryName_long.
  - rewrite ContainsByte_app, (trimPath_separator path Hbase). reflexivity.
  - rewrite length_app_string. simpl. lia.
Qed.

(** X15. The page of a source file is the entry [slug.html] of the
    output directory, whatever that directory is.  So the pages of two
    source files are the same file exactly when their slugs are equal,
    and a page is the file of the index or of the feed exactly when the
    slug is [index] or [feed].  (A path made of separators only has the
    slug [/] and is left out.) *)
Theorem pages_named_after_slugs (cfg : Config) (a b : string) :
  Filepath.Base a <> "/" -> Filepath.Base b <> "/" ->
  Filepath.Base (pagePath cfg a) = trimPath a +:+ ".html"
  /\ (pagePath cfg a = pagePath cfg b <-> trimPath a = trimPath b)
  /\ (pagePath cfg a = Filepath.Join (OutputDir cfg) "index.html"
      <-> trimPath a = "index")
  /\ (pagePath cfg a = Filepath.Join (OutputDir cfg) "feed.html"
      <-> trimPath a = "feed").
Proof.
  intros Ha Hb.
  pose proof (Base_Join (OutputDir cfg) _ (page_entry a Ha)) as Ea.
  pose proof (Base_Join (OutputDir cfg) _ (page_entry b Hb)) as Eb.
  fold (pagePath cfg a) in Ea. fold (pagePath cfg b) in Eb.
  split; [exact Ea |]. split; [| split].
  - split; [| unfold pagePath; now intros ->].
    intros E. rewrite E, Eb in Ea. symmetry. now apply app_inv_tail_string in Ea.
  - split; [| unfold pagePath; now intros ->].
    intros E. rewrite E in Ea.
    rewrite (Base_Join (OutputDir cfg) "index.html") in Ea
      by (apply entryName_long; [reflexivity | simpl; lia]).
    symmetry in Ea. now apply (app_inv_tail_string _ "index" ".html").
  - split; [| unfold pagePath; now intros ->].
    intros E. rewrite E in Ea.
    rewrite (Base_Join (OutputDir cfg) "feed.html") in Ea
      by (apply entryName_long; [reflexivity | simpl; lia]).
    symmetry in Ea. now apply (app_inv_tail_string _ "feed" ".html").
Qed.

Lemma pages_named_after_slugs_witness :
  pagePath Demo.configSeparate "src/2021-03-05-cmd.md"
  = pagePath Demo.configSeparate "src/2021-03-05-c.md"
  <-> trimPath "src/2021-03-05-cmd.md" = trimPath "src/2021-03-05-c.md".
Proof.
  apply (pages_named_after_slugs Demo.configSeparate
           "src/2021-03-05-cmd.md" "src/2021-03-05-c.md"); discriminate.
Defined.

(** ** The names given by [prepare] *)

Lemma Ext_md (s : string) : Filepath.Ext (s +:+ ".md") = ".md".
Proof.
  induction s as [|c s IH]; [reflexivity |].
  change (String c s +:+ ".md") with (String c (s +:+ ".md")).
  cbn [Filepath.Ext]. now rewrite IH.
Qed.

Lemma digit_separator (c : ascii) :
  Time.isDigit c = true -> Ascii.eqb c "/" = false.
Proof.
  intros Hc. destruct (Ascii.eqb_spec c "/") as [-> | _]; [discriminate | reflexivity].
Qed.

Lemma dateString_separator (y m d : Z) :
  validDate y m d -> Strings.ContainsByte (dateString y m d) "/" = false.
Proof.
  intros Hvalid.
  destruct (date_digit_ranges y m d Hvalid) as (H1 & H2 & H3 & H4 & H5 & H6 & H7 & H8).
  apply digitChar_facts in H1 as (_ & D1 & _), H2 as (_ & D2 & _),
    H3 as (_ & D3 & _), H4 as (_ & D4 & _), H5 as (_ & D5 & _),
    H6 as (_ & D6 & _), H7 as (_ & D7 & _), H8 as (_ & D8 & _).
  apply digit_separator in D1, D2, D3, D4, D5, D6, D7, D8.
  rewrite <- (app_nil_r_string (dateString y m d)), dateString_bytes.
  unfold dateBytes. cbn [Strings.ContainsByte String.append].
  rewrite D1, D2, D3, D4, D5, D6, D7, D8. reflexivity.
Qed.

Section Dated.

Context `{Runtime}.

(** X16. A name given by [prepare] is kept by the next run.  For a
    source file with the extension [.md] that is renamed when the clock
    reads [now], a time whose year has at most four digits: the slug of
    the new name is the date of [now], a dash and the old slug; the
    extension is still [.md]; [parseDate] reads that date back from the
    new slug without error; and so [prepare] leaves the file alone. *)
Theorem prepare_keeps_dated_name (cfg : Config) (now : Time.Time)
    (srcFile : string) (y m d : Z) (w : World) :
  Filepath.Ext srcFile = ".md" ->
  Time.dateOf now = (y, m, d) -> (0 <= y <= 9999)%Z ->
  let newname := datedName cfg now srcFile in
  trimPath newname = dateString y m d +:+ "-" +:+ trimPath srcFile
  /\ Filepath.Ext newname = ".md"
  /\ parseDate (trimPath newname) w = ((Time.Date y m d, None), w)
  /\ prepareFile newname w = (tt, w).
Proof.
  intros Hext Hdate Hy newname.
  destruct (Format_dateString now y m d Hdate Hy) as [Hvalid Hfmt].
  destruct (Ext_suffix srcFile) as (stem & Hsrc). rewrite Hext in Hsrc.
  set (e := fst (Filepath.lastElement stem)).
  assert (Hbase : Filepath.Base srcFile = e +:+ ".md").
  { rewrite Hsrc, Base_last; rewrite ?lastElement_app by reflexivity; try reflexivity.
    - apply (TrimRight_keep _ _ "d"); [| reflexivity].
      now rewrite lastByte_app by discriminate.
    - cbn [fst]. fold e. intros E. apply (f_equal String.length) in E.
      rewrite length_app_string in E. simpl in E. lia. }
  assert (Hslash : Strings.ContainsByte (trimPath srcFile) "/" = false).
  { apply trimPath_separator. rewrite Hbase. intros E.
    apply (f_equal String.length) in E.
    rewrite length_app_string in E. simpl in E. lia. }
  assert (Hslug : trimPath srcFile = Strings.TrimRight e ".md").
  { unfold trimPath. cbv zeta. rewrite Hbase, Ext_md.
    now apply TrimRight_app_cutset. }
  set (slug := trimPath srcFile) in *.
  set (ds := dateString y m d +:+ "-" +:+ slug).
  assert (Hnew : newname = Filepath.Join (SourceDir cfg) (ds +:+ ".md")).
  { unfold newname, datedName, ds. fold slug. rewrite Hfmt, Hext.
    now rewrite !app_assoc_string. }
  assert (Hds : Strings.ContainsByte ds "/" = false).
  { unfold ds. rewrite !ContainsByte_app, Hslash, (dateString_separator y m d Hvalid).
    reflexivity. }
  assert (Hentry : entryName (ds +:+ ".md")).
  { apply entryName_long.
    - now rewrite ContainsByte_app, Hds.
    - unfold ds. rewrite !length_app_string, length_dateString. lia. }
  assert (Hkeep : Strings.TrimRight ds ".md" = ds).
  { destruct slug as [|c slug'] eqn:Eslug.
    - apply (TrimRight_keep _ _ "-"); [| reflexivity].
      unfold ds. now rewrite lastByte_app by discriminate.
    - destruct (lastByte_some (String c slug')) as (l & Hl); [discriminate |].
      apply (TrimRight_keep _ _ l).
      + unfold ds. rewrite lastByte_app by discriminate.
        now rewrite (lastByte_app "-") by discriminate.
      + apply (TrimRight_last e). now rewrite <- Hslug. }
  assert (Htrim : trimPath newname = ds).
  { unfold trimPath. cbv zeta. rewrite Hnew, (Base_Join _ _ Hentry), Ext_md.
    rewrite TrimRight_app_cutset by reflexivity. exact Hkeep. }
  assert (Hparse : parseDate (trimPath newname) w = ((Time.Date y m d, None), w)).
  { rewrite Htrim, parseDate_eq. cbv zeta. unfold Regexp.FindString, ds.
    rewrite (find_here _ _ ("-" +:+ slug))
      by (now apply matchHere_dateString).
    rewrite takeBytes_app, length_dateString. cbn [Nat.eqb].
    now rewrite (Parse_dateString y m d Hvalid). }
  split; [exact Htrim |]. split; [| split; [exact Hparse |]].
  - rewrite Hnew.
    destruct (Join_entry (SourceDir cfg) _ Hentry) as [-> | (q & ->)].
    + apply Ext_md.
    + change (String "/" (ds +:+ ".md")) with (String "/" ds +:+ ".md").
      rewrite <- app_assoc_string. apply Ext_md.
  - rewrite prepareFile_eq, Hparse. reflexivity.
Qed.

End Dated.

Lemma prepare_keeps_dated_name_witness :
  trimPath (datedName Demo.configSeparate Demo.now0 "src/cmd.md") = "2024-05-17-c"
  /\ prepareFile (H := Demo.runtime)
       (datedName Demo.configSeparate Demo.now0 "src/cmd.md") siteWorld
     = (tt, siteWorld).
Proof.
  destruct (prepare_keeps_dated_name (H := Demo.runtime) Demo.configSeparate
              Demo.now0 "src/cmd.md" 2024 5 17 siteWorld)
    as (Hslug & _ & _ & Hkept).
  - reflexivity.
  - vm_compute. reflexivity.
  - lia.
  - split; [exact Hslug | exact Hkept].
Defined.

(** ** The slots of the collection in a run *)

Section SlotsOfRun.

Context `{SortContract}.

(** C7. In every run that gets as far as the loop of [main] (the
    configuration loads, the source directory is listed before and after
    the renaming), the collection that [main] hands to [writeIndex] has
    one slot per listed source file: slot [i] holds the post of the
    [i]-th file when [writePost] succeeded on it, and the zero-valued
    [Post] when it failed.  [main] hands to [writeFeed] what [writeIndex]
    left, the same slots sorted.  The templates [recent.html] and
    [feed.html] receive these collections sorted: rearrangements of the
    slots, none removed. *)
Theorem posts_one_slot_per_source_file (fs : gmap string string) (t : nat)
    (srcFiles : list string) :
  let w1 := snd (readConfig (startWorld fs t)) in
  let w2 := snd (prepare w1) in
  fst (readConfig (startWorld fs t)) = None ->
  fst (prepare w1) = None ->
  Glob (files w2) (SourceDir (config w2) +:+ "/*.md") = inl srcFiles ->
  let w3 := snd (outcomes srcFiles w2) in
  let posts := map slot (fst (outcomes srcFiles w2)) in
  run fs t = (0%Z, snd (writeFeed (Sort posts) (snd (writeIndex posts w3))))
  /\ length posts = length srcFiles
  /\ (forall before srcFile after,
         srcFiles = before ++ srcFile :: after ->
         match fst (writePost srcFile (snd (outcomes before w2))) with
         | inl post => posts !! length before = Some post
         | inr _ => posts !! length before = Some zeroPost
         end)
  /\ (exists between,
         rendered (snd (run fs t))
         = rendered w3
           ++ (Filepath.Join (TemplateDir (config w2)) "recent.html",
               DataPosts (Sort posts))
              :: between
           ++ [(Filepath.Join (TemplateDir (config w2)) "feed.html",
                DataPosts (Sort (Sort posts)))])
  /\ Sort posts ≡ₚ posts
  /\ Sort (Sort posts) ≡ₚ posts.
Proof.
  intros w1 w2 Hcfg Hprep Hglob w3 posts.
  assert (Hloop : writePosts 0 srcFiles (replicate (length srcFiles) zeroPost) w2
                  = (posts, w3)).
  { pose proof (writePosts_outcomes srcFiles [] [] w2) as E.
    simpl in E. now rewrite !app_nil_r in E. }
  assert (Hc3 : config w3 = config w2).
  { pose proof (writePosts_effect srcFiles 0 (replicate (length srcFiles) zeroPost) w2)
      as (Hc & _).
    now rewrite Hloop in Hc. }
  destruct (writeIndex_posts posts w3) as (Hsorted & tail & Htrace).
  destruct (writeIndex_effect posts w3) as (Hc4 & _).
  assert (Hrun : run fs t
                 = (0%Z, snd (writeFeed (Sort posts) (snd (writeIndex posts w3))))).
  { unfold run. fold (startWorld fs t). rewrite main_eq. cbv zeta.
    fold w1. rewrite Hcfg. fold w2. rewrite Hprep, Hglob.
    unfold publish. cbv zeta. unfold mbind, M_bind, bind. rewrite Hloop.
    destruct (writeIndex posts w3) as [[posts1 e1] w4]. cbn [fst snd] in *.
    subst posts1.
    now destruct (writeFeed (Sort posts) w4) as [[posts2 e2] w5]. }
  split; [exact Hrun |].
  split; [unfold posts; now rewrite length_map, outcomes_length |].
  split; [| split; [| split]].
  - intros before srcFile after ->.
    assert (E : posts !! length before
                = Some (slot (fst (writePost srcFile (snd (outcomes before w2)))))).
    { unfold posts. rewrite outcomes_app. cbn [fst]. rewrite map_app.
      rewrite lookup_app_r by (rewrite length_map, outcomes_length; lia).
      rewrite length_map, outcomes_length, Nat.sub_diag.
      cbn [outcomes]. unfold mbind, M_bind, bind.
      destruct (writePost srcFile (snd (outcomes before w2))) as [r w'].
      now destruct (outcomes after w'). }
    now destruct (fst (writePost srcFile (snd (outcomes before w2)))).
  - rewrite Hrun. cbn [snd].
    destruct (writeFeed_posts (Sort posts) (snd (writeIndex posts w3))) as (_ & ->).
    rewrite Htrace, Hc4, Hc3. exists tail.
    now rewrite <- app_assoc.
  - apply Sort_permutation.
  - now rewrite !Sort_permutation.
Qed.

End SlotsOfRun.

Lemma posts_one_slot_per_source_file_witness :
  exists post,
    map slot (fst (outcomes (H := Demo.runtime)
                     ["src/2021-03-05-a.md"; "src/2024-05-17-c.md"]
                     (snd (prepare (H := Demo.runtime)
                             (snd (readConfig (H := Demo.runtime)
                                     (startWorld fsSite 0))))))) !! 0
    = Some post
    /\ Name post = "2021-03-05-a" /\ Title post = "First".
Proof.
  destruct (@posts_one_slot_per_source_file Demo.runtime Demo_SortContract
              fsSite 0 ["src/2021-03-05-a.md"; "src/2024-05-17-c.md"])
    as (_ & _ & Hslot & _).
  - vm_compute. reflexivity.
  - vm_compute. reflexivity.
  - vm_compute. reflexivity.
  - specialize (Hslot [] "src/2021-03-05-a.md" ["src/2024-05-17-c.md"] eq_refl).
    destruct (fst (writePost "src/2021-03-05-a.md" _)) as [post | err] eqn:E.
    + exists post. split; [exact Hslot |].
      vm_compute in E. injection E as <-. split; reflexivity.
    + vm_compute in E. discriminate E.
Defined.
